(** * Liquid Protocol bot: phase detection and treasury ledger

    A shallow embedding of [LiquidBot] (the fee-management bot of the
    repository) and the properties of its reconciliation cycle.

    - JavaScript [number]s are IEEE 754 binary64 values: they are modelled by
      Rocq's primitive floats, whose operations are the same binary64
      operations, so that every arithmetic step of the bot can be evaluated.
    - The bot is a mutable object whose methods may throw: methods are
      computations in a state-and-exception monad over the record
      [LiquidBot.t].
    - The chain, the RPC connection and the pump SDKs are external: what they
      answer during one cycle is an [Env] record, one field per call site.
      The bot records every call it makes on them in [LiquidBot.calls] and
      every event it emits in [LiquidBot.emitted], so that statements can
      speak of what a cycle attempted and announced.
    - Cycles run one after the other ([run_cycles]); a cycle that would
      overlap the next firing of the timer is not modelled. *)

From Stdlib Require Import ZArith List String Bool Lia.
From Stdlib Require Import Floats.
Import ListNotations.

Local Open Scope string_scope.
Local Open Scope Z_scope.
Local Open Scope list_scope.

(* A decimal literal denotes the nearest binary64 value, as it does in
   JavaScript. *)
Set Warnings "-inexact-float".

(** ** Values of the data model *)

Definition PublicKey := string.
Definition Signature := string.
Definition Date := Z.

(** [currentPhase: 'bonding_curve' | 'pumpswap' | 'unknown'] *)
Inductive Phase : Type := bonding_curve | pumpswap | unknown.

(** [LogEntry['level']] *)
Inductive Level : Type := info | success | warning | error.

(** A thrown JavaScript value: an [Error] with its message, or anything else. *)
Inductive Thrown : Type :=
| ErrorObj (message : string)
| NonError.

(** [error instanceof Error ? error.message : 'Unknown error'] *)
Definition error_message (e : Thrown) : string :=
  match e with
  | ErrorObj m => m
  | NonError => "Unknown error"
  end.

(** The answer of an external call: a value, or a thrown value (a rejected
    promise). *)
Inductive outcome (A : Type) : Type :=
| Ok (a : A)
| Err (e : Thrown).
Arguments Ok {A} a.
Arguments Err {A} e.

Module BotConfig.
Record t : Type := mk {
  heliusRpcUrl : string;
  privateKey : string;
  tokenMint : string;
  minFeeThreshold : float;
  buybackPercentage : float;
  checkInterval : float
}.
End BotConfig.

Module BotStatus.
Record t : Type := mk {
  isRunning : bool;
  tokenMint : string;
  currentPhase : Phase;
  totalFeesCollected : float;
  totalBuybacks : float;
  totalSolHeld : float;
  tokensHeld : float;
  lastCheck : option Date;
  pumpSwapPool : option string
}.
End BotStatus.

(** The message of a log entry, one constructor per [this.log] call site of
    the bot; the numbers a message prints are kept as they are. *)
Inductive Message : Type :=
| MsgInitialized (mint : string)
| MsgWallet (address : PublicKey)
| MsgMinFeeThreshold (threshold : float)
| MsgBuybackPercentage (pct : float)
| MsgAlreadyRunning
| MsgStarted
| MsgNotRunning
| MsgStopped
| MsgRunningCycle
| MsgTokenPhase (phase : Phase)
| MsgCreatorFeeBalance (fee : float)
| MsgFeesAboveThreshold (threshold : float)
| MsgBuybackAmount (amount pct : float)
| MsgHoldAmount (amount pct : float)
| MsgFeesBelowThreshold (fee threshold : float)
| MsgCycleError (message : string)
| MsgCouldNotDeterminePhase
| MsgDetectedPool (pool : PublicKey)
| MsgCouldNotDetectPool
| MsgFailedFeeBalance
| MsgNoClaimInstructions
| MsgFeesClaimed (tx : Signature)
| MsgFailedToClaim (message : string)
| MsgBuybackCompleted (amount : float) (tx : Signature)
| MsgBuybackFailed (message : string)
| MsgPoolNotDetected
| MsgPumpSwapPhase (totalSolAvailable : float)
| MsgNoPoolToBuyback
| MsgBuyingOnPumpSwap (amount : float)
| MsgPumpSwapBuybackCompleted (tx : Signature)
| MsgPumpSwapBuybackFailed (message : string)
| MsgNoPoolForLiquidity
| MsgAddingLiquidity (amount : float) (lpToken : Z)
| MsgLiquidityAdded (tx : Signature)
| MsgAddLiquidityFailed (message : string).

(** What the bot emits on its [EventEmitter]: ['log'] entries and
    ['statusUpdate'] snapshots. *)
Inductive Emitted : Type :=
| EvLog (level : Level) (message : Message)
| EvStatusUpdate (status : BotStatus.t).

(** The calls the bot makes on the connection and the SDKs.  The three
    transactions that move funds carry the amount they were sized with. *)
Inductive Call : Type :=
| CallFetchBondingCurve
| CallGetAccountInfo (address : PublicKey)
| CallGetCreatorVaultBalance
| CallCollectFeeInstructions
| CallSendClaim
| CallBuyOnBondingCurve (solAmount : float)
| CallSwapState
| CallBuyOnPumpSwap (solAmount : float)
| CallLiquidityState
| CallDeposit (solAmount : float)
| CallGetTokenAccountBalance.

(** [NodeJS.Timeout]: the handle of the periodic trigger, which fires every
    [period] milliseconds. *)
Record Timeout : Type := { period : Z }.

Module LiquidBot.
Record t : Type := mk {
  config : BotConfig.t;
  isRunning : bool;
  intervalId : option Timeout;
  status : BotStatus.t;
  pumpSwapPool : option PublicKey;
  (* everything emitted so far, oldest first *)
  emitted : list Emitted;
  (* every external call made so far, oldest first *)
  calls : list Call
}.
End LiquidBot.

(** What the outside world answers during one cycle, one field per call
    site.  Where several external calls sit in one [try] block with nothing
    observable between them, one field stands for the whole block. *)
Record Env : Type := {
  now : Date;
  (* pumpSdk.fetchBondingCurve(mint): the curve's [complete] flag *)
  fetchBondingCurve : outcome bool;
  (* canonicalPumpPoolPda(mint) *)
  canonicalPumpPoolPda : outcome PublicKey;
  (* connection.getAccountInfo(pool): true when the account exists *)
  getAccountInfo : outcome bool;
  (* pumpSdk.getCreatorVaultBalanceBothPrograms(wallet): a BN, in lamports *)
  getCreatorVaultBalanceBothPrograms : outcome Z;
  (* pumpSdk.collectCoinCreatorFeeInstructions(wallet): how many instructions *)
  collectCoinCreatorFeeInstructions : outcome nat;
  (* sendAndConfirmTransaction of the claim *)
  sendClaim : outcome Signature;
  (* fetchGlobal .. sendAndConfirmTransaction of the bonding-curve buy, lines
     257-290: what follows the conversion of the amount to lamports *)
  sendBondingCurveBuy : outcome Signature;
  (* onlinePumpAmmSdk.swapSolanaState(pool, wallet) *)
  swapSolanaState : outcome unit;
  (* pumpAmmSdk.buyQuoteInput and sendAndConfirmTransaction of the swap *)
  sendPumpSwapBuy : outcome Signature;
  (* onlinePumpAmmSdk.liquiditySolanaState(pool, wallet) *)
  liquiditySolanaState : outcome unit;
  (* pumpAmmSdk.depositAutocompleteBaseAndLpTokenFromQuote: the LP token
     amount *)
  depositAutocompleteBaseAndLpTokenFromQuote : outcome Z;
  (* depositInstructions and sendAndConfirmTransaction of the deposit *)
  sendDeposit : outcome Signature;
  (* connection.getTokenAccountBalance(ata): [value.uiAmount], null or a number *)
  getTokenAccountBalance : outcome (option float)
}.

(** ** The monad of methods: state [LiquidBot.t], exceptions [Thrown] *)

Inductive Result (A : Type) : Type :=
| Ret (a : A)
| Throw (e : Thrown).
Arguments Ret {A} a.
Arguments Throw {A} e.

Definition M (A : Type) : Type := LiquidBot.t -> Result A * LiquidBot.t.

Definition ret {A} (a : A) : M A := fun b => (Ret a, b).

Definition throw {A} (e : Thrown) : M A := fun b => (Throw e, b).

Definition bind {A B} (m : M A) (k : A -> M B) : M B :=
  fun b =>
    match m b with
    | (Ret a, b') => k a b'
    | (Throw e, b') => (Throw e, b')
    end.

(** [try { body } catch (error) { handler error }] *)
Definition try_catch {A} (body : M A) (handler : Thrown -> M A) : M A :=
  fun b =>
    match body b with
    | (Ret a, b') => (Ret a, b')
    | (Throw e, b') => handler e b'
    end.

(** Records the external call [c]. *)
Definition push_call (c : Call) (b : LiquidBot.t) : LiquidBot.t :=
  LiquidBot.mk (LiquidBot.config b) (LiquidBot.isRunning b) (LiquidBot.intervalId b)
    (LiquidBot.status b) (LiquidBot.pumpSwapPool b) (LiquidBot.emitted b)
    (LiquidBot.calls b ++ [c]).

(** [await call]: the external call's answer, a thrown value when rejected. *)
Definition await {A} (c : Call) (o : outcome A) : M A :=
  fun b =>
    match o with
    | Ok a => (Ret a, push_call c b)
    | Err e => (Throw e, push_call c b)
    end.

(** A pure library call that may throw (no I/O). *)
Definition lift {A} (o : outcome A) : M A :=
  fun b => match o with Ok a => (Ret a, b) | Err e => (Throw e, b) end.

Definition get : M LiquidBot.t := fun b => (Ret b, b).

Definition modify (f : LiquidBot.t -> LiquidBot.t) : M unit :=
  fun b => (Ret tt, f b).

Declare Scope bot_scope.
Delimit Scope bot_scope with bot.
Notation "x <- m ;; k" := (bind m (fun x => k))
  (at level 100, m at next level, right associativity) : bot_scope.
Notation "m ;; k" := (bind m (fun _ => k))
  (at level 100, right associativity) : bot_scope.
Local Open Scope bot_scope.

(** ** Field updates *)

Definition with_status (f : BotStatus.t -> BotStatus.t) (b : LiquidBot.t) : LiquidBot.t :=
  LiquidBot.mk (LiquidBot.config b) (LiquidBot.isRunning b) (LiquidBot.intervalId b)
    (f (LiquidBot.status b)) (LiquidBot.pumpSwapPool b) (LiquidBot.emitted b)
    (LiquidBot.calls b).

Definition emit (ev : Emitted) (b : LiquidBot.t) : LiquidBot.t :=
  LiquidBot.mk (LiquidBot.config b) (LiquidBot.isRunning b) (LiquidBot.intervalId b)
    (LiquidBot.status b) (LiquidBot.pumpSwapPool b) (LiquidBot.emitted b ++ [ev])
    (LiquidBot.calls b).

Definition set_isRunning (v : bool) (b : LiquidBot.t) : LiquidBot.t :=
  LiquidBot.mk (LiquidBot.config b) v (LiquidBot.intervalId b)
    (LiquidBot.status b) (LiquidBot.pumpSwapPool b) (LiquidBot.emitted b)
    (LiquidBot.calls b).

Definition set_intervalId (v : option Timeout) (b : LiquidBot.t) : LiquidBot.t :=
  LiquidBot.mk (LiquidBot.config b) (LiquidBot.isRunning b) v
    (LiquidBot.status b) (LiquidBot.pumpSwapPool b) (LiquidBot.emitted b)
    (LiquidBot.calls b).

Definition set_pumpSwapPool (v : option PublicKey) (b : LiquidBot.t) : LiquidBot.t :=
  LiquidBot.mk (LiquidBot.config b) (LiquidBot.isRunning b) (LiquidBot.intervalId b)
    (LiquidBot.status b) v (LiquidBot.emitted b) (LiquidBot.calls b).

Definition status_set_isRunning (v : bool) (s : BotStatus.t) : BotStatus.t :=
  BotStatus.mk v (BotStatus.tokenMint s) (BotStatus.currentPhase s)
    (BotStatus.totalFeesCollected s) (BotStatus.totalBuybacks s)
    (BotStatus.totalSolHeld s) (BotStatus.tokensHeld s) (BotStatus.lastCheck s)
    (BotStatus.pumpSwapPool s).

Definition status_set_currentPhase (v : Phase) (s : BotStatus.t) : BotStatus.t :=
  BotStatus.mk (BotStatus.isRunning s) (BotStatus.tokenMint s) v
    (BotStatus.totalFeesCollected s) (BotStatus.totalBuybacks s)
    (BotStatus.totalSolHeld s) (BotStatus.tokensHeld s) (BotStatus.lastCheck s)
    (BotStatus.pumpSwapPool s).

Definition status_set_totalFeesCollected (v : float) (s : BotStatus.t) : BotStatus.t :=
  BotStatus.mk (BotStatus.isRunning s) (BotStatus.tokenMint s) (BotStatus.currentPhase s)
    v (BotStatus.totalBuybacks s)
    (BotStatus.totalSolHeld s) (BotStatus.tokensHeld s) (BotStatus.lastCheck s)
    (BotStatus.pumpSwapPool s).

Definition status_set_totalBuybacks (v : float) (s : BotStatus.t) : BotStatus.t :=
  BotStatus.mk (BotStatus.isRunning s) (BotStatus.tokenMint s) (BotStatus.currentPhase s)
    (BotStatus.totalFeesCollected s) v
    (BotStatus.totalSolHeld s) (BotStatus.tokensHeld s) (BotStatus.lastCheck s)
    (BotStatus.pumpSwapPool s).

Definition status_set_totalSolHeld (v : float) (s : BotStatus.t) : BotStatus.t :=
  BotStatus.mk (BotStatus.isRunning s) (BotStatus.tokenMint s) (BotStatus.currentPhase s)
    (BotStatus.totalFeesCollected s) (BotStatus.totalBuybacks s)
    v (BotStatus.tokensHeld s) (BotStatus.lastCheck s)
    (BotStatus.pumpSwapPool s).

Definition status_set_tokensHeld (v : float) (s : BotStatus.t) : BotStatus.t :=
  BotStatus.mk (BotStatus.isRunning s) (BotStatus.tokenMint s) (BotStatus.currentPhase s)
    (BotStatus.totalFeesCollected s) (BotStatus.totalBuybacks s)
    (BotStatus.totalSolHeld s) v (BotStatus.lastCheck s)
    (BotStatus.pumpSwapPool s).

Definition status_set_lastCheck (v : option Date) (s : BotStatus.t) : BotStatus.t :=
  BotStatus.mk (BotStatus.isRunning s) (BotStatus.tokenMint s) (BotStatus.currentPhase s)
    (BotStatus.totalFeesCollected s) (BotStatus.totalBuybacks s)
    (BotStatus.totalSolHeld s) (BotStatus.tokensHeld s) v
    (BotStatus.pumpSwapPool s).

Definition status_set_pumpSwapPool (v : option string) (s : BotStatus.t) : BotStatus.t :=
  BotStatus.mk (BotStatus.isRunning s) (BotStatus.tokenMint s) (BotStatus.currentPhase s)
    (BotStatus.totalFeesCollected s) (BotStatus.totalBuybacks s)
    (BotStatus.totalSolHeld s) (BotStatus.tokensHeld s) (BotStatus.lastCheck s)
    v.

(** ** JavaScript numbers and bn.js *)

(** [x >= y] on numbers: false as soon as one side is NaN. *)
Definition js_ge (x y : float) : bool := PrimFloat.leb y x.

(** [x || 0] on [number | null]: null, 0, -0 and NaN are falsy. *)
Definition js_or_zero (x : option float) : float :=
  match x with
  | None => 0%float
  | Some v => if (PrimFloat.eqb v 0 || negb (PrimFloat.eqb v v))%bool then 0%float else v
  end.

(** [Number.isFinite(x)]: neither NaN nor an infinity. *)
Definition js_isFinite (x : float) : bool :=
  PrimFloat.ltb (PrimFloat.abs x) PrimFloat.infinity.

(** The number with the value of an integer below 2^53 in absolute value
    (such an integer is a binary64 value). *)
Definition float_of_Z (z : Z) : float :=
  if z <? 0 then PrimFloat.opp (PrimFloat.of_uint63 (Uint63.of_Z (- z)))
  else PrimFloat.of_uint63 (Uint63.of_Z z).

(** [BN.prototype.toNumber]: throws beyond 53 bits. *)
Definition BN_toNumber (z : Z) : outcome float :=
  if Z.abs z <? 2 ^ 53 then Ok (float_of_Z z)
  else Err (ErrorObj "Number can only safely store up to 53 bits").

(** The largest integer that is not above a finite number; 0 for NaN and
    the infinities. *)
Definition floor_Z (x : float) : Z :=
  match Prim2SF x with
  | S754_finite s m e =>
    if 0 <=? e then cond_Zopp s (Z.pos m) * 2 ^ e
    else cond_Zopp s (Z.pos m) / 2 ^ (- e)
  | _ => 0
  end.

(** [Math.floor(x)]: NaN, the infinities, the zeros and the numbers without
    a fractional part are returned as they are. *)
Definition Math_floor (x : float) : float :=
  match Prim2SF x with
  | S754_finite _ _ e => if 0 <=? e then x else float_of_Z (floor_Z x)
  | _ => x
  end.

(** [new BN(number)]: bn.js takes [number || 0], keeps the sign apart and
    asserts that the magnitude is below 2^53; the BN is the integer part. *)
Definition new_BN (number : float) : outcome Z :=
  match Prim2SF number with
  | S754_zero _ | S754_nan => Ok 0
  | S754_infinity _ => Err (ErrorObj "Assertion failed")
  | S754_finite s m e =>
    let magnitude := if 0 <=? e then Z.pos m * 2 ^ e else Z.pos m / 2 ^ (- e) in
    if magnitude <? 2 ^ 53 then Ok (cond_Zopp s magnitude)
    else Err (ErrorObj "Assertion failed")
  end.

(** [new BN(Math.floor(solAmount * 1e9))]: an amount of SOL in lamports. *)
Definition lamports_of (solAmount : float) : outcome Z :=
  new_BN (Math_floor (solAmount * 1e9)).

(** [setInterval(callback, delay)] of Node: a delay that is not a number
    from 1 to 2^31 - 1 is replaced by 1, and the timer counts whole
    milliseconds. *)
Definition TIMEOUT_MAX : float := 2147483647.

Definition setInterval (delay : float) : Timeout :=
  {| period :=
       if (PrimFloat.leb 1 delay && PrimFloat.leb delay TIMEOUT_MAX)%bool
       then floor_Z delay
       else 1 |}.

(** Lines 153-154 of the cycle: the buyback / hold split of a harvest. *)
Definition buybackAmount_of (feeBalanceSOL buybackPercentage : float) : float :=
  ((feeBalanceSOL * buybackPercentage) / 100)%float.

Definition holdAmount_of (feeBalanceSOL buybackPercentage : float) : float :=
  (feeBalanceSOL - buybackAmount_of feeBalanceSOL buybackPercentage)%float.

(** ** The methods of [LiquidBot] *)

(** [private log(level, message, data?)] *)
Definition log (level : Level) (message : Message) : M unit :=
  modify (emit (EvLog level message)).

(** [this.status.totalFeesCollected += x] and its two siblings *)
Definition add_totalFeesCollected (x : float) : M unit :=
  modify (with_status (fun s =>
    status_set_totalFeesCollected (BotStatus.totalFeesCollected s + x)%float s)).

Definition add_totalBuybacks (x : float) : M unit :=
  modify (with_status (fun s =>
    status_set_totalBuybacks (BotStatus.totalBuybacks s + x)%float s)).

Definition add_totalSolHeld (x : float) : M unit :=
  modify (with_status (fun s =>
    status_set_totalSolHeld (BotStatus.totalSolHeld s + x)%float s)).

(** The fields the constructor sets and the four entries it logs. *)
Definition initial_bot (walletAddress : PublicKey) (config : BotConfig.t) : LiquidBot.t :=
  LiquidBot.mk config false None
    (BotStatus.mk false (BotConfig.tokenMint config) unknown
       0%float 0%float 0%float 0%float None None)
    None
    [ EvLog info (MsgInitialized (BotConfig.tokenMint config));
      EvLog info (MsgWallet walletAddress);
      EvLog info (MsgMinFeeThreshold (BotConfig.minFeeThreshold config));
      EvLog info (MsgBuybackPercentage (BotConfig.buybackPercentage config)) ]
    [].

(** [constructor(config)]; [connection] is what [new Connection] makes of
    the endpoint, [wallet] what decoding the private key gives and [mint]
    what parsing the mint address gives: each may throw, in that order. *)
Definition constructor (connection : outcome unit) (wallet mint : outcome PublicKey)
    (config : BotConfig.t) : outcome LiquidBot.t :=
  match connection with
  | Err e => Err e
  | Ok _ =>
    match wallet with
    | Err e => Err e
    | Ok walletAddress =>
      match mint with
      | Err e => Err e
      | Ok _ => Ok (initial_bot walletAddress config)
      end
    end
  end.

(** [private async detectPumpSwapPool()] *)
Definition detectPumpSwapPool (e : Env) : M unit :=
  try_catch
    (poolAddress <- lift (canonicalPumpPoolPda e) ;;
     poolInfo <- await (CallGetAccountInfo poolAddress) (getAccountInfo e) ;;
     if (poolInfo : bool) then
       (modify (set_pumpSwapPool (Some poolAddress)) ;;
        modify (with_status (status_set_pumpSwapPool (Some poolAddress))) ;;
        log success (MsgDetectedPool poolAddress))
     else ret tt)
    (fun _ => log warning MsgCouldNotDetectPool).

(** [private async checkTokenPhase()] *)
Definition checkTokenPhase (e : Env) : M Phase :=
  try_catch
    (complete <- await CallFetchBondingCurve (fetchBondingCurve e) ;;
     if (complete : bool) then
       (detectPumpSwapPool e ;;
        ret pumpswap)
     else ret bonding_curve)
    (fun _ =>
       log warning MsgCouldNotDeterminePhase ;;
       detectPumpSwapPool e ;;
       b <- get ;;
       match LiquidBot.pumpSwapPool b with
       | Some _ => ret pumpswap
       | None => ret unknown
       end).

(** [private async getCreatorFeeBalance()]: a BN, [new BN(0)] on failure *)
Definition getCreatorFeeBalance (e : Env) : M Z :=
  try_catch
    (balance <- await CallGetCreatorVaultBalance (getCreatorVaultBalanceBothPrograms e) ;;
     ret balance)
    (fun _ =>
       log error MsgFailedFeeBalance ;;
       ret 0).

(** [private async claimFees()] *)
Definition claimFees (e : Env) : M unit :=
  try_catch
    (instructions <- await CallCollectFeeInstructions (collectCoinCreatorFeeInstructions e) ;;
     if Nat.eqb instructions 0 then
       log warning MsgNoClaimInstructions
     else
       (signature <- await CallSendClaim (sendClaim e) ;;
        log success (MsgFeesClaimed signature)))
    (fun err =>
       log error (MsgFailedToClaim (error_message err)) ;;
       throw err).

(** [private async buybackOnBondingCurve(solAmount)] *)
Definition buybackOnBondingCurve (e : Env) (solAmount : float) : M unit :=
  try_catch
    (lift (lamports_of solAmount) ;;
     signature <- await (CallBuyOnBondingCurve solAmount) (sendBondingCurveBuy e) ;;
     log success (MsgBuybackCompleted solAmount signature))
    (fun err =>
       log error (MsgBuybackFailed (error_message err)) ;;
       throw err).

(** [private async buybackOnPumpSwap(solAmount)] *)
Definition buybackOnPumpSwap (e : Env) (solAmount : float) : M unit :=
  try_catch
    (b <- get ;;
     match LiquidBot.pumpSwapPool b with
     | None => log warning MsgNoPoolToBuyback
     | Some _ =>
       lift (lamports_of solAmount) ;;
       await CallSwapState (swapSolanaState e) ;;
       log info (MsgBuyingOnPumpSwap solAmount) ;;
       signature <- await (CallBuyOnPumpSwap solAmount) (sendPumpSwapBuy e) ;;
       log success (MsgPumpSwapBuybackCompleted signature)
     end)
    (fun err => log error (MsgPumpSwapBuybackFailed (error_message err))).

(** [private async addLiquidityToPumpSwap(solAmount)] *)
Definition addLiquidityToPumpSwap (e : Env) (solAmount : float) : M unit :=
  try_catch
    (b <- get ;;
     match LiquidBot.pumpSwapPool b with
     | None => log warning MsgNoPoolForLiquidity
     | Some _ =>
       await CallLiquidityState (liquiditySolanaState e) ;;
       lift (lamports_of solAmount) ;;
       lpToken <- lift (depositAutocompleteBaseAndLpTokenFromQuote e) ;;
       log info (MsgAddingLiquidity solAmount lpToken) ;;
       signature <- await (CallDeposit solAmount) (sendDeposit e) ;;
       log success (MsgLiquidityAdded signature)
     end)
    (fun err => log error (MsgAddLiquidityFailed (error_message err))).

(** [private async handlePumpSwapPhase(buybackAmount, holdAmount)] *)
Definition handlePumpSwapPhase (e : Env) (buybackAmount holdAmount : float) : M unit :=
  b <- get ;;
  match LiquidBot.pumpSwapPool b with
  | None =>
    log warning MsgPoolNotDetected ;;
    buybackOnPumpSwap e buybackAmount ;;
    add_totalBuybacks buybackAmount ;;
    add_totalSolHeld holdAmount
  | Some _ =>
    let totalSolAvailable :=
      (BotStatus.totalSolHeld (LiquidBot.status b) + holdAmount)%float in
    log info (MsgPumpSwapPhase totalSolAvailable) ;;
    buybackOnPumpSwap e buybackAmount ;;
    add_totalBuybacks buybackAmount ;;
    addLiquidityToPumpSwap e totalSolAvailable ;;
    modify (with_status (status_set_totalSolHeld 0%float))
  end.

(** [private async updateTokenBalance()] *)
Definition updateTokenBalance (e : Env) : M unit :=
  try_catch
    (uiAmount <- await CallGetTokenAccountBalance (getTokenAccountBalance e) ;;
     modify (with_status (status_set_tokensHeld (js_or_zero uiAmount))))
    (fun _ => modify (with_status (status_set_tokensHeld 0%float))).

(** [private async runCycle()] *)
Definition runCycle (e : Env) : M unit :=
  try_catch
    (log info MsgRunningCycle ;;
     modify (with_status (status_set_lastCheck (Some (now e)))) ;;
     phase <- checkTokenPhase e ;;
     modify (with_status (status_set_currentPhase phase)) ;;
     log info (MsgTokenPhase phase) ;;
     feeBalance <- getCreatorFeeBalance e ;;
     feeBalanceNumber <- lift (BN_toNumber feeBalance) ;;
     let feeBalanceSOL := (feeBalanceNumber / 1e9)%float in
     log info (MsgCreatorFeeBalance feeBalanceSOL) ;;
     b <- get ;;
     let minFeeThreshold := BotConfig.minFeeThreshold (LiquidBot.config b) in
     let buybackPercentage := BotConfig.buybackPercentage (LiquidBot.config b) in
     (if js_ge feeBalanceSOL minFeeThreshold then
        log success (MsgFeesAboveThreshold minFeeThreshold) ;;
        claimFees e ;;
        add_totalFeesCollected feeBalanceSOL ;;
        let buybackAmount := buybackAmount_of feeBalanceSOL buybackPercentage in
        let holdAmount := holdAmount_of feeBalanceSOL buybackPercentage in
        log info (MsgBuybackAmount buybackAmount buybackPercentage) ;;
        log info (MsgHoldAmount holdAmount (100 - buybackPercentage)%float) ;;
        match phase with
        | bonding_curve =>
          buybackOnBondingCurve e buybackAmount ;;
          add_totalBuybacks buybackAmount ;;
          add_totalSolHeld holdAmount
        | pumpswap => handlePumpSwapPhase e buybackAmount holdAmount
        | unknown => ret tt
        end
      else
        log info (MsgFeesBelowThreshold feeBalanceSOL minFeeThreshold)) ;;
     updateTokenBalance e ;;
     b' <- get ;;
     modify (emit (EvStatusUpdate (LiquidBot.status b'))))
    (fun err => log error (MsgCycleError (error_message err))).

(** [async start()]; [e] is what the world answers during the initial cycle. *)
Definition start (e : Env) : M unit :=
  b <- get ;;
  if LiquidBot.isRunning b then
    log warning MsgAlreadyRunning
  else
    (modify (set_isRunning true) ;;
     modify (with_status (status_set_isRunning true)) ;;
     log success MsgStarted ;;
     runCycle e ;;
     modify (set_intervalId
               (Some (setInterval (BotConfig.checkInterval (LiquidBot.config b)))))).

(** [async stop()] *)
Definition stop : M unit :=
  b <- get ;;
  if negb (LiquidBot.isRunning b) then
    log warning MsgNotRunning
  else
    ((match LiquidBot.intervalId b with
      | Some _ => modify (set_intervalId None)
      | None => ret tt
      end) ;;
     modify (set_isRunning false) ;;
     modify (with_status (status_set_isRunning false)) ;;
     log info MsgStopped).

(** One firing of the periodic trigger set up by [start]: the callback
    [() => this.runCycle()] runs while the interval is installed. *)
Definition tick (e : Env) : M unit :=
  b <- get ;;
  match LiquidBot.intervalId b with
  | Some _ => runCycle e
  | None => ret tt
  end.

(** The bot after a method has run. *)
Definition after {A} (m : M A) (b : LiquidBot.t) : LiquidBot.t := snd (m b).

(** Cycles one after the other, each with the answers of its own [Env]. *)
Definition run_cycles (es : list Env) (b : LiquidBot.t) : LiquidBot.t :=
  fold_left (fun b e => after (runCycle e) b) es b.

(** ** Projections used in the statements *)

Definition totalFeesCollected (b : LiquidBot.t) : float :=
  BotStatus.totalFeesCollected (LiquidBot.status b).
Definition totalBuybacks (b : LiquidBot.t) : float :=
  BotStatus.totalBuybacks (LiquidBot.status b).
Definition totalSolHeld (b : LiquidBot.t) : float :=
  BotStatus.totalSolHeld (LiquidBot.status b).
Definition currentPhase (b : LiquidBot.t) : Phase :=
  BotStatus.currentPhase (LiquidBot.status b).

(** The fee balance a cycle reads, in SOL: [feeBalance.toNumber() / 1e9],
    with [new BN(0)] when the read fails; [None] when [toNumber] throws. *)
Definition feeBalanceSOL_of (e : Env) : option float :=
  let feeBalance :=
    match getCreatorVaultBalanceBothPrograms e with
    | Ok z => z
    | Err _ => 0
    end in
  match BN_toNumber feeBalance with
  | Ok n => Some (n / 1e9)%float
  | Err _ => None
  end.

(** ** The blocks of a cycle *)

(** Lines 145-170 of [runCycle]: the threshold test and what it guards. *)
Definition settle (e : Env) (phase : Phase)
    (feeBalanceSOL minFeeThreshold buybackPercentage : float) : M unit :=
  if js_ge feeBalanceSOL minFeeThreshold then
    log success (MsgFeesAboveThreshold minFeeThreshold) ;;
    claimFees e ;;
    add_totalFeesCollected feeBalanceSOL ;;
    let buybackAmount := buybackAmount_of feeBalanceSOL buybackPercentage in
    let holdAmount := holdAmount_of feeBalanceSOL buybackPercentage in
    log info (MsgBuybackAmount buybackAmount buybackPercentage) ;;
    log info (MsgHoldAmount holdAmount (100 - buybackPercentage)%float) ;;
    match phase with
    | bonding_curve =>
      buybackOnBondingCurve e buybackAmount ;;
      add_totalBuybacks buybackAmount ;;
      add_totalSolHeld holdAmount
    | pumpswap => handlePumpSwapPhase e buybackAmount holdAmount
    | unknown => ret tt
    end
  else
    log info (MsgFeesBelowThreshold feeBalanceSOL minFeeThreshold).

(** Lines 172-175 of [runCycle]: the balance refresh and the status publish. *)
Definition publish (e : Env) : M unit :=
  updateTokenBalance e ;;
  b' <- get ;;
  modify (emit (EvStatusUpdate (LiquidBot.status b'))).

(** The [catch] block of [runCycle]. *)
Definition cycle_handler (err : Thrown) : M unit :=
  log error (MsgCycleError (error_message err)).

(** ** What the statements speak of *)

(** The pool cache after [detectPumpSwapPool]: the derived address when its
    account exists, what was cached before otherwise. *)
Definition pool_after_detect (e : Env) (b : LiquidBot.t) : option PublicKey :=
  match canonicalPumpPoolPda e, getAccountInfo e with
  | Ok p, Ok true => Some p
  | _, _ => LiquidBot.pumpSwapPool b
  end.

(** The phase [checkTokenPhase] reports. *)
Definition phase_result (e : Env) (b : LiquidBot.t) : Phase :=
  match fetchBondingCurve e with
  | Ok true => pumpswap
  | Ok false => bonding_curve
  | Err _ =>
    match pool_after_detect e b with
    | Some _ => pumpswap
    | None => unknown
    end
  end.

(** The pool cache after [checkTokenPhase]. *)
Definition pool_after_phase (e : Env) (b : LiquidBot.t) : option PublicKey :=
  match fetchBondingCurve e with
  | Ok false => LiquidBot.pumpSwapPool b
  | _ => pool_after_detect e b
  end.

(** The BN [getCreatorFeeBalance] returns. *)
Definition fee_lamports (e : Env) : Z :=
  match getCreatorVaultBalanceBothPrograms e with
  | Ok z => z
  | Err _ => 0
  end.

(** The claim transaction was sent and confirmed. *)
Definition claim_confirmed (e : Env) : Prop :=
  exists n signature,
    collectCoinCreatorFeeInstructions e = Ok (S n) /\ sendClaim e = Ok signature.

(** The claim failed with the thrown value [err]: building its instructions
    or sending its transaction. *)
Definition claim_fails (e : Env) (err : Thrown) : Prop :=
  collectCoinCreatorFeeInstructions e = Err err \/
  exists n, collectCoinCreatorFeeInstructions e = Ok (S n) /\ sendClaim e = Err err.

(** The calls of a fee claim, of a buy, of a liquidity deposit. *)
Definition claim_call (c : Call) : bool :=
  match c with
  | CallCollectFeeInstructions | CallSendClaim => true
  | _ => false
  end.

Definition buy_call (c : Call) : bool :=
  match c with
  | CallBuyOnBondingCurve _ | CallSwapState | CallBuyOnPumpSwap _ => true
  | _ => false
  end.

Definition deposit_call (c : Call) : bool :=
  match c with
  | CallLiquidityState | CallDeposit _ => true
  | _ => false
  end.

Definition monetary_call (c : Call) : bool :=
  claim_call c || buy_call c || deposit_call c.

(** The two log entries that announce the buyback / hold split. *)
Definition split_event (ev : Emitted) : bool :=
  match ev with
  | EvLog _ (MsgBuybackAmount _ _) | EvLog _ (MsgHoldAmount _ _) => true
  | _ => false
  end.

Definition error_event (ev : Emitted) : bool :=
  match ev with
  | EvLog error _ => true
  | _ => false
  end.

(** A method whose every run relates the bot before to the bot after by [R]. *)
Definition respects (R : LiquidBot.t -> LiquidBot.t -> Prop) {A} (m : M A) : Prop :=
  forall b, R b (snd (m b)).

(** A method that never throws. *)
Definition returns {A} (m : M A) : Prop :=
  forall b, exists a, fst (m b) = Ret a.

(** The fields the scheduler relies on. *)
Definition same_control (b b' : LiquidBot.t) : Prop :=
  LiquidBot.config b' = LiquidBot.config b /\
  LiquidBot.isRunning b' = LiquidBot.isRunning b /\
  LiquidBot.intervalId b' = LiquidBot.intervalId b.

(** The three accumulators of the ledger. *)
Definition same_ledger (b b' : LiquidBot.t) : Prop :=
  totalFeesCollected b' = totalFeesCollected b /\
  totalBuybacks b' = totalBuybacks b /\
  totalSolHeld b' = totalSolHeld b.

(** A property of the bot that, once true, stays true. *)
Definition keeps (I : LiquidBot.t -> Prop) (b b' : LiquidBot.t) : Prop :=
  I b -> I b'.

(** The calls and the events only grow, by calls in [P] and events in [Q]. *)
Definition grows (P : Call -> bool) (Q : Emitted -> bool) (b b' : LiquidBot.t) : Prop :=
  exists cs evs,
    LiquidBot.calls b' = LiquidBot.calls b ++ cs /\
    LiquidBot.emitted b' = LiquidBot.emitted b ++ evs /\
    forallb P cs = true /\ forallb Q evs = true.

Definition pool_cached (b : LiquidBot.t) : Prop := LiquidBot.pumpSwapPool b <> None.

Definition not_monetary (c : Call) : bool := negb (monetary_call c).
Definition not_buy_or_deposit (c : Call) : bool := negb (buy_call c || deposit_call c).
Definition not_split (ev : Emitted) : bool := negb (split_event ev).
Definition any_call (c : Call) : bool := true.
Definition any_event (ev : Emitted) : bool := true.

Definition same_pool (b b' : LiquidBot.t) : Prop :=
  LiquidBot.pumpSwapPool b' = LiquidBot.pumpSwapPool b.

Definition same_phase (b b' : LiquidBot.t) : Prop :=
  currentPhase b' = currentPhase b.

(** Nothing but the traces, the token balance and the time stamp changes. *)
Definition steady (b b' : LiquidBot.t) : Prop :=
  same_control b b' /\ same_ledger b b' /\ same_pool b b' /\ same_phase b b'.

(** ** Scenarios *)

(** The configuration of the README: threshold 0.015 SOL, cycle every minute,
    with the buyback percentage left open. *)
Definition config_with (buybackPercentage : float) : BotConfig.t :=
  BotConfig.mk "https://rpc.example" "key" "mint" 0.015%float buybackPercentage
    60000%float.

(** A bot just constructed from that configuration. *)
Definition new_bot (buybackPercentage : float) : LiquidBot.t :=
  initial_bot "wallet" (config_with buybackPercentage).

(** The answers of one cycle: the curve probe, whether the pool account
    exists, the fee balance in lamports, and how the claim, the buy on the
    curve, the buy on the pool and the deposit go. *)
Definition answers (curve : outcome bool) (poolExists : bool) (lamports : Z)
    (instructions : nat) (claim curveBuy poolBuy deposit : outcome Signature) : Env :=
  {| now := 1700000000000;
     fetchBondingCurve := curve;
     canonicalPumpPoolPda := Ok "pool";
     getAccountInfo := Ok poolExists;
     getCreatorVaultBalanceBothPrograms := Ok lamports;
     collectCoinCreatorFeeInstructions := Ok instructions;
     sendClaim := claim;
     sendBondingCurveBuy := curveBuy;
     swapSolanaState := Ok tt;
     sendPumpSwapBuy := poolBuy;
     liquiditySolanaState := Ok tt;
     depositAutocompleteBaseAndLpTokenFromQuote := Ok 1000;
     sendDeposit := deposit;
     getTokenAccountBalance := Ok (Some 0%float) |}.

Definition rpc_failure : Thrown := ErrorObj "Transaction was not confirmed".

(** [claimFees] returns normally, having made the calls [cs] and emitted
    [ev]: no instruction was generated (nothing is sent), or the claim was
    sent and confirmed. *)
Definition claim_returns (e : Env) (cs : list Call) (ev : Emitted) : Prop :=
  (collectCoinCreatorFeeInstructions e = Ok 0%nat /\
   cs = [CallCollectFeeInstructions] /\
   ev = EvLog warning MsgNoClaimInstructions) \/
  (exists n signature,
     collectCoinCreatorFeeInstructions e = Ok (S n) /\
     sendClaim e = Ok signature /\
     cs = [CallCollectFeeInstructions; CallSendClaim] /\
     ev = EvLog success (MsgFeesClaimed signature)).

(** What [buybackOnBondingCurve] throws for the amount [x]: what the
    conversion to lamports throws, or else what the buy throws. *)
Definition curve_buy_thrown (e : Env) (x : float) : option Thrown :=
  match lamports_of x with
  | Err err => Some err
  | Ok _ =>
    match sendBondingCurveBuy e with
    | Err err => Some err
    | Ok _ => None
    end
  end.


(** The deposit of [solAmount] was sent and confirmed. *)
Definition deposit_confirmed (e : Env) (solAmount : float) : Prop :=
  liquiditySolanaState e = Ok tt /\
  (exists lamports, lamports_of solAmount = Ok lamports) /\
  (exists lpToken, depositAutocompleteBaseAndLpTokenFromQuote e = Ok lpToken) /\
  (exists signature, sendDeposit e = Ok signature).

(** The bot once [claimFees] has returned and the split is announced: lines
    146-157 of [runCycle], the claim having made the calls [cs] and emitted
    [ev]. *)
Definition harvested (f threshold pct : float) (cs : list Call) (ev : Emitted)
    (b : LiquidBot.t) : LiquidBot.t :=
  emit (EvLog info (MsgHoldAmount (holdAmount_of f pct) (100 - pct)%float))
    (emit (EvLog info (MsgBuybackAmount (buybackAmount_of f pct) pct))
       (with_status
          (fun s => status_set_totalFeesCollected (BotStatus.totalFeesCollected s + f)%float s)
          (emit ev
             (fold_left (fun b c => push_call c b) cs
                (emit (EvLog success (MsgFeesAboveThreshold threshold)) b))))).

(** ** Binary64 numbers by their specification *)

(** At least zero: a zero, a positive finite number or +infinity. *)
Definition SF_nonneg (x : spec_float) : bool :=
  match x with
  | S754_zero _ => true
  | S754_finite s _ _ => negb s
  | S754_infinity s => negb s
  | S754_nan => false
  end.

(** A zero or a finite number. *)
Definition SF_finite (x : spec_float) : bool :=
  match x with
  | S754_zero _ | S754_finite _ _ _ => true
  | _ => false
  end.

(** The cycles of the scenarios.  [fees_on_curve n]: the curve is still open
    and [n] lamports of fees are claimed and bought back without a fault. *)
Definition fees_on_curve (lamports : Z) : Env :=
  answers (Ok false) false lamports 1 (Ok "claim") (Ok "buy") (Ok "swap") (Ok "deposit").

(** The curve has completed and the pool account exists; 0.02 SOL of fees
    are claimed; the buy on the pool and the deposit go as given. *)
Definition fees_on_pool (poolBuy deposit : outcome Signature) : Env :=
  answers (Ok true) true 20000000 1 (Ok "claim") (Ok "buy") poolBuy deposit.

(** The curve has completed but the pool account does not exist. *)
Definition graduated_without_pool : Env :=
  answers (Ok true) false 20000000 1 (Ok "claim") (Ok "buy") (Ok "swap") (Ok "deposit").

(** The curve probe fails and the pool account does not exist. *)
Definition probe_fails : Env :=
  answers (Err rpc_failure) false 20000000 1 (Ok "claim") (Ok "buy") (Ok "swap")
    (Ok "deposit").

(** The SDK generates no claim instruction. *)
Definition no_claim_instructions : Env :=
  answers (Ok false) false 20000000 0 (Ok "claim") (Ok "buy") (Ok "swap") (Ok "deposit").

(** The curve probe answers "not complete" although the pool account exists. *)
Definition stale_curve_probe : Env :=
  answers (Ok false) true 0 1 (Ok "claim") (Ok "buy") (Ok "swap") (Ok "deposit").

(** The end of a rounding: the mantissa [m1] at exponent [e1] is brought
    back to at most [prec] digits and checked against the overflow. *)
Definition finalize (s : bool) (m1 e1 : Z) : spec_float :=
  let e2 := Z.max e1 (fexp prec emax (Zdigits2 m1 + e1)) in
  match m1 / 2 ^ (e2 - e1) with
  | Z0 => S754_zero s
  | Zpos m2 => if e2 <=? emax - prec then S754_finite s m2 e2 else S754_infinity s
  | Zneg _ => S754_nan
  end.

From Stdlib Require Import Sorted.

(** ** The calls and the end of a cycle *)

(** The calls of [detectPumpSwapPool]: the account lookup, unless deriving the
    pool address throws. *)
Definition detect_calls (e : Env) : list Call :=
  match canonicalPumpPoolPda e with
  | Ok poolAddress => [CallGetAccountInfo poolAddress]
  | Err _ => []
  end.

(** The calls of [checkTokenPhase]. *)
Definition phase_calls (e : Env) : list Call :=
  CallFetchBondingCurve ::
  match fetchBondingCurve e with
  | Ok false => []
  | _ => detect_calls e
  end.

(** The calls of [claimFees]. *)
Definition claim_calls (e : Env) : list Call :=
  CallCollectFeeInstructions ::
  match collectCoinCreatorFeeInstructions e with
  | Ok (S _) => [CallSendClaim]
  | _ => []
  end.

(** The calls of [buybackOnPumpSwap] when a pool is cached: none when the
    amount does not convert to lamports; the swap is sent once the swap
    state is fetched. *)
Definition pool_buy_calls (e : Env) (solAmount : float) : list Call :=
  match lamports_of solAmount with
  | Err _ => []
  | Ok _ =>
    CallSwapState ::
    match swapSolanaState e with
    | Ok _ => [CallBuyOnPumpSwap solAmount]
    | Err _ => []
    end
  end.

(** The calls of [addLiquidityToPumpSwap] when a pool is cached: the
    deposit is sent once the liquidity state is fetched, the amount
    converted and the LP token amount computed. *)
Definition deposit_calls (e : Env) (solAmount : float) : list Call :=
  CallLiquidityState ::
  match liquiditySolanaState e, lamports_of solAmount,
        depositAutocompleteBaseAndLpTokenFromQuote e with
  | Ok _, Ok _, Ok _ => [CallDeposit solAmount]
  | _, _, _ => []
  end.


(** The fee balance reaches the threshold: the test of line 145 holds. *)
Definition harvest_due (e : Env) (b : LiquidBot.t) (f : float) : Prop :=
  feeBalanceSOL_of e = Some f /\
  js_ge f (BotConfig.minFeeThreshold (LiquidBot.config b)) = true.

(** The four ways a cycle comes to its [catch] block, with the thrown value:
    the fee balance does not fit a number, the claim fails, and on the
    bonding curve the buyback amount does not convert to lamports or the buy
    fails. *)
Inductive cycle_aborts (e : Env) (b : LiquidBot.t) : Thrown -> Prop :=
| abort_conversion err :
    BN_toNumber (fee_lamports e) = Err err -> cycle_aborts e b err
| abort_claim f err :
    harvest_due e b f -> claim_fails e err -> cycle_aborts e b err
| abort_curve_amount f cs ev err :
    harvest_due e b f -> claim_returns e cs ev ->
    phase_result e b = bonding_curve ->
    lamports_of (buybackAmount_of f (BotConfig.buybackPercentage (LiquidBot.config b)))
      = Err err ->
    cycle_aborts e b err
| abort_curve_buy f cs ev lamports err :
    harvest_due e b f -> claim_returns e cs ev ->
    phase_result e b = bonding_curve ->
    lamports_of (buybackAmount_of f (BotConfig.buybackPercentage (LiquidBot.config b)))
      = Ok lamports ->
    sendBondingCurveBuy e = Err err ->
    cycle_aborts e b err.

(** The two events that end a cycle: the status snapshot of line 175 and the
    entry of the [catch] block. *)
Definition closing_event (ev : Emitted) : bool :=
  match ev with
  | EvStatusUpdate _ | EvLog _ (MsgCycleError _) => true
  | _ => false
  end.

Definition not_closing (ev : Emitted) : bool := negb (closing_event ev).

(** Lines 132-141 of [runCycle]: up to the read of the fee balance. *)
Definition probe (e : Env) : M Z :=
  log info MsgRunningCycle ;;
  modify (with_status (status_set_lastCheck (Some (now e)))) ;;
  phase <- checkTokenPhase e ;;
  modify (with_status (status_set_currentPhase phase)) ;;
  log info (MsgTokenPhase phase) ;;
  getCreatorFeeBalance e.

(** The bot at the threshold test of line 145, the fee balance being [f]. *)
Definition probed (e : Env) (f : float) (b : LiquidBot.t) : LiquidBot.t :=
  emit (EvLog info (MsgCreatorFeeBalance f)) (snd (probe e b)).

(** What the trading block of a harvest calls (lines 159-167) in phase
    [phase], with the pool cache [pool] and the held reserve [held]: [x] is
    the buyback amount and [h] the hold amount. *)
Definition trade_calls (e : Env) (phase : Phase) (pool : option PublicKey)
    (held x h : float) : list Call :=
  match phase with
  | bonding_curve =>
    match lamports_of x with
    | Ok _ => [CallBuyOnBondingCurve x]
    | Err _ => []
    end
  | pumpswap =>
    match pool with
    | None => []
    | Some _ => pool_buy_calls e x ++ deposit_calls e (held + h)%float
    end
  | unknown => []
  end.

(** What the trading block throws for the buyback amount [x]: only the buy
    on the curve rethrows. *)
Definition trade_thrown (e : Env) (phase : Phase) (x : float) : option Thrown :=
  match phase with
  | bonding_curve => curve_buy_thrown e x
  | _ => None
  end.

(** What [claimFees] throws. *)
Definition claim_thrown (e : Env) : option Thrown :=
  match collectCoinCreatorFeeInstructions e with
  | Err err => Some err
  | Ok O => None
  | Ok (S _) => match sendClaim e with Err err => Some err | Ok _ => None end
  end.

(** What the block [settle] throws and what it calls. *)
Definition settle_thrown (e : Env) (phase : Phase) (f threshold pct : float)
    : option Thrown :=
  if js_ge f threshold then
    match claim_thrown e with
    | Some err => Some err
    | None => trade_thrown e phase (buybackAmount_of f pct)
    end
  else None.

Definition settle_calls (e : Env) (phase : Phase) (pool : option PublicKey)
    (held f threshold pct : float) : list Call :=
  if js_ge f threshold then
    claim_calls e ++
    match claim_thrown e with
    | Some _ => []
    | None => trade_calls e phase pool held (buybackAmount_of f pct) (holdAmount_of f pct)
    end
  else [].

(** What brings a cycle to its [catch] block, if anything does. *)
Definition cycle_thrown (e : Env) (b : LiquidBot.t) : option Thrown :=
  match BN_toNumber (fee_lamports e) with
  | Err err => Some err
  | Ok n =>
    settle_thrown e (phase_result e b) (n / 1e9)%float
      (BotConfig.minFeeThreshold (LiquidBot.config b))
      (BotConfig.buybackPercentage (LiquidBot.config b))
  end.

(** The external calls of one cycle, in order. *)
Definition cycle_calls (e : Env) (b : LiquidBot.t) : list Call :=
  phase_calls e ++ [CallGetCreatorVaultBalance] ++
  match BN_toNumber (fee_lamports e) with
  | Err _ => []
  | Ok n =>
    settle_calls e (phase_result e b) (pool_after_phase e b) (totalSolHeld b)
      (n / 1e9)%float
      (BotConfig.minFeeThreshold (LiquidBot.config b))
      (BotConfig.buybackPercentage (LiquidBot.config b)) ++
    match settle_thrown e (phase_result e b) (n / 1e9)%float
            (BotConfig.minFeeThreshold (LiquidBot.config b))
            (BotConfig.buybackPercentage (LiquidBot.config b)) with
    | Some _ => []
    | None => [CallGetTokenAccountBalance]
    end
  end.

(** The bot when a cycle comes to its balance refresh or to its [catch]
    block: after the threshold test and what it guards, or after the read of
    a fee balance that does not fit a number. *)
Definition reconciled (e : Env) (b : LiquidBot.t) : LiquidBot.t :=
  match BN_toNumber (fee_lamports e) with
  | Err _ => snd (probe e b)
  | Ok n =>
    snd (settle e (phase_result e b) (n / 1e9)%float
           (BotConfig.minFeeThreshold (LiquidBot.config b))
           (BotConfig.buybackPercentage (LiquidBot.config b))
           (probed e (n / 1e9)%float b))
  end.

(** What [updateTokenBalance] stores: [uiAmount || 0], and 0 when the read
    fails. *)
Definition tokens_read (e : Env) : float :=
  match getTokenAccountBalance e with
  | Ok uiAmount => js_or_zero uiAmount
  | Err _ => 0%float
  end.

Definition tokensHeld (b : LiquidBot.t) : float :=
  BotStatus.tokensHeld (LiquidBot.status b).

Definition lastCheck (b : LiquidBot.t) : option Date :=
  BotStatus.lastCheck (LiquidBot.status b).

(** What the blocks before the balance refresh leave alone: the control
    fields and the token balance; and they emit no closing event. *)
Definition unpublished (b b' : LiquidBot.t) : Prop :=
  same_control b b' /\
  tokensHeld b' = tokensHeld b /\
  grows any_call not_closing b b'.

(** The bot a cycle leaves when it comes to its end from [b5]: the status
    published after the balance refresh, or the entry of the [catch] block. *)
Definition closed (e : Env) (thrown : option Thrown) (b5 : LiquidBot.t) : LiquidBot.t :=
  match thrown with
  | Some err => emit (EvLog error (MsgCycleError (error_message err))) b5
  | None =>
    emit (EvStatusUpdate (status_set_tokensHeld (tokens_read e) (LiquidBot.status b5)))
      (with_status (status_set_tokensHeld (tokens_read e))
         (push_call CallGetTokenAccountBalance b5))
  end.

(** The place of a call in a cycle. *)
Definition stage (c : Call) : nat :=
  match c with
  | CallFetchBondingCurve => 0
  | CallGetAccountInfo _ => 1
  | CallGetCreatorVaultBalance => 2
  | CallCollectFeeInstructions => 3
  | CallSendClaim => 4
  | CallBuyOnBondingCurve _ => 5
  | CallSwapState => 6
  | CallBuyOnPumpSwap _ => 7
  | CallLiquidityState => 8
  | CallDeposit _ => 9
  | CallGetTokenAccountBalance => 10
  end%nat.

(** The answers of [e] with [answer] as the answer of the token balance
    read. *)
Definition with_token_balance (answer : outcome (option float)) (e : Env) : Env :=
  {| now := now e;
     fetchBondingCurve := fetchBondingCurve e;
     canonicalPumpPoolPda := canonicalPumpPoolPda e;
     getAccountInfo := getAccountInfo e;
     getCreatorVaultBalanceBothPrograms := getCreatorVaultBalanceBothPrograms e;
     collectCoinCreatorFeeInstructions := collectCoinCreatorFeeInstructions e;
     sendClaim := sendClaim e;
     sendBondingCurveBuy := sendBondingCurveBuy e;
     swapSolanaState := swapSolanaState e;
     sendPumpSwapBuy := sendPumpSwapBuy e;
     liquiditySolanaState := liquiditySolanaState e;
     depositAutocompleteBaseAndLpTokenFromQuote :=
       depositAutocompleteBaseAndLpTokenFromQuote e;
     sendDeposit := sendDeposit e;
     getTokenAccountBalance := answer |}.

(** [Number.isNaN(x)] *)
Definition js_isNaN (x : float) : bool := negb (PrimFloat.eqb x x).

(** The status shows the pool the bot has cached. *)
Definition pool_mirrored (b : LiquidBot.t) : Prop :=
  BotStatus.pumpSwapPool (LiquidBot.status b) = LiquidBot.pumpSwapPool b.

(** ** The life of a bot *)

(** What happens to a bot once it is constructed: [start] or [stop] is
    called, or the timer fires.  Each runs to its end before the next. *)
Inductive Activity : Type :=
| Start (e : Env)
| Stop
| Firing (e : Env).

Definition perform (a : Activity) : M unit :=
  match a with
  | Start e => start e
  | Stop => stop
  | Firing e => tick e
  end.

Definition lifetime (acts : list Activity) (b : LiquidBot.t) : LiquidBot.t :=
  fold_left (fun b a => after (perform a) b) acts b.

(** The running flag, its copy in the status and the timer agree: the timer
    is the one [setInterval] makes of the configured interval. *)
Definition settled (b : LiquidBot.t) : Prop :=
  BotStatus.isRunning (LiquidBot.status b) = LiquidBot.isRunning b /\
  LiquidBot.intervalId b =
    if LiquidBot.isRunning b
    then Some (setInterval (BotConfig.checkInterval (LiquidBot.config b)))
    else None.

(** ** A handler that runs while a cycle waits

    A call of the bot that arrives while a cycle waits for an answer runs
    at that point of the cycle.  [runCycle_meanwhile hook e] is [runCycle e]
    during whose first wait, the one for the curve probe, [hook] runs to its
    end: a handler that does not throw and makes no external call, as
    [stop] is.  Nothing of the bot is read or written between the line
    before the probe and the probe's answer, so [hook] is placed there. *)
Definition runCycle_meanwhile (hook : M unit) (e : Env) : M unit :=
  try_catch
    (log info MsgRunningCycle ;;
     modify (with_status (status_set_lastCheck (Some (now e)))) ;;
     hook ;;
     phase <- checkTokenPhase e ;;
     modify (with_status (status_set_currentPhase phase)) ;;
     log info (MsgTokenPhase phase) ;;
     feeBalance <- getCreatorFeeBalance e ;;
     feeBalanceNumber <- lift (BN_toNumber feeBalance) ;;
     let feeBalanceSOL := (feeBalanceNumber / 1e9)%float in
     log info (MsgCreatorFeeBalance feeBalanceSOL) ;;
     b <- get ;;
     let minFeeThreshold := BotConfig.minFeeThreshold (LiquidBot.config b) in
     let buybackPercentage := BotConfig.buybackPercentage (LiquidBot.config b) in
     (if js_ge feeBalanceSOL minFeeThreshold then
        log success (MsgFeesAboveThreshold minFeeThreshold) ;;
        claimFees e ;;
        add_totalFeesCollected feeBalanceSOL ;;
        let buybackAmount := buybackAmount_of feeBalanceSOL buybackPercentage in
        let holdAmount := holdAmount_of feeBalanceSOL buybackPercentage in
        log info (MsgBuybackAmount buybackAmount buybackPercentage) ;;
        log info (MsgHoldAmount holdAmount (100 - buybackPercentage)%float) ;;
        match phase with
        | bonding_curve =>
          buybackOnBondingCurve e buybackAmount ;;
          add_totalBuybacks buybackAmount ;;
          add_totalSolHeld holdAmount
        | pumpswap => handlePumpSwapPhase e buybackAmount holdAmount
        | unknown => ret tt
        end
      else
        log info (MsgFeesBelowThreshold feeBalanceSOL minFeeThreshold)) ;;
     updateTokenBalance e ;;
     b' <- get ;;
     modify (emit (EvStatusUpdate (LiquidBot.status b'))))
    (fun err => log error (MsgCycleError (error_message err))).

(** A cycle from its first call on: what is left of [runCycle] once the
    first two lines of its [try] block have run. *)
Definition runCycle_resumed (e : Env) : M unit :=
  try_catch
    (phase <- checkTokenPhase e ;;
     modify (with_status (status_set_currentPhase phase)) ;;
     log info (MsgTokenPhase phase) ;;
     feeBalance <- getCreatorFeeBalance e ;;
     feeBalanceNumber <- lift (BN_toNumber feeBalance) ;;
     log info (MsgCreatorFeeBalance (feeBalanceNumber / 1e9)) ;;
     b <- get ;;
     settle e phase (feeBalanceNumber / 1e9)
       (BotConfig.minFeeThreshold (LiquidBot.config b))
       (BotConfig.buybackPercentage (LiquidBot.config b)) ;;
     publish e)
    cycle_handler.

(** [start] during whose initial cycle [hook] runs. *)
Definition start_meanwhile (hook : M unit) (e : Env) : M unit :=
  b <- get ;;
  if LiquidBot.isRunning b then
    log warning MsgAlreadyRunning
  else
    (modify (set_isRunning true) ;;
     modify (with_status (status_set_isRunning true)) ;;
     log success MsgStarted ;;
     runCycle_meanwhile hook e ;;
     modify (set_intervalId
               (Some (setInterval (BotConfig.checkInterval (LiquidBot.config b)))))).

(** * The server

    The HTTP routes and the socket of [server.ts], around one bot.  Express
    and socket.io are external: a route is a function from the state of the
    server to its response and the state after; what [io.emit] sends to the
    clients is recorded in [Server.io], what the console prints in
    [Server.console]. *)

Module Server.

(** A [LogEntry] as the listeners receive it: its level and its message. *)
Record LogEntry : Type := { level : Level; message : Message }.

(** The [LiquidBot] object the server holds: its state and the address of
    its wallet, which [getWalletAddress()] returns. *)
Record Bot : Type := { this : LiquidBot.t; walletAddress : PublicKey }.

(** [io.emit('log', entry)] and [io.emit('status', status)] *)
Inductive Broadcast : Type :=
| IoLog (entry : LogEntry)
| IoStatus (status : BotStatus.t).

(** The lines [initBotFromEnv] prints, one constructor per call site. *)
Inductive Console : Type :=
| ConRequired (variable : string)
| ConFailed (error : Thrown)
| ConInitialized (tokenMint : string)
| ConWallet (address : PublicKey)
| ConMinFee (threshold : float)
| ConBuyback (percentage : float)
| ConInterval (interval : float).

(** The module-level variables of the server. *)
Record t : Type := mk {
  bot : option Bot;
  botConfig : option BotConfig.t;
  logBuffer : list LogEntry;
  io : list Broadcast;
  console : list Console
}.

Definition MAX_LOGS : nat := 500.

(** The server when the process starts. *)
Definition initial : t := mk None None [] [] [].

Definition set_bot (v : option Bot) (s : t) : t :=
  mk v (botConfig s) (logBuffer s) (io s) (console s).

Definition set_botConfig (v : option BotConfig.t) (s : t) : t :=
  mk (bot s) v (logBuffer s) (io s) (console s).

Definition print (line : Console) (s : t) : t :=
  mk (bot s) (botConfig s) (logBuffer s) (io s) (console s ++ [line]).

(** The listener of ['log'] (lines 133-139): [push], one [shift] when the
    buffer has grown beyond [MAX_LOGS], and the broadcast. *)
Definition on_log (entry : LogEntry) (s : t) : t :=
  let pushed := logBuffer s ++ [entry] in
  mk (bot s) (botConfig s)
    (if (MAX_LOGS <? List.length pushed)%nat then tl pushed else pushed)
    (io s ++ [IoLog entry]) (console s).

(** The listener of ['statusUpdate'] (lines 141-143). *)
Definition on_statusUpdate (status : BotStatus.t) (s : t) : t :=
  mk (bot s) (botConfig s) (logBuffer s) (io s ++ [IoStatus status]) (console s).

Definition hear (ev : Emitted) (s : t) : t :=
  match ev with
  | EvLog level message => on_log {| level := level; message := message |} s
  | EvStatusUpdate status => on_statusUpdate status s
  end.

(** A method of the bot called on the server's bot [o]: the two listeners
    hear, in order, what the method emits. *)
Definition call {A} (m : M A) (o : Bot) (s : t) : Result A * t :=
  let (r, b') := m (this o) in
  (r,
   fold_left (fun s ev => hear ev s)
     (skipn (List.length (LiquidBot.emitted (this o))) (LiquidBot.emitted b'))
     (set_bot (Some {| this := b'; walletAddress := walletAddress o |}) s)).

(** [process.env], as far as the server reads it. *)
Record ProcessEnv : Type := {
  HELIUS_RPC_URL : option string;
  PRIVATE_KEY : option string;
  TOKEN_MINT : option string;
  MIN_FEE_THRESHOLD : option string;
  BUYBACK_PERCENTAGE : option string;
  CHECK_INTERVAL : option string
}.

(** [v || fallback] on [string | undefined]: the empty string is falsy. *)
Definition or_else (v : option string) (fallback : string) : string :=
  match v with
  | Some (String c s) => String c s
  | _ => fallback
  end.


Section InitBotFromEnv.

(** The library functions the initialisation calls: [parseFloat] and
    [parseInt]; [new Connection(endpoint, 'confirmed')], the address of the
    key pair decoded from the private key and the parse of the mint address
    (the three throw on a string they do not accept). *)
Variables parseFloat parseInt : string -> float.
Variable newConnection : string -> outcome unit.
Variable keypairFromSecretKey : string -> outcome PublicKey.
Variable newPublicKey : string -> outcome PublicKey.

(** [new LiquidBot(config)] *)
Definition newLiquidBot (config : BotConfig.t) : outcome Bot :=
  let wallet := keypairFromSecretKey (BotConfig.privateKey config) in
  match constructor (newConnection (BotConfig.heliusRpcUrl config)) wallet
          (newPublicKey (BotConfig.tokenMint config)) config, wallet with
  | Ok b, Ok address => Ok {| this := b; walletAddress := address |}
  | Err err, _ | _, Err err => Err err
  end.

(** [function initBotFromEnv()] (lines 106-156) *)
Definition initBotFromEnv (env : ProcessEnv) (s : t) : bool * t :=
  match HELIUS_RPC_URL env with
  | Some (String c1 url) =>
    match PRIVATE_KEY env with
    | Some (String c2 key) =>
      match TOKEN_MINT env with
      | Some (String c3 mint) =>
        let config :=
          BotConfig.mk (String c1 url) (String c2 key) (String c3 mint)
            (parseFloat (or_else (MIN_FEE_THRESHOLD env) "0.015"))
            (parseInt (or_else (BUYBACK_PERCENTAGE env) "50"))
            (parseInt (or_else (CHECK_INTERVAL env) "60000")) in
        let s := set_botConfig (Some config) s in
        match newLiquidBot config with
        | Ok o =>
          (true,
           print (ConInterval (BotConfig.checkInterval config))
             (print (ConBuyback (BotConfig.buybackPercentage config))
                (print (ConMinFee (BotConfig.minFeeThreshold config))
                   (print (ConWallet (walletAddress o))
                      (print (ConInitialized (BotConfig.tokenMint config))
                         (set_bot (Some o) s))))))
        | Err err => (false, print (ConFailed err) s)
        end
      | _ => (false, print (ConRequired "TOKEN_MINT") s)
      end
    | _ => (false, print (ConRequired "PRIVATE_KEY") s)
    end
  | _ => (false, print (ConRequired "HELIUS_RPC_URL") s)
  end.

End InitBotFromEnv.

(** The JSON a route answers with. *)
Inductive Response : Type :=
| ResStatus (status : BotStatus.t) (config : option (float * float * float))
| ResLogs (logs : list LogEntry)
| ResSuccess (message : string)
| ResFailure (error : string).

(** The [config] object of the status route and of the socket. *)
Definition shown_config (config : BotConfig.t) : float * float * float :=
  (BotConfig.minFeeThreshold config, BotConfig.buybackPercentage config,
   BotConfig.checkInterval config).

(** [app.get('/api/status')] *)
Definition api_status (s : t) : Response :=
  match bot s with
  | Some o =>
    ResStatus (LiquidBot.status (this o)) (option_map shown_config (botConfig s))
  | None => ResFailure "Bot not initialized - check .env file"
  end.

(** [app.get('/api/logs')] *)
Definition api_logs (s : t) : Response := ResLogs (logBuffer s).

(** The [try] / [catch] of the two POST routes. *)
Definition answer (message : string) (r : Result unit) : Response :=
  match r with
  | Ret _ => ResSuccess message
  | Throw err => ResFailure (error_message err)
  end.

(** [app.post('/api/start')]; [e] is what the world answers during the
    initial cycle. *)
Definition api_start (e : Env) (s : t) : Response * t :=
  match bot s with
  | None => (ResFailure "Bot not initialized - check .env file", s)
  | Some o => let (r, s') := call (start e) o s in (answer "Bot started" r, s')
  end.

(** [app.post('/api/stop')] *)
Definition api_stop (s : t) : Response * t :=
  match bot s with
  | None => (ResFailure "Bot not initialized", s)
  | Some o => let (r, s') := call stop o s in (answer "Bot stopped" r, s')
  end.

(** A firing of the bot's timer while the server runs. *)
Definition firing (e : Env) (s : t) : t :=
  match bot s with
  | None => s
  | Some o => snd (call (tick e) o s)
  end.

(** What a socket receives when it connects (lines 78-98). *)
Inductive SocketEvent : Type :=
| SockLogs (logs : list LogEntry)
| SockStatus (status : BotStatus.t)
| SockConfig (config : float * float * float)
| SockBotReady (tokenMint : string) (wallet : PublicKey)
| SockBotError (error : string).

Definition on_connection (s : t) : list SocketEvent :=
  SockLogs (logBuffer s) ::
  match bot s, botConfig s with
  | Some o, Some config =>
    [SockStatus (LiquidBot.status (this o));
     SockConfig (shown_config config);
     SockBotReady (BotConfig.tokenMint config) (walletAddress o)]
  | _, _ => [SockBotError "Bot not configured - check .env file"]
  end.

(** What reaches the server once it is initialised. *)
Inductive Request : Type :=
| GetStatus
| GetLogs
| PostStart (e : Env)
| PostStop
| TimerFires (e : Env)
| Connects.

Definition serve (r : Request) (s : t) : t :=
  match r with
  | GetStatus | GetLogs | Connects => s
  | PostStart e => snd (api_start e s)
  | PostStop => snd (api_stop s)
  | TimerFires e => firing e s
  end.

Definition serving (rs : list Request) (s : t) : t :=
  fold_left (fun s r => serve r s) rs s.

(** The log entries among what was broadcast. *)
Definition logs_of (sent : list Broadcast) : list LogEntry :=
  flat_map (fun m => match m with IoLog entry => [entry] | IoStatus _ => [] end) sent.

(** What the listeners make of an event. *)
Definition broadcast_of (ev : Emitted) : Broadcast :=
  match ev with
  | EvLog level message => IoLog {| level := level; message := message |}
  | EvStatusUpdate status => IoStatus status
  end.

End Server.

(** An environment with the three required variables, and libraries that
    accept them. *)
Definition example_env : Server.ProcessEnv :=
  {| Server.HELIUS_RPC_URL := Some "https://rpc.example";
     Server.PRIVATE_KEY := Some "key";
     Server.TOKEN_MINT := Some "mint";
     Server.MIN_FEE_THRESHOLD := None;
     Server.BUYBACK_PERCENTAGE := Some "";
     Server.CHECK_INTERVAL := Some "30000" |}.

Definition example_parseFloat (s : string) : float :=
  if String.eqb s "0.015" then 0.015%float else PrimFloat.nan.

Definition example_parseInt (s : string) : float :=
  if String.eqb s "50" then 50%float
  else if String.eqb s "30000" then 30000%float
  else PrimFloat.nan.

(** What [new Connection] asks of an endpoint first: to start with [http:]
    or [https:]. *)
Definition example_newConnection (endpoint : string) : outcome unit :=
  if (String.prefix "http:" endpoint || String.prefix "https:" endpoint)%bool
  then Ok tt
  else Err (ErrorObj "Endpoint URL must start with `http:` or `https:`.").

Definition example_server : Server.t :=
  snd (Server.initBotFromEnv example_parseFloat example_parseInt example_newConnection
         (fun _ => Ok "wallet") (fun mint => Ok mint) example_env Server.initial).

Definition example_config : BotConfig.t :=
  BotConfig.mk "https://rpc.example" "key" "mint" 0.015 50 30000.

(** The last [n] elements of a list. *)
Definition lastn {A} (n : nat) (l : list A) : list A := skipn (List.length l - n) l.

(** The log buffer holds the last [MAX_LOGS] of the log entries broadcast. *)
Definition buffered (s : Server.t) : Prop :=
  Server.logBuffer s = lastn Server.MAX_LOGS (Server.logs_of (Server.io s)).

(** The server holds a bot of wallet [wallet], constructed from [config]:
    the configuration the server shows is the bot's, the bot is settled,
    and what was broadcast is what the bot has emitted since the four
    entries of its constructor. *)
Definition ready (config : BotConfig.t) (wallet : PublicKey) (s : Server.t) : Prop :=
  exists b,
    Server.bot s = Some {| Server.this := b; Server.walletAddress := wallet |} /\
    Server.botConfig s = Some config /\
    LiquidBot.config b = config /\
    settled b /\
    pool_mirrored b /\
    (4 <= List.length (LiquidBot.emitted b))%nat /\
    Server.io s = map Server.broadcast_of (skipn 4 (LiquidBot.emitted b)) /\
    buffered s.

(** * The dashboard

    The two functions of the page's script that compute on their own:
    [truncateAddress], and [addLog] as far as the children of the terminal
    element go.  A string is the list of its code units; the children of an
    element are a list of nodes. *)

Module Dashboard.

Definition text : Type := list Ascii.ascii.

(** An index of [slice] brought into the string: a negative index counts
    from the end. *)
Definition clamp (len : nat) (i : Z) : nat :=
  if i <? 0 then Z.to_nat (Z.max (Z.of_nat len + i) 0)
  else Nat.min (Z.to_nat i) len.

(** [s.slice(start, stop)]; [None] is an omitted [stop]. *)
Definition slice (start : Z) (stop : option Z) (s : text) : text :=
  let len := List.length s in
  let from := clamp len start in
  let to := match stop with Some i => clamp len i | None => len end in
  firstn (to - from) (skipn from s).

Definition ellipsis : text := list_ascii_of_string "...".

(** [function truncateAddress(address)]; [None] is null or undefined, which
    the function returns as it is. *)
Definition truncateAddress (address : option text) : option text :=
  match address with
  | None => None
  | Some s =>
    if (match s with [] => true | _ => false end || (List.length s <? 10)%nat)%bool
    then Some s
    else Some (slice 0 (Some 6) s ++ ellipsis ++ slice (-4) None s)
  end.

Section Terminal.

(** What a log line shows. *)
Variable Entry : Type.

(** The children of the terminal element: the welcome banner of the page
    and the log lines. *)
Inductive Node : Type :=
| Welcome
| Line (entry : Entry).

Definition is_welcome (n : Node) : bool :=
  match n with
  | Welcome => true
  | Line _ => false
  end.

(** [terminal.removeChild(terminal.children[1])] *)
Definition remove_second (children : list Node) : list Node :=
  match children with
  | first :: _ :: rest => first :: rest
  | _ => children
  end.

(** [while (terminal.children.length > 501) terminal.removeChild(terminal.children[1])].
    Each turn removes one child, so that as many turns as there are
    children always suffice. *)
Fixpoint evict (turns : nat) (children : list Node) : list Node :=
  match turns with
  | O => children
  | S turns =>
    if (501 <? List.length children)%nat then evict turns (remove_second children)
    else children
  end.

(** [function addLog(entry, scroll)], on the children of the terminal. *)
Definition addLog (entry : Entry) (children : list Node) : list Node :=
  let appended := children ++ [Line entry] in
  evict (List.length appended) appended.

(** The listener of the clear button (lines 405-412); [cleared] is the
    entry "Logs cleared". *)
Definition clearLogs (cleared : Entry) (children : list Node) : list Node :=
  addLog cleared
    match find is_welcome children with
    | Some welcomeMessage => [welcomeMessage]
    | None => []
    end.

End Terminal.

Arguments Welcome {Entry}.
Arguments Line {Entry} entry.
Arguments is_welcome {Entry} n.
Arguments remove_second {Entry} children.
Arguments evict {Entry} turns children.
Arguments addLog {Entry} entry children.
Arguments clearLogs {Entry} cleared children.

End Dashboard.

(** The first child and the last [n] of the others. *)
Definition pinned {A} (n : nat) (l : list A) : list A :=
  match l with
  | [] => []
  | first :: rest => first :: lastn n rest
  end.

(** ** Rules for [respects] and [returns] *)

Section Rules.
Variable R : LiquidBot.t -> LiquidBot.t -> Prop.
Hypothesis R_refl : forall b, R b b.
Hypothesis R_trans : forall b1 b2 b3, R b1 b2 -> R b2 b3 -> R b1 b3.

Lemma respects_ret {A} (a : A) : respects R (ret a).
Proof. intro b. apply R_refl. Qed.

Lemma respects_throw {A} (e : Thrown) : respects R (@throw A e).
Proof. intro b. apply R_refl. Qed.

Lemma respects_get : respects R get.
Proof. intro b. apply R_refl. Qed.

Lemma respects_lift {A} (o : outcome A) : respects R (lift o).
Proof. intro b. unfold lift. destruct o; apply R_refl. Qed.

Lemma respects_bind {A B} (m : M A) (k : A -> M B) :
  respects R m -> (forall a, respects R (k a)) -> respects R (bind m k).
Proof.
  intros Hm Hk b. unfold bind. specialize (Hm b).
  destruct (m b) as [[a|e] b1]; cbn in *; [|assumption].
  eapply R_trans; [eassumption|apply Hk].
Qed.

Lemma respects_try_catch {A} (m : M A) (h : Thrown -> M A) :
  respects R m -> (forall e, respects R (h e)) -> respects R (try_catch m h).
Proof.
  intros Hm Hh b. unfold try_catch. specialize (Hm b).
  destruct (m b) as [[a|e] b1]; cbn in *; [assumption|].
  eapply R_trans; [eassumption|apply Hh].
Qed.

Lemma respects_modify (f : LiquidBot.t -> LiquidBot.t) :
  (forall b, R b (f b)) -> respects R (modify f).
Proof. intros H b. apply H. Qed.

Lemma respects_await {A} (c : Call) (o : outcome A) :
  (forall b, R b (push_call c b)) -> respects R (await c o).
Proof. intros H b. unfold await. destruct o; apply H. Qed.

End Rules.

Lemma returns_ret {A} (a : A) : returns (ret a).
Proof. intro b. now exists a. Qed.

Lemma returns_get : returns get.
Proof. intro b. now exists b. Qed.

Lemma returns_modify (f : LiquidBot.t -> LiquidBot.t) : returns (modify f).
Proof. intro b. now exists tt. Qed.

Lemma returns_bind {A B} (m : M A) (k : A -> M B) :
  returns m -> (forall a, returns (k a)) -> returns (bind m k).
Proof.
  intros Hm Hk b. unfold bind. destruct (Hm b) as [a Ha].
  destruct (m b) as [[a'|e] b1]; cbn in *; [apply Hk|discriminate].
Qed.

Lemma returns_try_catch {A} (m : M A) (h : Thrown -> M A) :
  (forall e, returns (h e)) -> returns (try_catch m h).
Proof.
  intros Hh b. unfold try_catch.
  destruct (m b) as [[a|e] b1]; cbn; [now exists a|apply Hh].
Qed.

(** One syntax-directed step of a [respects] or [returns] derivation. *)
Ltac method_step :=
  lazymatch goal with
  | |- respects _ (bind _ _) => apply respects_bind; [assumption| |intro]
  | |- respects _ (try_catch _ _) => apply respects_try_catch; [assumption| |intro]
  | |- respects _ (ret _) => apply respects_ret; assumption
  | |- respects _ (throw _) => apply respects_throw; assumption
  | |- respects _ get => apply respects_get; assumption
  | |- respects _ (lift _) => apply respects_lift; assumption
  | |- respects _ (modify _) => apply respects_modify
  | |- respects _ (log _ _) => unfold log; apply respects_modify
  | |- respects _ (await _ _) => apply respects_await
  | |- respects _ (if ?c then _ else _) => destruct c
  | |- respects _ (match ?x with _ => _ end) => destruct x
  | |- respects _ (let _ := _ in _) => cbv zeta
  | |- returns (bind _ _) => apply returns_bind; [|intro]
  | |- returns (try_catch _ _) => apply returns_try_catch; intro
  | |- returns (ret _) => apply returns_ret
  | |- returns get => apply returns_get
  | |- returns (modify _) => apply returns_modify
  | |- returns (log _ _) => unfold log; apply returns_modify
  | |- returns (if ?c then _ else _) => destruct c
  | |- returns (match ?x with _ => _ end) => destruct x
  | |- returns (let _ := _ in _) => cbv zeta
  end.

(** Every method of a cycle, unfolded down to the monad's primitives. *)
Ltac unfold_methods :=
  unfold runCycle, settle, publish, cycle_handler, checkTokenPhase, detectPumpSwapPool,
    getCreatorFeeBalance, claimFees, buybackOnBondingCurve, handlePumpSwapPhase,
    buybackOnPumpSwap, addLiquidityToPumpSwap, updateTokenBalance,
    add_totalFeesCollected, add_totalBuybacks, add_totalSolHeld.

(** ** The relations are preorders *)

Lemma same_control_refl b : same_control b b.
Proof. repeat split. Qed.

Lemma same_control_trans b1 b2 b3 :
  same_control b1 b2 -> same_control b2 b3 -> same_control b1 b3.
Proof. unfold same_control. intuition congruence. Qed.

Lemma same_ledger_trans b1 b2 b3 :
  same_ledger b1 b2 -> same_ledger b2 b3 -> same_ledger b1 b3.
Proof. unfold same_ledger. intuition congruence. Qed.

Lemma keeps_refl I b : keeps I b b.
Proof. now intro. Qed.

Lemma keeps_trans I b1 b2 b3 : keeps I b1 b2 -> keeps I b2 b3 -> keeps I b1 b3.
Proof. unfold keeps. auto. Qed.

Lemma grows_refl P Q b : grows P Q b b.
Proof. exists [], []. now rewrite !app_nil_r. Qed.

Lemma grows_trans P Q b1 b2 b3 : grows P Q b1 b2 -> grows P Q b2 b3 -> grows P Q b1 b3.
Proof.
  intros (cs & evs & Hc & He & HP & HQ) (cs' & evs' & Hc' & He' & HP' & HQ').
  exists (cs ++ cs'), (evs ++ evs').
  rewrite Hc', Hc, He', He, !app_assoc, !forallb_app, HP, HP', HQ, HQ'. auto.
Qed.

Lemma grows_push_call (P : Call -> bool) Q c b : P c = true -> grows P Q b (push_call c b).
Proof.
  intro Hc. exists [c], []. cbn. now rewrite Hc, app_nil_r.
Qed.

Lemma grows_emit P (Q : Emitted -> bool) ev b : Q ev = true -> grows P Q b (emit ev b).
Proof.
  intro He. exists [], [ev]. cbn. now rewrite He, app_nil_r.
Qed.

Lemma grows_status P Q f b : grows P Q b (with_status f b).
Proof. exists [], []. cbn. now rewrite !app_nil_r. Qed.

Lemma grows_pool P Q v b : grows P Q b (set_pumpSwapPool v b).
Proof. exists [], []. cbn. now rewrite !app_nil_r. Qed.

Lemma grows_weaken (P P' : Call -> bool) (Q Q' : Emitted -> bool) b b' :
  (forall c, P c = true -> P' c = true) ->
  (forall ev, Q ev = true -> Q' ev = true) ->
  grows P Q b b' -> grows P' Q' b b'.
Proof.
  intros HP HQ (cs & evs & Hc & He & Hcs & Hevs).
  exists cs, evs. repeat split; trivial.
  - rewrite forallb_forall in *. auto.
  - rewrite forallb_forall in *. auto.
Qed.

(** Closes the leaves of a [grows] derivation. *)
Ltac grows_leaf :=
  intros;
  first [ apply grows_push_call; reflexivity
        | apply grows_emit; reflexivity
        | apply grows_status
        | apply grows_pool ].

Lemma steady_refl b : steady b b.
Proof. repeat split. Qed.

Lemma steady_trans b1 b2 b3 : steady b1 b2 -> steady b2 b3 -> steady b1 b3.
Proof.
  unfold steady, same_control, same_ledger, same_pool, same_phase.
  intuition congruence.
Qed.

(** ** The methods one by one *)

Lemma runCycle_blocks e :
  runCycle e =
  try_catch
    (log info MsgRunningCycle ;;
     modify (with_status (status_set_lastCheck (Some (now e)))) ;;
     phase <- checkTokenPhase e ;;
     modify (with_status (status_set_currentPhase phase)) ;;
     log info (MsgTokenPhase phase) ;;
     feeBalance <- getCreatorFeeBalance e ;;
     feeBalanceNumber <- lift (BN_toNumber feeBalance) ;;
     log info (MsgCreatorFeeBalance (feeBalanceNumber / 1e9)) ;;
     b <- get ;;
     settle e phase (feeBalanceNumber / 1e9)
       (BotConfig.minFeeThreshold (LiquidBot.config b))
       (BotConfig.buybackPercentage (LiquidBot.config b)) ;;
     publish e)
    cycle_handler.
Proof. reflexivity. Qed.

Lemma runCycle_same_control e : respects same_control (runCycle e).
Proof.
  pose proof same_control_refl. pose proof same_control_trans.
  unfold_methods. repeat method_step; intros b0; repeat split.
Qed.

Lemma runCycle_keeps_pool e : respects (keeps pool_cached) (runCycle e).
Proof.
  pose proof (keeps_refl pool_cached). pose proof (keeps_trans pool_cached).
  unfold_methods. repeat method_step; intros b0 Hb; try exact Hb; discriminate.
Qed.

Lemma runCycle_returns e : returns (runCycle e).
Proof. unfold runCycle. repeat method_step. Qed.

Lemma checkTokenPhase_result e b :
  exists b1, checkTokenPhase e b = (Ret (phase_result e b), b1) /\
    LiquidBot.pumpSwapPool b1 = pool_after_phase e b.
Proof.
  unfold checkTokenPhase, detectPumpSwapPool, phase_result, pool_after_phase,
    pool_after_detect, try_catch, bind, await, lift, log, modify, get, ret.
  destruct b as [cfg running timer st [pool|] evs cs];
    destruct (fetchBondingCurve e) as [[|]|?]; cbn;
    try (destruct (canonicalPumpPoolPda e) as [p|?]; cbn);
    try (destruct (getAccountInfo e) as [[|]|?]; cbn);
    eexists; split; reflexivity.
Qed.

Lemma checkTokenPhase_ledger e :
  respects (fun b b' => same_control b b' /\ same_ledger b b') (checkTokenPhase e).
Proof.
  assert (Hr : forall b, same_control b b /\ same_ledger b b) by (repeat split).
  assert (Ht : forall b1 b2 b3 : LiquidBot.t,
             same_control b1 b2 /\ same_ledger b1 b2 ->
             same_control b2 b3 /\ same_ledger b2 b3 ->
             same_control b1 b3 /\ same_ledger b1 b3).
  { intros b1 b2 b3 [] []. split; [eapply same_control_trans|eapply same_ledger_trans];
      eassumption. }
  unfold_methods. repeat method_step; intros b0; repeat split.
Qed.

Lemma checkTokenPhase_grows e :
  respects (grows not_monetary (fun ev => not_split ev && negb (error_event ev)))
    (checkTokenPhase e).
Proof.
  pose proof (grows_refl not_monetary (fun ev => not_split ev && negb (error_event ev))).
  pose proof (grows_trans not_monetary (fun ev => not_split ev && negb (error_event ev))).
  unfold_methods. repeat method_step; grows_leaf.
Qed.

Lemma getCreatorFeeBalance_result e b :
  exists b1, getCreatorFeeBalance e b = (Ret (fee_lamports e), b1).
Proof.
  unfold getCreatorFeeBalance, fee_lamports, try_catch, bind, await, log, modify, ret.
  destruct (getCreatorVaultBalanceBothPrograms e); cbn; eexists; reflexivity.
Qed.

Lemma getCreatorFeeBalance_steady e : respects steady (getCreatorFeeBalance e).
Proof.
  pose proof steady_refl. pose proof steady_trans.
  unfold_methods. repeat method_step; intros b0; repeat split.
Qed.

Lemma getCreatorFeeBalance_grows e :
  respects (grows not_monetary not_split) (getCreatorFeeBalance e).
Proof.
  pose proof (grows_refl not_monetary not_split).
  pose proof (grows_trans not_monetary not_split).
  unfold_methods. repeat method_step; grows_leaf.
Qed.

Lemma publish_result e b :
  exists tokens,
    publish e b =
    (Ret tt,
     emit (EvStatusUpdate (status_set_tokensHeld tokens (LiquidBot.status b)))
       (with_status (status_set_tokensHeld tokens)
          (push_call CallGetTokenAccountBalance b))).
Proof.
  unfold publish, updateTokenBalance, try_catch, bind, await, modify, get.
  destruct (getTokenAccountBalance e); cbn; eexists; reflexivity.
Qed.

Lemma publish_run e b :
  publish e b =
  (Ret tt,
   emit (EvStatusUpdate (status_set_tokensHeld (tokens_read e) (LiquidBot.status b)))
     (with_status (status_set_tokensHeld (tokens_read e))
        (push_call CallGetTokenAccountBalance b))).
Proof.
  unfold publish, updateTokenBalance, tokens_read, try_catch, bind, await, modify, get.
  destruct (getTokenAccountBalance e); reflexivity.
Qed.

Lemma claimFees_confirmed e b n signature :
  collectCoinCreatorFeeInstructions e = Ok (S n) ->
  sendClaim e = Ok signature ->
  claimFees e b =
  (Ret tt,
   emit (EvLog success (MsgFeesClaimed signature))
     (push_call CallSendClaim (push_call CallCollectFeeInstructions b))).
Proof.
  intros Hc Hs. unfold claimFees, try_catch, bind, await, log, modify.
  now rewrite Hc, Hs.
Qed.

Lemma claimFees_no_instructions e b :
  collectCoinCreatorFeeInstructions e = Ok 0%nat ->
  claimFees e b =
  (Ret tt,
   emit (EvLog warning MsgNoClaimInstructions)
     (push_call CallCollectFeeInstructions b)).
Proof.
  intros Hc. unfold claimFees, try_catch, bind, await, log, modify.
  now rewrite Hc.
Qed.

Lemma claimFees_fails e b err :
  claim_fails e err ->
  exists cs,
    claimFees e b =
    (Throw err,
     emit (EvLog error (MsgFailedToClaim (error_message err)))
       (fold_left (fun b c => push_call c b) cs b)) /\
    forallb claim_call cs = true.
Proof.
  unfold claimFees, try_catch, bind, await, log, modify, throw.
  intros [Hc|(n & Hc & Hs)].
  - rewrite Hc. exists [CallCollectFeeInstructions]. split; reflexivity.
  - rewrite Hc, Hs. exists [CallCollectFeeInstructions; CallSendClaim]. split; reflexivity.
Qed.

Lemma buybackOnBondingCurve_confirmed e b solAmount lamports signature :
  lamports_of solAmount = Ok lamports ->
  sendBondingCurveBuy e = Ok signature ->
  buybackOnBondingCurve e solAmount b =
  (Ret tt,
   emit (EvLog success (MsgBuybackCompleted solAmount signature))
     (push_call (CallBuyOnBondingCurve solAmount) b)).
Proof.
  intros Hl Hs. unfold buybackOnBondingCurve, try_catch, bind, lift, await, log, modify.
  now rewrite Hl, Hs.
Qed.

Lemma buybackOnBondingCurve_fails e b solAmount lamports err :
  lamports_of solAmount = Ok lamports ->
  sendBondingCurveBuy e = Err err ->
  buybackOnBondingCurve e solAmount b =
  (Throw err,
   emit (EvLog error (MsgBuybackFailed (error_message err)))
     (push_call (CallBuyOnBondingCurve solAmount) b)).
Proof.
  intros Hl Hs.
  unfold buybackOnBondingCurve, try_catch, bind, lift, await, log, modify, throw.
  now rewrite Hl, Hs.
Qed.

Lemma buybackOnBondingCurve_no_lamports e b solAmount err :
  lamports_of solAmount = Err err ->
  buybackOnBondingCurve e solAmount b =
  (Throw err, emit (EvLog error (MsgBuybackFailed (error_message err))) b).
Proof.
  intros Hl.
  unfold buybackOnBondingCurve, try_catch, bind, lift, await, log, modify, throw.
  now rewrite Hl.
Qed.

Lemma buybackOnPumpSwap_returns e solAmount : returns (buybackOnPumpSwap e solAmount).
Proof. unfold buybackOnPumpSwap. repeat method_step. Qed.

Lemma buybackOnPumpSwap_steady e solAmount : respects steady (buybackOnPumpSwap e solAmount).
Proof.
  pose proof steady_refl. pose proof steady_trans.
  unfold_methods. repeat method_step; intros b0; repeat split.
Qed.

Lemma addLiquidityToPumpSwap_returns e solAmount :
  returns (addLiquidityToPumpSwap e solAmount).
Proof. unfold addLiquidityToPumpSwap. repeat method_step. Qed.

Lemma addLiquidityToPumpSwap_steady e solAmount :
  respects steady (addLiquidityToPumpSwap e solAmount).
Proof.
  pose proof steady_refl. pose proof steady_trans.
  unfold_methods. repeat method_step; intros b0; repeat split.
Qed.

(** ** A cycle up to the threshold test *)

(** Reduces the monad's primitives, leaving the methods folded. *)
Ltac step :=
  cbn [bind try_catch log modify get ret throw lift fst snd after cycle_handler].

Lemma bind_run {A B} (m : M A) (k : A -> M B) b a b1 :
  m b = (Ret a, b1) -> bind m k b = k a b1.
Proof. intro H. unfold bind. now rewrite H. Qed.

Lemma bind_run_throw {A B} (m : M A) (k : A -> M B) b err b1 :
  m b = (Throw err, b1) -> bind m k b = (Throw err, b1).
Proof. intro H. unfold bind. now rewrite H. Qed.

Lemma grows_split_weaken b b' :
  grows not_monetary (fun ev => not_split ev && negb (error_event ev)) b b' ->
  grows not_monetary not_split b b'.
Proof.
  apply grows_weaken; [auto|].
  intros ev H. now apply andb_prop in H.
Qed.

(** A cycle comes to the conversion of the fee balance with the detected
    phase and an untouched ledger, having made no call that moves funds. *)
Lemma cycle_reaches_conversion e b :
  exists b3,
    runCycle e b =
    try_catch
      (feeBalanceNumber <- lift (BN_toNumber (fee_lamports e)) ;;
       log info (MsgCreatorFeeBalance (feeBalanceNumber / 1e9)) ;;
       current <- get ;;
       settle e (phase_result e b) (feeBalanceNumber / 1e9)
         (BotConfig.minFeeThreshold (LiquidBot.config current))
         (BotConfig.buybackPercentage (LiquidBot.config current)) ;;
       publish e)
      cycle_handler b3 /\
    same_control b b3 /\ same_ledger b b3 /\
    LiquidBot.pumpSwapPool b3 = pool_after_phase e b /\
    currentPhase b3 = phase_result e b /\
    grows not_monetary not_split b b3.
Proof.
  rewrite runCycle_blocks.
  set (b0 := with_status (status_set_lastCheck (Some (now e)))
               (emit (EvLog info MsgRunningCycle) b)).
  destruct (checkTokenPhase_result e b0) as (b1 & E1 & P1).
  pose proof (checkTokenPhase_ledger e b0) as [C1 L1].
  pose proof (checkTokenPhase_grows e b0) as G1.
  rewrite E1 in C1, L1, G1. cbn [snd] in C1, L1, G1.
  apply grows_split_weaken in G1.
  set (b2 := emit (EvLog info (MsgTokenPhase (phase_result e b0)))
               (with_status (status_set_currentPhase (phase_result e b0)) b1)).
  destruct (getCreatorFeeBalance_result e b2) as (b3 & E3).
  pose proof (getCreatorFeeBalance_steady e b2) as (C3 & L3 & P3 & F3).
  pose proof (getCreatorFeeBalance_grows e b2) as G3.
  rewrite E3 in C3, L3, P3, F3, G3. cbn [snd] in C3, L3, P3, F3, G3.
  exists b3.
  split; [|split; [|split; [|split; [|split]]]].
  - unfold try_catch. step. fold b0. rewrite (bind_run _ _ _ _ _ E1). step. fold b2.
    rewrite (bind_run _ _ _ _ _ E3). reflexivity.
  - eapply same_control_trans; [|eapply same_control_trans with (b2 := b2)];
      [exact C1| |].
    + repeat split.
    + destruct C3 as (? & ? & ?). repeat split; assumption.
  - eapply same_ledger_trans; [exact L1|].
    eapply same_ledger_trans with (b2 := b2); [repeat split|].
    destruct L3 as (? & ? & ?). repeat split; assumption.
  - rewrite P3. cbn. exact P1.
  - unfold currentPhase in *. unfold same_phase, currentPhase in F3.
    rewrite F3. reflexivity.
  - eapply grows_trans; [apply grows_status with (f := status_set_lastCheck (Some (now e)))|].
    eapply grows_trans.
    { apply grows_emit with (ev := EvLog info MsgRunningCycle)
        (b := with_status (status_set_lastCheck (Some (now e))) b). reflexivity. }
    eapply grows_trans; [|eapply grows_trans; [exact G1|]].
    + exists [], []. cbn. now rewrite !app_nil_r.
    + eapply grows_trans; [|exact G3].
      eapply grows_trans; [apply grows_status|apply grows_emit; reflexivity].
Qed.

(** When the fee balance converts to a number, a cycle comes to the threshold
    test with that number in SOL. *)
Lemma cycle_reaches_settle e b f :
  feeBalanceSOL_of e = Some f ->
  exists b4,
    runCycle e b =
    try_catch
      (settle e (phase_result e b) f
         (BotConfig.minFeeThreshold (LiquidBot.config b))
         (BotConfig.buybackPercentage (LiquidBot.config b)) ;;
       publish e)
      cycle_handler b4 /\
    same_control b b4 /\ same_ledger b b4 /\
    LiquidBot.pumpSwapPool b4 = pool_after_phase e b /\
    currentPhase b4 = phase_result e b /\
    grows not_monetary not_split b b4.
Proof.
  intros Hf. unfold feeBalanceSOL_of in Hf. fold (fee_lamports e) in Hf.
  destruct (BN_toNumber (fee_lamports e)) as [n|] eqn:En; [|discriminate].
  injection Hf as <-.
  destruct (cycle_reaches_conversion e b) as (b3 & E & C & L & P & F & G).
  exists (emit (EvLog info (MsgCreatorFeeBalance (n / 1e9))) b3).
  split; [|split; [|split; [|split; [|split]]]].
  - rewrite E. unfold try_catch. rewrite En. step.
    change (LiquidBot.config (emit (EvLog info (MsgCreatorFeeBalance (n / 1e9))) b3))
      with (LiquidBot.config b3).
    destruct C as [-> _]. reflexivity.
  - destruct C as (? & ? & ?). repeat split; assumption.
  - destruct L as (? & ? & ?). repeat split; assumption.
  - exact P.
  - exact F.
  - eapply grows_trans; [exact G|apply grows_emit; reflexivity].
Qed.

(** When the fee balance does not convert to a number, the cycle stops there. *)
Lemma cycle_conversion_throws e b :
  feeBalanceSOL_of e = None ->
  same_ledger b (after (runCycle e) b).
Proof.
  intros Hf. unfold feeBalanceSOL_of in Hf. fold (fee_lamports e) in Hf.
  destruct (BN_toNumber (fee_lamports e)) as [n|err] eqn:En; [discriminate|].
  destruct (cycle_reaches_conversion e b) as (b3 & E & _ & L & _).
  unfold after. rewrite E. unfold try_catch. rewrite En. step.
  destruct L as (? & ? & ?). repeat split; assumption.
Qed.

(** ** Comparisons of binary64 numbers *)

Lemma SFcompare_Lt_Gt x y : SFcompare x y = Some Lt -> SFcompare y x = Some Gt.
Proof.
  destruct x as [sx|sx| |sx mx ex], y as [sy|sy| |sy my ey]; cbn;
    try destruct sx; try destruct sy; try discriminate; try reflexivity;
    change (Pos.compare_cont Eq mx my) with (Pos.compare mx my);
    change (Pos.compare_cont Eq my mx) with (Pos.compare my mx);
    rewrite (Z.compare_antisym ex ey), (Pos.compare_antisym mx my);
    destruct (ex ?= ey)%Z; cbn; try discriminate; try reflexivity;
    destruct (mx ?= my)%positive; cbn; try discriminate; reflexivity.
Qed.

(** [x < y] excludes [x >= y]. *)
Lemma ltb_not_ge (x y : float) : PrimFloat.ltb x y = true -> js_ge x y = false.
Proof.
  unfold js_ge. rewrite ltb_spec, leb_spec. unfold SFltb, SFleb.
  destruct (SFcompare (Prim2SF x) (Prim2SF y)) as [[| |]|] eqn:E; try discriminate.
  intros _. now rewrite (SFcompare_Lt_Gt _ _ E).
Qed.

(** *** The sign of a difference *)

Lemma shr_1_nonneg mrs : 0 <= shr_m mrs -> 0 <= shr_m (shr_1 mrs).
Proof.
  destruct mrs as [[|[p|p|]|[p|p|]] r s]; cbn; lia.
Qed.

Lemma iter_shr_1_nonneg p : forall mrs, 0 <= shr_m mrs -> 0 <= shr_m (iter_pos shr_1 p mrs).
Proof.
  induction p as [p IH|p IH|]; intros mrs H; cbn.
  - apply IH, IH, shr_1_nonneg, H.
  - apply IH, IH, H.
  - apply shr_1_nonneg, H.
Qed.

Lemma shr_fexp_nonneg m e l :
  0 <= m -> 0 <= shr_m (fst (shr_fexp prec emax m e l)).
Proof.
  intro H. unfold shr_fexp, shr.
  assert (H0 : 0 <= shr_m (shr_record_of_loc m l)) by (destruct l as [|[]]; exact H).
  destruct (fexp prec emax (Zdigits2 m + e) - e); cbn; trivial.
  now apply iter_shr_1_nonneg.
Qed.

Lemma round_nearest_even_nonneg m l : 0 <= m -> 0 <= round_nearest_even m l.
Proof.
  intro H. destruct l as [|[]]; cbn; try lia. destruct (Z.even m); lia.
Qed.

Lemma binary_round_aux_sign sx mx ex lx :
  0 <= mx ->
  match binary_round_aux prec emax sx mx ex lx with
  | S754_zero s | S754_infinity s | S754_finite s _ _ => s = sx
  | S754_nan => False
  end.
Proof.
  intro H. unfold binary_round_aux.
  pose proof (shr_fexp_nonneg mx ex lx H) as H1.
  destruct (shr_fexp prec emax mx ex lx) as [mrs' e']. cbn [fst] in H1.
  pose proof (shr_fexp_nonneg _ e' loc_Exact
                (round_nearest_even_nonneg _ (loc_of_shr_record mrs') H1)) as H2.
  destruct (shr_fexp prec emax (round_nearest_even (shr_m mrs') (loc_of_shr_record mrs')) e'
              loc_Exact) as [mrs'' e'']. cbn [fst] in H2.
  destruct (shr_m mrs'') as [|m|m]; [reflexivity| |lia].
  destruct (e'' <=? emax - prec); reflexivity.
Qed.

Lemma binary_normalize_nonneg m e :
  0 <= m -> SF_nonneg (binary_normalize prec emax m e false) = true.
Proof.
  intro H. destruct m as [|m|m]; [reflexivity| |lia].
  unfold binary_normalize, binary_round.
  destruct (shl_align m e (fexp prec emax (Z.pos (digits2_pos m) + e))) as [mz ez].
  pose proof (binary_round_aux_sign false (Z.pos mz) ez loc_Exact (Pos2Z.is_nonneg mz)) as Hs.
  destruct (binary_round_aux prec emax false (Z.pos mz) ez loc_Exact);
    cbn; try subst; try reflexivity. contradiction.
Qed.

Lemma iter_xO_value m d : Z.pos (Pos.iter xO m d) = Z.pos m * 2 ^ Z.pos d.
Proof.
  induction d as [|d IH] using Pos.peano_ind.
  - cbn. lia.
  - rewrite Pos.iter_succ, Pos2Z.inj_succ, Z.pow_succ_r by lia.
    rewrite Pos2Z.inj_xO, IH. lia.
Qed.

Lemma shl_align_value m e ez :
  ez <= e -> Z.pos (fst (shl_align m e ez)) = Z.pos m * 2 ^ (e - ez).
Proof.
  intro H. unfold shl_align.
  destruct (ez - e) as [|d|d] eqn:E; cbn [fst].
  - replace (e - ez) with 0 by lia. lia.
  - lia.
  - rewrite iter_xO_value. replace (e - ez) with (Z.pos d) by lia. reflexivity.
Qed.

Lemma digits2_pos_bounds m :
  2 ^ (Z.pos (digits2_pos m) - 1) <= Z.pos m < 2 ^ Z.pos (digits2_pos m).
Proof.
  induction m as [m IH|m IH|]; cbn [digits2_pos].
  - rewrite Pos2Z.inj_succ, Z.pow_succ_r by lia.
    replace (Z.succ (Z.pos (digits2_pos m)) - 1) with (Z.succ (Z.pos (digits2_pos m) - 1)) by lia.
    rewrite Z.pow_succ_r by lia. lia.
  - rewrite Pos2Z.inj_succ, Z.pow_succ_r by lia.
    replace (Z.succ (Z.pos (digits2_pos m)) - 1) with (Z.succ (Z.pos (digits2_pos m) - 1)) by lia.
    rewrite Z.pow_succ_r by lia. lia.
  - cbn. lia.
Qed.



Lemma SF_nonneg_leb r : SF_nonneg r = true -> SFleb (S754_zero false) r = true.
Proof. destruct r as [s|[]| |[] m e]; cbn; intro; try discriminate; reflexivity. Qed.

Lemma js_isFinite_spec x : js_isFinite x = true -> SF_finite (Prim2SF x) = true.
Proof.
  unfold js_isFinite. rewrite ltb_spec, abs_spec.
  change (Prim2SF infinity) with (S754_infinity false).
  destruct (Prim2SF x) as [s|[]| |s m e]; cbn; intro; try discriminate; reflexivity.
Qed.


(** *** Rounding, by its value *)

Lemma shr_1_half mrs : 0 <= shr_m mrs -> shr_m (shr_1 mrs) = shr_m mrs / 2.
Proof.
  destruct mrs as [[|[p|p|]|p] r s]; cbn [shr_m shr_1]; intro H; try lia.
  - reflexivity.
  - apply Z.div_unique with (r := 1); lia.
  - apply Z.div_unique with (r := 0); lia.
  - reflexivity.
Qed.

Lemma iter_shr_1_div p :
  forall mrs, 0 <= shr_m mrs -> shr_m (iter_pos shr_1 p mrs) = shr_m mrs / 2 ^ Z.pos p.
Proof.
  induction p as [p IH|p IH|]; intros mrs H; cbn [iter_pos].
  - rewrite IH by (apply iter_shr_1_nonneg, shr_1_nonneg, H).
    rewrite IH by (apply shr_1_nonneg, H).
    rewrite shr_1_half by exact H.
    rewrite !Z.div_div by (try apply Z.pow_pos_nonneg; lia).
    replace (Z.pos p~1) with (1 + Z.pos p + Z.pos p) by lia.
    rewrite !Z.pow_add_r by lia. change (2 ^ 1) with 2. f_equal. ring.
  - rewrite IH by (apply iter_shr_1_nonneg, H).
    rewrite IH by exact H.
    rewrite Z.div_div by (try apply Z.pow_pos_nonneg; lia).
    replace (Z.pos p~0) with (Z.pos p + Z.pos p) by lia.
    rewrite Z.pow_add_r by lia. reflexivity.
  - rewrite shr_1_half by exact H. reflexivity.
Qed.

Lemma shr_fexp_spec m e l :
  0 <= m ->
  snd (shr_fexp prec emax m e l) = Z.max e (fexp prec emax (Zdigits2 m + e)) /\
  shr_m (fst (shr_fexp prec emax m e l)) =
    m / 2 ^ (Z.max e (fexp prec emax (Zdigits2 m + e)) - e).
Proof.
  intro H. unfold shr_fexp, shr.
  assert (H0 : shr_m (shr_record_of_loc m l) = m) by (destruct l as [|[]]; reflexivity).
  destruct (fexp prec emax (Zdigits2 m + e) - e) as [|n|n] eqn:E; cbn [fst snd].
  - replace (Z.max e (fexp prec emax (Zdigits2 m + e))) with e by lia.
    rewrite Z.sub_diag, Z.div_1_r. auto.
  - replace (Z.max e (fexp prec emax (Zdigits2 m + e))) with (e + Z.pos n) by lia.
    rewrite iter_shr_1_div by lia. rewrite H0.
    replace (e + Z.pos n - e) with (Z.pos n) by lia. auto.
  - replace (Z.max e (fexp prec emax (Zdigits2 m + e))) with e by lia.
    rewrite Z.sub_diag, Z.div_1_r. auto.
Qed.

Lemma round_nearest_even_bounds m l :
  m <= round_nearest_even m l <= m + 1.
Proof.
  destruct l as [|[]]; cbn; try lia. destruct (Z.even m); lia.
Qed.

Lemma binary_round_aux_spec s mz ez l :
  0 <= mz ->
  let e1 := Z.max ez (fexp prec emax (Zdigits2 mz + ez)) in
  exists m1,
    mz / 2 ^ (e1 - ez) <= m1 <= mz / 2 ^ (e1 - ez) + 1 /\
    binary_round_aux prec emax s mz ez l = finalize s m1 e1.
Proof.
  intros H e1. unfold binary_round_aux.
  destruct (shr_fexp_spec mz ez l H) as [He Hm].
  pose proof (shr_fexp_nonneg mz ez l H) as Hn.
  destruct (shr_fexp prec emax mz ez l) as [mrs' e']. cbn [fst snd] in *.
  set (m1 := round_nearest_even (shr_m mrs') (loc_of_shr_record mrs')).
  pose proof (round_nearest_even_bounds (shr_m mrs') (loc_of_shr_record mrs')) as Hb.
  fold m1 in Hb.
  assert (H1 : 0 <= m1) by lia.
  destruct (shr_fexp_spec m1 e' loc_Exact H1) as [He2 Hm2].
  destruct (shr_fexp prec emax m1 e' loc_Exact) as [mrs'' e'']. cbn [fst snd] in *.
  exists m1. fold e1 in He, Hm. subst e'. rewrite <- Hm. split; [exact Hb|].
  rewrite <- He2 in Hm2. unfold finalize. cbv zeta. rewrite <- He2, <- Hm2. reflexivity.
Qed.

Lemma digits2_pos_iter_xO m d :
  digits2_pos (Pos.iter xO m d) = (digits2_pos m + d)%positive.
Proof.
  induction d as [|d IH] using Pos.peano_ind.
  - cbn. lia.
  - rewrite Pos.iter_succ. cbn [digits2_pos]. rewrite IH. lia.
Qed.

Lemma shl_align_spec m e e' :
  snd (shl_align m e e') = Z.min e e' /\
  Z.pos (fst (shl_align m e e')) = Z.pos m * 2 ^ (e - Z.min e e') /\
  Z.pos (digits2_pos (fst (shl_align m e e'))) + snd (shl_align m e e') =
    Z.pos (digits2_pos m) + e.
Proof.
  unfold shl_align. destruct (e' - e) as [|d|d] eqn:E; cbn [fst snd].
  - replace (Z.min e e') with e by lia. rewrite Z.sub_diag. lia.
  - replace (Z.min e e') with e by lia. rewrite Z.sub_diag. lia.
  - replace (Z.min e e') with e' by lia.
    rewrite iter_xO_value, digits2_pos_iter_xO.
    replace (e - e') with (Z.pos d) by lia. lia.
Qed.

Lemma binary_round_spec s m e :
  let E := fexp prec emax (Z.pos (digits2_pos m) + e) in
  let ez := Z.min e E in
  exists m1,
    Z.pos m * 2 ^ (e - ez) / 2 ^ (E - ez) <= m1 <=
      Z.pos m * 2 ^ (e - ez) / 2 ^ (E - ez) + 1 /\
    binary_round prec emax s m e = finalize s m1 E.
Proof.
  intros E ez. unfold binary_round. fold E.
  destruct (shl_align_spec m e E) as (Hs & Hv & Hd).
  destruct (shl_align m e E) as [mz ez']. cbn [fst snd] in *.
  destruct (binary_round_aux_spec s (Z.pos mz) ez' loc_Exact (Pos2Z.is_nonneg mz))
    as (m1 & Hb & Hr).
  cbn [Zdigits2] in Hb, Hr. rewrite Hd in Hb, Hr. fold E in Hb, Hr.
  fold ez in Hs, Hv. subst ez'.
  replace (Z.max ez E) with E in Hb, Hr by (unfold ez; lia).
  exists m1. rewrite <- Hv. split; assumption.
Qed.

Lemma fexp64 z : fexp prec emax z = Z.max (z - 53) (-1074).
Proof. reflexivity. Qed.

Lemma bounded_facts m e :
  bounded prec emax m e = true ->
  e = Z.max (Z.pos (digits2_pos m) + e - 53) (-1074) /\ e <= 971.
Proof.
  unfold bounded, canonical_mantissa. rewrite fexp64. intro H.
  apply andb_prop in H as [H1 H2]. apply Z.eqb_eq in H1. apply Z.leb_le in H2.
  change (emax - prec) with 971 in H2. lia.
Qed.

Lemma Zdigits2_bounds m :
  0 < m -> 2 ^ (Zdigits2 m - 1) <= m < 2 ^ Zdigits2 m.
Proof.
  destruct m as [|p|p]; try lia. intros _. apply digits2_pos_bounds.
Qed.

Lemma Zdigits2_nonneg m : 0 <= Zdigits2 m.
Proof. destruct m; cbn; lia. Qed.

(** The larger number has the larger magnitude. *)
Lemma digits_monotone a ea b eb L :
  0 < a -> 0 < b -> L <= ea -> L <= eb ->
  a * 2 ^ (ea - L) <= b * 2 ^ (eb - L) ->
  Zdigits2 a + ea <= Zdigits2 b + eb.
Proof.
  intros Ha Hb La Lb H.
  pose proof (Zdigits2_bounds a Ha) as [A1 _].
  pose proof (Zdigits2_bounds b Hb) as [_ B2].
  pose proof (Zdigits2_nonneg b) as Nb.
  assert (Da : 0 < Zdigits2 a) by (destruct a; cbn; lia).
  assert (P1 : 2 ^ (Zdigits2 a - 1) * 2 ^ (ea - L) <= a * 2 ^ (ea - L)).
  { apply Z.mul_le_mono_nonneg_r; [apply Z.pow_nonneg; lia|exact A1]. }
  assert (P2 : b * 2 ^ (eb - L) < 2 ^ Zdigits2 b * 2 ^ (eb - L)).
  { apply Z.mul_lt_mono_pos_r; [apply Z.pow_pos_nonneg; lia|exact B2]. }
  rewrite <- Z.pow_add_r in P1, P2 by lia.
  assert (P3 : 2 ^ (Zdigits2 a - 1 + (ea - L)) < 2 ^ (Zdigits2 b + (eb - L))) by lia.
  apply Z.pow_lt_mono_r_iff in P3; lia.
Qed.

Lemma Zdigits2_le m k : 0 <= k -> 0 <= m < 2 ^ k -> Zdigits2 m <= k.
Proof.
  intros Hk [H0 H1]. destruct (Z.eq_dec m 0) as [->|Hm]; [cbn; lia|].
  pose proof (Zdigits2_bounds m ltac:(lia)) as [A _].
  assert (P : 2 ^ (Zdigits2 m - 1) < 2 ^ k) by lia.
  apply Z.pow_lt_mono_r_iff in P; lia.
Qed.

(** A positive mantissa keeps at least one digit when it is cut down to the
    digits its magnitude allows. *)
Lemma cut_keeps_a_digit m e :
  0 < m -> -1074 <= e ->
  2 ^ (Z.max e (fexp prec emax (Zdigits2 m + e)) - e) <= m.
Proof.
  intros Hm He. rewrite fexp64.
  pose proof (Zdigits2_bounds m Hm) as [A _].
  assert (Dm : 0 < Zdigits2 m) by (destruct m; cbn; lia).
  eapply Z.le_trans; [|exact A].
  apply Z.pow_le_mono_r; lia.
Qed.

Lemma finalize_positive s m1 e1 :
  0 < m1 -> -1074 <= e1 ->
  let e2 := Z.max e1 (fexp prec emax (Zdigits2 m1 + e1)) in
  exists mr,
    m1 / 2 ^ (e2 - e1) = Z.pos mr /\
    finalize s m1 e1 =
      if e2 <=? emax - prec then S754_finite s mr e2 else S754_infinity s.
Proof.
  intros Hm He e2. unfold finalize. fold e2.
  pose proof (cut_keeps_a_digit m1 e1 Hm He) as Hc. fold e2 in Hc.
  assert (Hq : 1 <= m1 / 2 ^ (e2 - e1)).
  { apply Z.div_le_lower_bound; [apply Z.pow_pos_nonneg; lia|lia]. }
  destruct (m1 / 2 ^ (e2 - e1)) as [|mr|mr]; try lia.
  now exists mr.
Qed.

(** Rounding a number at least as large as the valid number ([mx], [ex])
    gives a number at least as large, or overflows. *)
Lemma round_lower s m e mx ex :
  bounded prec emax mx ex = true ->
  -1074 <= e -> e <= ex ->
  Z.pos mx * 2 ^ (ex - e) <= Z.pos m ->
  match binary_round prec emax s m e with
  | S754_finite s' mr er => s' = s /\ (ex < er \/ (er = ex /\ Z.pos mx <= Z.pos mr))
  | S754_infinity s' => s' = s
  | _ => False
  end.
Proof.
  intros Hb He Hle Hv.
  destruct (bounded_facts mx ex Hb) as [Hx _].
  destruct (binary_round_spec s m e) as (m1 & [Hm1 _] & ->).
  set (E := fexp prec emax (Z.pos (digits2_pos m) + e)) in *.
  assert (HE : ex <= E).
  { assert (D : Zdigits2 (Z.pos mx) + ex <= Zdigits2 (Z.pos m) + e).
    { apply (digits_monotone _ _ _ _ e); try lia.
      rewrite Z.sub_diag, Z.mul_1_r. exact Hv. }
    cbn [Zdigits2] in D. unfold E. rewrite fexp64. lia. }
  replace (Z.min e E) with e in Hm1 by lia.
  rewrite Z.sub_diag, Z.mul_1_r in Hm1.
  assert (Hcut : 2 ^ (E - e) <= Z.pos m).
  { pose proof (cut_keeps_a_digit (Z.pos m) e ltac:(lia) He) as Hc.
    cbn [Zdigits2] in Hc. fold E in Hc. replace (Z.max e E) with E in Hc by lia.
    exact Hc. }
  assert (Hpos : 1 <= Z.pos m / 2 ^ (E - e)).
  { apply Z.div_le_lower_bound; [apply Z.pow_pos_nonneg; lia|lia]. }
  assert (HEmin : -1074 <= E) by (unfold E; rewrite fexp64; lia).
  destruct (finalize_positive s m1 E ltac:(lia) HEmin) as (mr & Hq & ->).
  set (e2 := Z.max E (fexp prec emax (Zdigits2 m1 + E))) in *.
  destruct (e2 <=? emax - prec); [|reflexivity].
  split; [reflexivity|].
  destruct (Z.eq_dec e2 ex) as [Heq|Hne]; [right|left; lia].
  split; [exact Heq|].
  assert (E = ex) by lia. assert (e2 = E) by lia.
  replace (e2 - E) with 0 in Hq by lia. rewrite Z.div_1_r in Hq.
  assert (Z.pos mx <= Z.pos m / 2 ^ (E - e)).
  { apply Z.div_le_lower_bound; [apply Z.pow_pos_nonneg; lia|].
    replace E with ex by lia. lia. }
  lia.
Qed.

(** Rounding a positive number below the valid number ([mx], [ex]) gives
    zero or a number that is not above it. *)
Lemma round_upper s m e mx ex :
  bounded prec emax mx ex = true ->
  -1074 <= e -> e <= ex ->
  Z.pos m < Z.pos mx * 2 ^ (ex - e) ->
  match binary_round prec emax s m e with
  | S754_zero s' => s' = s
  | S754_finite s' mr er => s' = s /\ (er < ex \/ (er = ex /\ Z.pos mr <= Z.pos mx))
  | _ => False
  end.
Proof.
  intros Hb He Hle Hv.
  destruct (bounded_facts mx ex Hb) as [Hx Hmax].
  pose proof (digits2_pos_bounds mx) as [Bx1 Bx2].
  pose proof (digits2_pos_bounds m) as [Bm1 Bm2].
  destruct (binary_round_spec s m e) as (m1 & [Hlow Hm1] & ->).
  set (E := fexp prec emax (Z.pos (digits2_pos m) + e)) in *.
  assert (HE : E <= ex).
  { assert (D : Zdigits2 (Z.pos m) + e <= Zdigits2 (Z.pos mx) + ex).
    { apply (digits_monotone _ _ _ _ e); try lia.
      rewrite Z.sub_diag, Z.mul_1_r. lia. }
    cbn [Zdigits2] in D. unfold E. rewrite fexp64. lia. }
  assert (HEmin : -1074 <= E) by (unfold E; rewrite fexp64; lia).
  assert (HEd : Z.pos (digits2_pos m) + e - 53 <= E) by (unfold E; rewrite fexp64; lia).
  set (m1' := Z.pos m * 2 ^ (e - Z.min e E) / 2 ^ (E - Z.min e E)) in *.
  assert (H0 : 0 <= m1').
  { apply Z.div_pos; [|apply Z.pow_pos_nonneg; lia].
    apply Z.mul_nonneg_nonneg; [lia|apply Z.pow_nonneg; lia]. }
  (* U1: the cut mantissa has at most 53 digits *)
  assert (U1 : m1' < 2 ^ 53).
  { unfold m1'. destruct (Z.le_ge_cases e E) as [C|C].
    - replace (Z.min e E) with e by lia. rewrite Z.sub_diag, Z.mul_1_r.
      apply Z.div_lt_upper_bound; [apply Z.pow_pos_nonneg; lia|].
      rewrite <- Z.pow_add_r by lia.
      eapply Z.lt_le_trans; [exact Bm2|]. apply Z.pow_le_mono_r; lia.
    - replace (Z.min e E) with E by lia. rewrite Z.sub_diag, Z.div_1_r.
      eapply Z.lt_le_trans.
      + apply Z.mul_lt_mono_pos_r; [apply Z.pow_pos_nonneg; lia|exact Bm2].
      + rewrite <- Z.pow_add_r by lia. apply Z.pow_le_mono_r; lia. }
  (* U2: at the exponent of [mx], the cut mantissa is below [mx] *)
  assert (U2 : E = ex -> m1' < Z.pos mx).
  { intro Heq. unfold m1'. replace (Z.min e E) with e by lia.
    rewrite Z.sub_diag, Z.mul_1_r.
    apply Z.div_lt_upper_bound; [apply Z.pow_pos_nonneg; lia|].
    rewrite Heq. lia. }
  assert (M1 : 0 <= m1 <= 2 ^ 53) by lia.
  unfold finalize.
  set (e2 := Z.max E (fexp prec emax (Zdigits2 m1 + E))).
  assert (D1 : Zdigits2 m1 <= 54).
  { apply Zdigits2_le; [lia|]. change (2 ^ 54) with (2 * 2 ^ 53). lia. }
  assert (He2 : E <= e2 <= E + 1) by (unfold e2; rewrite fexp64; lia).
  assert (Hq : 0 <= m1 / 2 ^ (e2 - E)).
  { apply Z.div_pos; [lia|apply Z.pow_pos_nonneg; lia]. }
  assert (Hex : e2 = ex -> m1 / 2 ^ (e2 - E) <= Z.pos mx).
  { intro Heq. destruct (Z.eq_dec E ex) as [HEx|HEx].
    - replace (e2 - E) with 0 by lia. rewrite Z.div_1_r. specialize (U2 HEx). lia.
    - replace (e2 - E) with 1 by lia. change (2 ^ 1) with 2.
      assert (Dx : Z.pos (digits2_pos mx) = 53) by lia.
      rewrite Dx in Bx1. change (2 ^ (53 - 1)) with (2 ^ 52) in Bx1.
      assert (m1 / 2 <= 2 ^ 52).
      { apply Z.div_le_upper_bound; [lia|]. change (2 * 2 ^ 52) with (2 ^ 53). lia. }
      lia. }
  assert (Hle2 : e2 <= ex).
  { destruct (Z.eq_dec E ex) as [HEx|HEx]; [|lia].
    specialize (U2 HEx).
    assert (Dm : Zdigits2 m1 <= Z.pos (digits2_pos mx)).
    { apply Zdigits2_le; lia. }
    unfold e2. rewrite fexp64. lia. }
  destruct (m1 / 2 ^ (e2 - E)) as [|mr|mr] eqn:Em; try lia.
  - reflexivity.
  - replace (e2 <=? emax - prec) with true
      by (symmetry; apply Z.leb_le; change (emax - prec) with 971; lia).
    split; [reflexivity|].
    destruct (Z.eq_dec e2 ex) as [Heq|Hne]; [right|left; lia].
    split; [exact Heq|]. now apply Hex.
Qed.

Lemma SFcompare_refl_finite s m e :
  SFcompare (S754_finite s m e) (S754_finite s m e) = Some Eq.
Proof.
  cbn. rewrite Z.compare_refl.
  change (Pos.compare_cont Eq m m) with (Pos.compare m m). rewrite Pos.compare_refl.
  now destruct s.
Qed.

Lemma SFadd_nonneg_mono x y :
  valid_binary x = true -> valid_binary y = true ->
  SF_finite x = true -> SF_nonneg y = true ->
  SFleb x (SFadd prec emax x y) = true.
Proof.
  intros Vx Vy Fx Ny. unfold SFleb.
  destruct x as [sx| | |sx mx ex]; try discriminate;
    destruct y as [sy|[]| |[] my ey]; try discriminate.
  - cbn. destruct sx, sy; reflexivity.
  - reflexivity.
  - reflexivity.
  - cbn [SFadd]. now rewrite SFcompare_refl_finite.
  - cbn. now destruct sx.
  - cbn [valid_binary] in Vx, Vy.
    destruct (bounded_facts mx ex Vx) as [Hx _].
    destruct (bounded_facts my ey Vy) as [Hy _].
    unfold SFadd.
    set (ez := Z.min ex ey).
    assert (Hzx : ez <= ex) by (unfold ez; lia).
    assert (Hzy : ez <= ey) by (unfold ez; lia).
    assert (Hmin : -1074 <= ez) by (unfold ez; lia).
    rewrite (shl_align_value mx ex ez Hzx), (shl_align_value my ey ez Hzy).
    assert (Px : 0 < Z.pos mx * 2 ^ (ex - ez))
      by (apply Z.mul_pos_pos; [lia|apply Z.pow_pos_nonneg; lia]).
    assert (Py : 0 < Z.pos my * 2 ^ (ey - ez))
      by (apply Z.mul_pos_pos; [lia|apply Z.pow_pos_nonneg; lia]).
    cbn [cond_Zopp].
    destruct sx; cbn [cond_Zopp].
    + (* x < 0 *)
      destruct (- (Z.pos mx * 2 ^ (ex - ez)) + Z.pos my * 2 ^ (ey - ez))
        as [|M|A] eqn:EM.
      * reflexivity.
      * pose proof (binary_normalize_nonneg (Z.pos M) ez ltac:(lia)) as Hn.
        destruct (binary_normalize prec emax (Z.pos M) ez false) as [s|[]| |[] mr er];
          try discriminate; reflexivity.
      * cbn [binary_normalize].
        pose proof (round_upper true A ez mx ex Vx Hmin Hzx ltac:(lia)) as Hr.
        destruct (binary_round prec emax true A ez) as [s|s| |s mr er];
          try contradiction.
        -- reflexivity.
        -- destruct Hr as [-> [Hlt|[-> Hle]]]; cbn.
           ++ replace (ex ?= er) with Gt by (symmetry; apply Z.compare_gt_iff; lia).
              reflexivity.
           ++ rewrite Z.compare_refl.
              change (Pos.compare_cont Eq mx mr) with (Pos.compare mx mr).
              destruct (mx ?= mr)%positive eqn:C; try reflexivity.
              rewrite Pos.compare_lt_iff in C. lia.
    + (* x > 0 *)
      destruct (Z.pos mx * 2 ^ (ex - ez) + Z.pos my * 2 ^ (ey - ez)) as [|M|A] eqn:EM;
        try lia.
      cbn [binary_normalize].
      pose proof (round_lower false M ez mx ex Vx Hmin Hzx ltac:(lia)) as Hr.
      destruct (binary_round prec emax false M ez) as [s|s| |s mr er];
        try contradiction.
      * subst s. reflexivity.
      * destruct Hr as [-> [Hlt|[-> Hle]]]; cbn.
        -- replace (ex ?= er) with Lt by (symmetry; apply Z.compare_lt_iff; lia).
           reflexivity.
        -- rewrite Z.compare_refl.
           change (Pos.compare_cont Eq mx mr) with (Pos.compare mx mr).
           destruct (mx ?= mr)%positive eqn:C; try reflexivity.
           rewrite Pos.compare_gt_iff in C. lia.
Qed.

Lemma leb_zero_nonneg y : PrimFloat.leb 0 y = true -> SF_nonneg (Prim2SF y) = true.
Proof.
  rewrite leb_spec. change (Prim2SF 0) with (S754_zero false). unfold SFleb.
  destruct (Prim2SF y) as [s|[]| |[] m e]; cbn; intro; try discriminate; reflexivity.
Qed.

(** Adding a number that is at least zero to a finite number does not make
    it smaller. *)
Lemma add_nonneg_mono (x y : float) :
  js_isFinite x = true -> PrimFloat.leb 0 y = true -> PrimFloat.leb x (x + y) = true.
Proof.
  intros Hx Hy. rewrite leb_spec, add_spec.
  apply SFadd_nonneg_mono; trivial using Prim2SF_valid.
  - now apply js_isFinite_spec.
  - now apply leb_zero_nonneg.
Qed.

(** *** The sign of products and quotients *)

Lemma binary_round_aux_nonneg mx ex lx :
  0 <= mx -> SF_nonneg (binary_round_aux prec emax false mx ex lx) = true.
Proof.
  intro H. pose proof (binary_round_aux_sign false mx ex lx H) as Hs.
  destruct (binary_round_aux prec emax false mx ex lx); cbn; try subst; try reflexivity.
  contradiction.
Qed.

Lemma SFmul_nonneg x y :
  SF_finite x = true -> SF_finite y = true ->
  SF_nonneg x = true -> SF_nonneg y = true ->
  SF_nonneg (SFmul prec emax x y) = true.
Proof.
  destruct x as [sx| | |[] mx ex], y as [sy| | |[] my ey]; cbn [SF_finite SF_nonneg negb];
    intros; try discriminate; try reflexivity.
  cbn [SFmul xorb]. apply binary_round_aux_nonneg. lia.
Qed.

Lemma SFdiv_core_binary_nonneg m1 e1 m2 e2 :
  0 <= m1 -> 0 < m2 ->
  0 <= fst (fst (SFdiv_core_binary prec emax m1 e1 m2 e2)).
Proof.
  intros H1 H2. unfold SFdiv_core_binary.
  set (s := e1 - e2 - _).
  set (m' := match s with Z0 => m1 | Z.pos _ => Z.shiftl m1 s | Z.neg _ => 0 end).
  assert (Hm : 0 <= m').
  { unfold m'. destruct s; try lia. apply Z.shiftl_nonneg. exact H1. }
  pose proof (Z_div_mod m' m2 ltac:(lia)) as Hd.
  destruct (Z.div_eucl m' m2) as [q r]. cbn [fst]. nia.
Qed.

Lemma SFdiv_nonneg x my ey :
  SF_nonneg x = true ->
  SF_nonneg (SFdiv prec emax x (S754_finite false my ey)) = true.
Proof.
  destruct x as [sx|[]| |[] mx ex]; cbn [SF_nonneg negb]; intro; try discriminate;
    try reflexivity.
  cbn [SFdiv xorb].
  pose proof (SFdiv_core_binary_nonneg (Z.pos mx) ex (Z.pos my) ey ltac:(lia) ltac:(lia)) as Hq.
  destruct (SFdiv_core_binary prec emax (Z.pos mx) ex (Z.pos my) ey) as [[mz ez] lz].
  cbn [fst] in Hq. now apply binary_round_aux_nonneg.
Qed.

Lemma nonneg_leb_zero x : SF_nonneg (Prim2SF x) = true -> PrimFloat.leb 0 x = true.
Proof.
  intro H. rewrite leb_spec. change (Prim2SF 0) with (S754_zero false).
  now apply SF_nonneg_leb.
Qed.

(** The product of two finite numbers that are at least zero is at least
    zero. *)
Lemma mul_nonneg (x y : float) :
  js_isFinite x = true -> js_isFinite y = true ->
  PrimFloat.leb 0 x = true -> PrimFloat.leb 0 y = true ->
  PrimFloat.leb 0 (x * y) = true.
Proof.
  intros Fx Fy Hx Hy. apply nonneg_leb_zero. rewrite mul_spec.
  apply SFmul_nonneg; auto using js_isFinite_spec, leb_zero_nonneg.
Qed.

(** A hundredth of a number that is at least zero is at least zero. *)
Lemma div_100_nonneg (x : float) :
  PrimFloat.leb 0 x = true -> PrimFloat.leb 0 (x / 100) = true.
Proof.
  intros Hx. apply nonneg_leb_zero. rewrite div_spec.
  assert (H100 : exists m e, Prim2SF 100 = S754_finite false m e)
    by (eexists _, _; vm_compute; reflexivity).
  destruct H100 as (m & e & ->).
  apply SFdiv_nonneg. now apply leb_zero_nonneg.
Qed.

Lemma leb_refl_finite (x : float) : js_isFinite x = true -> PrimFloat.leb x x = true.
Proof.
  intro H. apply js_isFinite_spec in H. rewrite leb_spec. unfold SFleb.
  destruct (Prim2SF x) as [s| | |s m e]; try discriminate.
  - reflexivity.
  - now rewrite SFcompare_refl_finite.
Qed.

(** For a harvest and a percentage that are finite and at least zero, the
    buyback amount is at least zero. *)
Lemma buybackAmount_nonneg (A p : float) :
  js_isFinite A = true -> js_isFinite p = true ->
  PrimFloat.leb 0 A = true -> PrimFloat.leb 0 p = true ->
  PrimFloat.leb 0 (buybackAmount_of A p) = true.
Proof.
  intros. unfold buybackAmount_of. now apply div_100_nonneg, mul_nonneg.
Qed.

(** *** The fee balance in SOL *)

Lemma Zdigits2_mono a b : 0 <= a <= b -> Zdigits2 a <= Zdigits2 b.
Proof.
  intros [Ha Hab]. destruct (Z.eq_dec b 0) as [->|Hb].
  - replace a with 0 by lia. lia.
  - apply Zdigits2_le; [apply Zdigits2_nonneg|].
    pose proof (Zdigits2_bounds b ltac:(lia)). lia.
Qed.

Lemma Zdigits2_shift m s : 0 <= m -> 0 <= s -> Zdigits2 (m * 2 ^ s) <= Zdigits2 m + s.
Proof.
  intros Hm Hs. destruct (Z.eq_dec m 0) as [->|Hne].
  - cbn. lia.
  - pose proof (Zdigits2_bounds m ltac:(lia)) as [_ B].
    pose proof (Zdigits2_nonneg m).
    apply Zdigits2_le; [lia|]. split.
    + apply Z.mul_nonneg_nonneg; [lia|apply Z.pow_nonneg; lia].
    + rewrite Z.pow_add_r by lia.
      apply Z.mul_lt_mono_pos_r; [apply Z.pow_pos_nonneg; lia|exact B].
Qed.

(** The exponent a rounding ends at is at most one above the exponent the
    magnitude of its argument asks for. *)
Lemma binary_round_aux_exponent s mz ez l :
  0 <= mz ->
  let B := Z.max (Z.max ez (Zdigits2 mz + ez - 53)) (-1074) + 1 in
  B <= 971 ->
  match binary_round_aux prec emax s mz ez l with
  | S754_zero _ => True
  | S754_finite _ _ er => er <= B
  | _ => False
  end.
Proof.
  intros Hmz B HB.
  destruct (binary_round_aux_spec s mz ez l Hmz) as (m1 & [Hlow Hup] & Hr).
  cbv zeta in Hlow, Hup, Hr. rewrite fexp64 in Hlow, Hup, Hr.
  remember (Z.max ez (Z.max (Zdigits2 mz + ez - 53) (-1074))) as e1 eqn:He1.
  assert (H0 : 0 <= mz / 2 ^ (e1 - ez)).
  { apply Z.div_pos; [lia|apply Z.pow_pos_nonneg; lia]. }
  assert (U1 : mz / 2 ^ (e1 - ez) < 2 ^ 53).
  { destruct (Z.eq_dec mz 0) as [->|Hne]; [rewrite Z.div_0_l; lia|].
    pose proof (Zdigits2_bounds mz ltac:(lia)) as [_ Bm].
    apply Z.div_lt_upper_bound; [apply Z.pow_pos_nonneg; lia|].
    rewrite <- Z.pow_add_r by lia.
    eapply Z.lt_le_trans; [exact Bm|]. apply Z.pow_le_mono_r; lia. }
  assert (D1 : Zdigits2 m1 <= 54).
  { apply Zdigits2_le; [lia|]. change (2 ^ 54) with (2 * 2 ^ 53). lia. }
  rewrite Hr. unfold finalize. rewrite fexp64.
  remember (Z.max e1 (Z.max (Zdigits2 m1 + e1 - 53) (-1074))) as e2 eqn:He2'.
  assert (He2 : e2 <= B) by (unfold B; lia).
  assert (Hq : 0 <= m1 / 2 ^ (e2 - e1)).
  { apply Z.div_pos; [lia|apply Z.pow_pos_nonneg; lia]. }
  destruct (m1 / 2 ^ (e2 - e1)) as [|mr|mr]; try lia; trivial.
  replace (e2 <=? emax - prec) with true
    by (symmetry; apply Z.leb_le; change (emax - prec) with 971; lia).
  exact He2.
Qed.

(** A non-negative integer below 2^63 converts to a finite number at least
    zero, of exponent at most 11. *)
Lemma binary_normalize_int z :
  0 <= z < 2 ^ 63 ->
  match binary_normalize prec emax z 0 false with
  | S754_zero _ => True
  | S754_finite s _ e => s = false /\ e <= 11
  | _ => False
  end.
Proof.
  intros [H0 H1]. destruct z as [|m|m]; try lia; [exact I|].
  cbn [binary_normalize]. unfold binary_round.
  destruct (shl_align_spec m 0 (fexp prec emax (Z.pos (digits2_pos m) + 0))) as (Hs & _ & Hd).
  destruct (shl_align m 0 (fexp prec emax (Z.pos (digits2_pos m) + 0))) as [mz ez].
  cbn [fst snd] in Hs, Hd.
  assert (Dm : Z.pos (digits2_pos m) <= 63).
  { apply (Zdigits2_le (Z.pos m) 63); lia. }
  pose proof (binary_round_aux_exponent false (Z.pos mz) ez loc_Exact ltac:(lia)) as Hexp.
  pose proof (binary_round_aux_sign false (Z.pos mz) ez loc_Exact ltac:(lia)) as Hsign.
  cbv zeta in Hexp. cbn [Zdigits2] in Hexp.
  assert (Hez : ez <= 0) by lia.
  destruct (binary_round_aux prec emax false (Z.pos mz) ez loc_Exact).
  - exact I.
  - apply Hexp. lia.
  - contradiction.
  - split; [exact Hsign|]. etransitivity; [apply Hexp; lia|lia].
Qed.

Lemma SFdiv_core_binary_spec m1 e1 m2 e2 :
  0 < m1 -> 0 < m2 ->
  let '(q, e', _) := SFdiv_core_binary prec emax m1 e1 m2 e2 in
  0 <= q /\ e' <= e1 - e2 /\ Zdigits2 q + e' <= Zdigits2 m1 + e1 - e2.
Proof.
  intros H1 H2. unfold SFdiv_core_binary.
  remember (Z.min (fexp prec emax (Zdigits2 m1 + e1 - (Zdigits2 m2 + e2))) (e1 - e2))
    as e' eqn:He'.
  remember (e1 - e2 - e') as s eqn:Hs.
  remember (match s with Z0 => m1 | Z.pos _ => Z.shiftl m1 s | Z.neg _ => 0 end)
    as m' eqn:Hm'.
  assert (Hs0 : 0 <= s) by lia.
  assert (Hm : m' = m1 * 2 ^ s).
  { subst m'. destruct s as [|p|p].
    - rewrite Z.pow_0_r. lia.
    - rewrite Z.shiftl_mul_pow2 by lia. reflexivity.
    - lia. }
  assert (Hm0 : 0 <= m') by (rewrite Hm; apply Z.mul_nonneg_nonneg; [lia|apply Z.pow_nonneg; lia]).
  pose proof (Z_div_mod m' m2 ltac:(lia)) as Hd.
  destruct (Z.div_eucl m' m2) as [q r].
  assert (Hq : 0 <= q <= m') by nia.
  split; [lia|]. split; [lia|].
  pose proof (Zdigits2_mono q m' Hq).
  pose proof (Zdigits2_shift m1 s ltac:(lia) Hs0). rewrite <- Hm in *.
  lia.
Qed.

Lemma SF_finite_js_isFinite x : SF_finite (Prim2SF x) = true -> js_isFinite x = true.
Proof.
  unfold js_isFinite. rewrite ltb_spec, abs_spec.
  change (Prim2SF infinity) with (S754_infinity false).
  destruct (Prim2SF x) as [s|s| |s m e]; cbn; intro; try discriminate; reflexivity.
Qed.

(** A fee balance of [z] lamports, read as a number and divided by 1e9, is
    finite and at least zero. *)
Lemma lamports_in_SOL z :
  0 <= z < 2 ^ 53 ->
  js_isFinite (float_of_Z z / 1e9) = true /\
  PrimFloat.leb 0 (float_of_Z z / 1e9) = true.
Proof.
  intros [H0 H1]. unfold float_of_Z.
  replace (z <? 0) with false by (symmetry; apply Z.ltb_ge; lia).
  assert (Hn : Prim2SF (of_uint63 (Uint63.of_Z z)) = binary_normalize prec emax z 0 false).
  { rewrite of_uint63_spec. f_equal. rewrite Uint63.of_Z_spec.
    apply Z.mod_small. change Uint63.wB with (2 ^ 63). split; [lia|].
    eapply Z.lt_trans; [exact H1|]. reflexivity. }
  pose proof (binary_normalize_int z) as Hint.
  assert (H63 : 0 <= z < 2 ^ 63) by (split; [lia|eapply Z.lt_trans; [exact H1|reflexivity]]).
  specialize (Hint H63).
  pose proof (Prim2SF_valid (of_uint63 (Uint63.of_Z z))) as Hvalid.
  assert (H9 : Prim2SF 1e9 = S754_finite false 8388608000000000 (-23)) by reflexivity.
  assert (Hdiv : SF_finite (Prim2SF (of_uint63 (Uint63.of_Z z) / 1e9)) = true /\
                 SF_nonneg (Prim2SF (of_uint63 (Uint63.of_Z z) / 1e9)) = true).
  { rewrite div_spec, H9, Hn in *.
    destruct (binary_normalize prec emax z 0 false) as [s|s| |s mn en];
      try contradiction.
    - split; reflexivity.
    - destruct Hint as [-> Hen].
      cbn [valid_binary] in Hvalid. destruct (bounded_facts mn en Hvalid) as [Hcanon _].
      unfold SF64div, SFdiv. cbn [xorb].
      pose proof (SFdiv_core_binary_spec (Z.pos mn) en 8388608000000000 (-23)
                    ltac:(lia) ltac:(lia)) as Hcore.
      destruct (SFdiv_core_binary prec emax (Z.pos mn) en 8388608000000000 (-23))
        as [[q e'] lz].
      destruct Hcore as (Hq & He' & Hd). cbn [Zdigits2] in Hd.
      pose proof (binary_round_aux_exponent false q e' lz Hq) as Hexp.
      pose proof (binary_round_aux_sign false q e' lz Hq) as Hsign.
      cbv zeta in Hexp.
      destruct (binary_round_aux prec emax false q e' lz) as [s|s| |s mr er].
      + split; reflexivity.
      + exfalso. apply Hexp. lia.
      + contradiction.
      + subst s. split; reflexivity. }
  destruct Hdiv as [Hfin Hnn]. split.
  - now apply SF_finite_js_isFinite.
  - now apply nonneg_leb_zero.
Qed.

Lemma fee_read_finite_nonneg e A :
  feeBalanceSOL_of e = Some A ->
  0 <= fee_lamports e ->
  js_isFinite A = true /\ PrimFloat.leb 0 A = true.
Proof.
  unfold feeBalanceSOL_of. fold (fee_lamports e). unfold BN_toNumber.
  intros Hf H0.
  destruct (Z.abs (fee_lamports e) <? 2 ^ 53) eqn:Hlt; [|discriminate].
  injection Hf as <-. apply Z.ltb_lt in Hlt. apply lamports_in_SOL. lia.
Qed.

(** ** Cycles that stop before or at the claim *)

Lemma settle_below e phase f threshold pct b :
  js_ge f threshold = false ->
  settle e phase f threshold pct b =
  (Ret tt, emit (EvLog info (MsgFeesBelowThreshold f threshold)) b).
Proof. intro H. unfold settle. now rewrite H. Qed.

Lemma settle_claim_fails e phase f threshold pct b err :
  js_ge f threshold = true ->
  claim_fails e err ->
  exists cs,
    settle e phase f threshold pct b =
    (Throw err,
     emit (EvLog error (MsgFailedToClaim (error_message err)))
       (fold_left (fun b c => push_call c b) cs
          (emit (EvLog success (MsgFeesAboveThreshold threshold)) b))) /\
    forallb claim_call cs = true.
Proof.
  intros H Hc. unfold settle. rewrite H. step.
  destruct (claimFees_fails e (emit (EvLog success (MsgFeesAboveThreshold threshold)) b)
              err Hc) as (cs & E & Hcs).
  exists cs. split; [|exact Hcs].
  now rewrite (bind_run_throw _ _ _ _ _ E).
Qed.

Lemma calls_fold_push cs b :
  LiquidBot.calls (fold_left (fun b c => push_call c b) cs b) = LiquidBot.calls b ++ cs.
Proof.
  revert b. induction cs as [|c cs IH]; intro b; cbn.
  - now rewrite app_nil_r.
  - rewrite IH. cbn. now rewrite <- app_assoc.
Qed.

Lemma fold_push_fixed cs b :
  let b' := fold_left (fun b c => push_call c b) cs b in
  LiquidBot.emitted b' = LiquidBot.emitted b /\
  LiquidBot.status b' = LiquidBot.status b /\
  LiquidBot.config b' = LiquidBot.config b /\
  LiquidBot.isRunning b' = LiquidBot.isRunning b /\
  LiquidBot.intervalId b' = LiquidBot.intervalId b /\
  LiquidBot.pumpSwapPool b' = LiquidBot.pumpSwapPool b.
Proof.
  revert b. induction cs as [|c cs IH]; intro b; cbn.
  - repeat split.
  - apply (IH (push_call c b)).
Qed.

Lemma claim_call_not_buy_or_deposit cs :
  forallb claim_call cs = true -> forallb not_buy_or_deposit cs = true.
Proof.
  rewrite !forallb_forall. intros H c Hc. specialize (H c Hc).
  destruct c; try discriminate; reflexivity.
Qed.

Lemma not_monetary_not_buy_or_deposit cs :
  forallb not_monetary cs = true -> forallb not_buy_or_deposit cs = true.
Proof.
  rewrite !forallb_forall. intros H c Hc. specialize (H c Hc).
  destruct c; try discriminate; reflexivity.
Qed.

Lemma start_schedules e b :
  LiquidBot.isRunning b = false ->
  LiquidBot.isRunning (after (start e) b) = true /\
  LiquidBot.intervalId (after (start e) b) =
    Some (setInterval (BotConfig.checkInterval (LiquidBot.config b))).
Proof.
  intro Hstopped. unfold start, after. step. rewrite Hstopped. step.
  set (b1 := emit (EvLog success MsgStarted)
               (with_status (status_set_isRunning true) (set_isRunning true b))).
  destruct (runCycle_returns e b1) as [[] Hret].
  pose proof (runCycle_same_control e b1) as (_ & Hrun & _).
  destruct (runCycle e b1) as [r b2] eqn:E. cbn [fst snd] in *. subst r.
  rewrite (bind_run _ _ _ _ _ E). step. cbn. split; [exact Hrun|reflexivity].
Qed.

(** ** C9: a fee balance below the threshold *)

(** C9.  When the fee balance a cycle reads is strictly below the configured
    minimum threshold, the cycle makes no claim, buy or deposit call, leaves
    the three ledger fields as they were, emits the informational
    below-threshold entry, and still completes its balance refresh and its
    status publish: the balance read is its last call, the token balance of
    the status becomes what the read returned ([uiAmount || 0], and 0 when
    the read fails), and the snapshot of that status is its last event. *)
Theorem C9_below_threshold_is_a_no_op e b f :
  feeBalanceSOL_of e = Some f ->
  PrimFloat.ltb f (BotConfig.minFeeThreshold (LiquidBot.config b)) = true ->
  let b' := after (runCycle e) b in
  fst (runCycle e b) = Ret tt /\
  totalFeesCollected b' = totalFeesCollected b /\
  totalBuybacks b' = totalBuybacks b /\
  totalSolHeld b' = totalSolHeld b /\
  tokensHeld b' =
    match getTokenAccountBalance e with
    | Ok uiAmount => js_or_zero uiAmount
    | Err _ => 0%float
    end /\
  exists cs evs,
    LiquidBot.calls b' = LiquidBot.calls b ++ cs ++ [CallGetTokenAccountBalance] /\
    forallb not_monetary cs = true /\
    LiquidBot.emitted b' =
      LiquidBot.emitted b ++ evs ++
      [EvLog info (MsgFeesBelowThreshold f (BotConfig.minFeeThreshold (LiquidBot.config b)));
       EvStatusUpdate (LiquidBot.status b')].
Proof.
  intros Hf Hlt b'. apply ltb_not_ge in Hlt.
  destruct (cycle_reaches_settle e b f Hf)
    as (b4 & E & _ & (L1 & L2 & L3) & _ & _ & (cs & evs & Hcs & Hevs & Hmon & _)).
  subst b'. unfold after. rewrite E. unfold try_catch.
  rewrite (bind_run _ _ _ _ _ (settle_below e _ f _ _ b4 Hlt)).
  rewrite publish_run.
  cbn [fst snd]. split; [reflexivity|].
  split; [exact L1|]. split; [exact L2|]. split; [exact L3|].
  split; [reflexivity|].
  exists cs, evs. cbn. rewrite Hcs, Hevs, <- !app_assoc. auto.
Qed.

Lemma C9_witness :
  let e := with_token_balance (Ok (Some 1234.5%float))
             (answers (Ok false) false 10000000 1 (Ok "claim") (Ok "buy") (Ok "swap")
                (Ok "deposit")) in
  let b := new_bot 50 in
  feeBalanceSOL_of e = Some 0.01%float /\
  totalFeesCollected (after (runCycle e) b) = totalFeesCollected b /\
  tokensHeld (after (runCycle e) b) = 1234.5%float /\
  LiquidBot.calls (after (runCycle e) b) =
    [CallFetchBondingCurve; CallGetCreatorVaultBalance; CallGetTokenAccountBalance].
Proof.
  intros e b.
  assert (Hf : feeBalanceSOL_of e = Some 0.01%float) by reflexivity.
  assert (Hlt : PrimFloat.ltb 0.01 (BotConfig.minFeeThreshold (LiquidBot.config b)) = true)
    by reflexivity.
  pose proof (C9_below_threshold_is_a_no_op e b _ Hf Hlt) as (_ & Hfees & _ & _ & Htok & _).
  split; [exact Hf|]. split; [exact Hfees|]. split; [exact Htok|]. reflexivity.
Defined.

(** ** C8: a failed claim *)

(** C8.  When the fee balance reaches the threshold and the claim fails, the
    cycle leaves the three ledger fields as they were (so [totalFeesCollected]
    is unchanged), announces no buyback / hold split, makes no buy or deposit
    call, and emits two error entries: the failed claim and the cycle error.
    The cycle itself returns normally and leaves the running flag and the
    periodic trigger as they were, so that an installed trigger runs the
    next cycle at its next firing; and [start], whose initial cycle may be
    this one, still ends with the bot running and the trigger installed. *)
Theorem C8_failed_claim_aborts_the_harvest e b f err :
  feeBalanceSOL_of e = Some f ->
  js_ge f (BotConfig.minFeeThreshold (LiquidBot.config b)) = true ->
  claim_fails e err ->
  let b' := after (runCycle e) b in
  fst (runCycle e b) = Ret tt /\
  same_ledger b b' /\
  same_control b b' /\
  (exists cs evs,
     LiquidBot.calls b' = LiquidBot.calls b ++ cs /\
     forallb not_buy_or_deposit cs = true /\
     LiquidBot.emitted b' =
       LiquidBot.emitted b ++ evs ++
       [EvLog success (MsgFeesAboveThreshold (BotConfig.minFeeThreshold (LiquidBot.config b)));
        EvLog error (MsgFailedToClaim (error_message err));
        EvLog error (MsgCycleError (error_message err))] /\
     forallb not_split evs = true) /\
  (LiquidBot.intervalId b <> None -> forall e2, tick e2 b' = runCycle e2 b') /\
  (LiquidBot.isRunning b = false ->
   LiquidBot.isRunning (after (start e) b) = true /\
   LiquidBot.intervalId (after (start e) b) =
     Some (setInterval (BotConfig.checkInterval (LiquidBot.config b)))).
Proof.
  intros Hf Hge Hclaim b'.
  destruct (cycle_reaches_settle e b f Hf)
    as (b4 & E & _ & (L1 & L2 & L3) & _ & _ & (cs & evs & Hcs & Hevs & Hmon & Hsplit)).
  destruct (settle_claim_fails e (phase_result e b) f
              (BotConfig.minFeeThreshold (LiquidBot.config b))
              (BotConfig.buybackPercentage (LiquidBot.config b)) b4 err Hge Hclaim)
    as (ccs & Es & Hccs).
  pose proof (fold_push_fixed ccs
                (emit (EvLog success (MsgFeesAboveThreshold
                         (BotConfig.minFeeThreshold (LiquidBot.config b)))) b4))
    as (Fe & Fs & _).
  cbn zeta in Fe, Fs.
  split; [|split; [|split; [|split; [|split]]]].
  - destruct (runCycle_returns e b) as [[] H]. exact H.
  - subst b'. unfold after. rewrite E. unfold try_catch.
    rewrite (bind_run_throw _ _ _ _ _ Es). step.
    unfold same_ledger, totalFeesCollected, totalBuybacks, totalSolHeld in *.
    cbn. rewrite Fs. cbn. auto.
  - apply runCycle_same_control.
  - subst b'. unfold after. rewrite E. unfold try_catch.
    rewrite (bind_run_throw _ _ _ _ _ Es). step.
    exists (cs ++ ccs), evs. cbn. rewrite calls_fold_push, Fe. cbn.
    rewrite Hcs, Hevs, <- !app_assoc, forallb_app.
    rewrite (not_monetary_not_buy_or_deposit _ Hmon),
      (claim_call_not_buy_or_deposit _ Hccs). auto.
  - intros Htimer e2. unfold tick. step.
    destruct (runCycle_same_control e b) as (_ & _ & Hi).
    change (snd (runCycle e b)) with b' in Hi.
    rewrite Hi. now destruct (LiquidBot.intervalId b).
  - apply start_schedules.
Qed.

Lemma C8_witness :
  let e := answers (Ok false) false 20000000 1 (Err rpc_failure) (Ok "buy") (Ok "swap")
             (Ok "deposit") in
  let b := new_bot 50 in
  feeBalanceSOL_of e = Some 0.02%float /\
  claim_fails e rpc_failure /\
  same_ledger b (after (runCycle e) b) /\
  LiquidBot.intervalId (after (start e) b) = Some {| period := 60000 |}.
Proof.
  intros e b.
  assert (Hf : feeBalanceSOL_of e = Some 0.02%float) by reflexivity.
  assert (Hge : js_ge 0.02 (BotConfig.minFeeThreshold (LiquidBot.config b)) = true)
    by reflexivity.
  assert (Hclaim : claim_fails e rpc_failure).
  { right. exists 0%nat. split; reflexivity. }
  pose proof (C8_failed_claim_aborts_the_harvest e b _ rpc_failure Hf Hge Hclaim)
    as (_ & Hledger & _ & _ & _ & Hstart).
  split; [exact Hf|]. split; [exact Hclaim|]. split; [exact Hledger|].
  apply Hstart. reflexivity.
Defined.

(** ** Cycles whose claim is confirmed *)

Ltac step_ledger :=
  cbn [bind try_catch log modify get ret throw lift fst snd after cycle_handler
       add_totalFeesCollected add_totalBuybacks add_totalSolHeld].

Ltac step_ledger_in H :=
  cbn [bind try_catch log modify get ret throw lift fst snd after cycle_handler
       add_totalFeesCollected add_totalBuybacks add_totalSolHeld] in H.

Lemma claimFees_returns e b cs ev :
  claim_returns e cs ev ->
  claimFees e b = (Ret tt, emit ev (fold_left (fun b c => push_call c b) cs b)).
Proof.
  intros [(Hc & -> & ->)|(n & signature & Hc & Hs & -> & ->)].
  - now apply claimFees_no_instructions.
  - now apply claimFees_confirmed with (n := n).
Qed.

Lemma claim_returns_calls e cs ev : claim_returns e cs ev -> forallb claim_call cs = true.
Proof.
  intros [(_ & -> & _)|(n & signature & _ & _ & -> & _)]; reflexivity.
Qed.

Lemma claim_confirmed_returns e :
  claim_confirmed e ->
  exists signature,
    claim_returns e [CallCollectFeeInstructions; CallSendClaim]
      (EvLog success (MsgFeesClaimed signature)).
Proof.
  intros (n & signature & Hc & Hs). exists signature. right. now exists n, signature.
Qed.

(** A claim fails or returns. *)
Lemma claim_outcome e :
  (exists err, claim_fails e err) \/ (exists cs ev, claim_returns e cs ev).
Proof.
  unfold claim_fails, claim_returns.
  destruct (collectCoinCreatorFeeInstructions e) as [[|n]|err].
  - right. eexists _, _. left. repeat split.
  - destruct (sendClaim e) as [signature|err].
    + right. eexists _, _. right. exists n, signature. repeat split.
    + left. exists err. right. now exists n.
  - left. exists err. now left.
Qed.

Lemma settle_claimed e phase f threshold pct b cs ev :
  js_ge f threshold = true ->
  claim_returns e cs ev ->
  settle e phase f threshold pct b =
  match phase with
  | bonding_curve =>
    buybackOnBondingCurve e (buybackAmount_of f pct) ;;
    add_totalBuybacks (buybackAmount_of f pct) ;;
    add_totalSolHeld (holdAmount_of f pct)
  | pumpswap => handlePumpSwapPhase e (buybackAmount_of f pct) (holdAmount_of f pct)
  | unknown => ret tt
  end (harvested f threshold pct cs ev b).
Proof.
  intros Hge Hc. unfold settle. rewrite Hge. step.
  rewrite (bind_run _ _ _ _ _ (claimFees_returns e _ cs ev Hc)).
  reflexivity.
Qed.

Lemma buybackOnPumpSwap_grows e solAmount :
  respects (grows any_call any_event) (buybackOnPumpSwap e solAmount).
Proof.
  pose proof (grows_refl any_call any_event).
  pose proof (grows_trans any_call any_event).
  unfold_methods. repeat method_step; grows_leaf.
Qed.

Lemma addLiquidityToPumpSwap_grows e solAmount :
  respects (grows any_call any_event) (addLiquidityToPumpSwap e solAmount).
Proof.
  pose proof (grows_refl any_call any_event).
  pose proof (grows_trans any_call any_event).
  unfold_methods. repeat method_step; grows_leaf.
Qed.

(** A method that returns and is steady, run from [b]. *)
Lemma run_steady {A} (m : M A) b :
  returns m -> respects steady m -> respects (grows any_call any_event) m ->
  exists a b1, m b = (Ret a, b1) /\ steady b b1 /\ grows any_call any_event b b1.
Proof.
  intros Hr Hs Hg. destruct (Hr b) as [a Ha]. specialize (Hs b). specialize (Hg b).
  destruct (m b) as [r b1]. cbn in *. subst r. now exists a, b1.
Qed.

Lemma buybackOnPumpSwap_no_pool e solAmount b :
  LiquidBot.pumpSwapPool b = None ->
  buybackOnPumpSwap e solAmount b = (Ret tt, emit (EvLog warning MsgNoPoolToBuyback) b).
Proof.
  intro Hpool. unfold buybackOnPumpSwap, try_catch. step. now rewrite Hpool.
Qed.

Lemma handlePumpSwapPhase_no_pool e x h b :
  LiquidBot.pumpSwapPool b = None ->
  exists b',
    handlePumpSwapPhase e x h b = (Ret tt, b') /\
    same_control b b' /\
    totalFeesCollected b' = totalFeesCollected b /\
    totalBuybacks b' = (totalBuybacks b + x)%float /\
    totalSolHeld b' = (totalSolHeld b + h)%float /\
    grows not_monetary any_event b b'.
Proof.
  intro Hpool. unfold handlePumpSwapPhase. step. rewrite Hpool. step.
  rewrite (bind_run _ _ _ _ _
             (buybackOnPumpSwap_no_pool e x (emit (EvLog warning MsgPoolNotDetected) b) Hpool)).
  step_ledger.
  eexists. split; [reflexivity|]. repeat split.
  exists [], [EvLog warning MsgPoolNotDetected; EvLog warning MsgNoPoolToBuyback].
  cbn. rewrite app_nil_r, <- app_assoc. auto.
Qed.

Lemma addLiquidityToPumpSwap_confirmed e solAmount b pool lamports lpToken signature :
  LiquidBot.pumpSwapPool b = Some pool ->
  liquiditySolanaState e = Ok tt ->
  lamports_of solAmount = Ok lamports ->
  depositAutocompleteBaseAndLpTokenFromQuote e = Ok lpToken ->
  sendDeposit e = Ok signature ->
  addLiquidityToPumpSwap e solAmount b =
  (Ret tt,
   emit (EvLog success (MsgLiquidityAdded signature))
     (push_call (CallDeposit solAmount)
        (emit (EvLog info (MsgAddingLiquidity solAmount lpToken))
           (push_call CallLiquidityState b)))).
Proof.
  intros Hpool Hl Hn Hd Hs. unfold addLiquidityToPumpSwap, try_catch. step.
  rewrite Hpool. unfold bind, await, lift, log, modify. now rewrite Hl, Hn, Hd, Hs.
Qed.

Lemma handlePumpSwapPhase_pool e x h b pool :
  LiquidBot.pumpSwapPool b = Some pool ->
  exists b',
    handlePumpSwapPhase e x h b = (Ret tt, b') /\
    same_control b b' /\
    totalFeesCollected b' = totalFeesCollected b /\
    totalBuybacks b' = (totalBuybacks b + x)%float /\
    totalSolHeld b' = 0%float /\
    grows any_call any_event b b' /\
    (deposit_confirmed e (totalSolHeld b + h)%float ->
     In (CallDeposit (totalSolHeld b + h)%float) (LiquidBot.calls b')).
Proof.
  intro Hpool. unfold handlePumpSwapPhase. step. rewrite Hpool.
  set (total := (BotStatus.totalSolHeld (LiquidBot.status b) + h)%float).
  set (b1 := emit (EvLog info (MsgPumpSwapPhase total)) b).
  destruct (run_steady (buybackOnPumpSwap e x) b1 (buybackOnPumpSwap_returns e x)
              (buybackOnPumpSwap_steady e x) (buybackOnPumpSwap_grows e x))
    as ([] & b2 & E2 & S2 & G2).
  set (b3 := with_status
               (fun s => status_set_totalBuybacks (BotStatus.totalBuybacks s + x)%float s) b2).
  destruct (run_steady (addLiquidityToPumpSwap e total) b3
              (addLiquidityToPumpSwap_returns e total)
              (addLiquidityToPumpSwap_steady e total)
              (addLiquidityToPumpSwap_grows e total))
    as ([] & b4 & E4 & S4 & G4).
  exists (with_status (status_set_totalSolHeld 0%float) b4).
  split.
  { step. fold b1. rewrite (bind_run _ _ _ _ _ E2). step_ledger. fold b3.
    rewrite (bind_run _ _ _ _ _ E4). reflexivity. }
  destruct S2 as ((c1 & c2 & c3) & (l1 & l2 & l3) & p2 & _).
  destruct S4 as ((d1 & d2 & d3) & (m1 & m2 & m3) & _ & _).
  unfold totalFeesCollected, totalBuybacks, totalSolHeld in *.
  split; [|split; [|split; [|split; [|split]]]].
  - repeat split; cbn; [rewrite d1|rewrite d2|rewrite d3]; cbn; assumption.
  - cbn. rewrite m1. cbn. exact l1.
  - cbn. rewrite m2. cbn. now rewrite l2.
  - reflexivity.
  - eapply grows_trans; [apply grows_emit with (ev := EvLog info (MsgPumpSwapPhase total));
                          reflexivity|].
    fold b1. eapply grows_trans; [exact G2|].
    eapply grows_trans; [apply grows_status|]. fold b3.
    eapply grows_trans; [exact G4|apply grows_status].
  - intros (Hl & (lamports & Hn) & (lpToken & Hd) & (signature & Hs)).
    assert (Hpool3 : LiquidBot.pumpSwapPool b3 = Some pool).
    { unfold b3. cbn. unfold same_pool in p2. rewrite p2. exact Hpool. }
    rewrite (addLiquidityToPumpSwap_confirmed e total b3 pool lamports lpToken signature
               Hpool3 Hl Hn Hd Hs) in E4.
    injection E4 as <-. cbn. fold total.
    apply in_or_app. right. now left.
Qed.

Lemma harvested_fields f threshold pct cs ev b :
  let b7 := harvested f threshold pct cs ev b in
  same_control b b7 /\
  totalFeesCollected b7 = (totalFeesCollected b + f)%float /\
  totalBuybacks b7 = totalBuybacks b /\
  totalSolHeld b7 = totalSolHeld b /\
  LiquidBot.pumpSwapPool b7 = LiquidBot.pumpSwapPool b /\
  LiquidBot.calls b7 = LiquidBot.calls b ++ cs /\
  LiquidBot.emitted b7 =
    LiquidBot.emitted b ++
    [EvLog success (MsgFeesAboveThreshold threshold);
     ev;
     EvLog info (MsgBuybackAmount (buybackAmount_of f pct) pct);
     EvLog info (MsgHoldAmount (holdAmount_of f pct) (100 - pct)%float)].
Proof.
  pose proof (fold_push_fixed cs (emit (EvLog success (MsgFeesAboveThreshold threshold)) b))
    as (He & Hs & Hc & Hr & Hi & Hp).
  pose proof (calls_fold_push cs (emit (EvLog success (MsgFeesAboveThreshold threshold)) b))
    as Hcs.
  cbn zeta in *.
  unfold harvested, same_control, totalFeesCollected, totalBuybacks, totalSolHeld.
  cbn. rewrite He, Hs, Hc, Hr, Hi, Hp, Hcs. cbn. rewrite <- !app_assoc. repeat split.
Qed.

(** Finds the two entries of the split in the events of a cycle. *)
Ltac split_announced evs ev :=
  eexists (evs ++ [EvLog success (MsgFeesAboveThreshold _); ev]);
  eexists; rewrite <- ?app_assoc; cbn; rewrite <- ?app_assoc; reflexivity.

(** Runs the [publish] block that hypothesis [H] has come to. *)
Ltac published H :=
  match type of H with
  | context [publish ?e ?s] =>
    let tokens := fresh "tokens" in
    let Ep := fresh "Ep" in
    destruct (publish_result e s) as (tokens & Ep); rewrite Ep in H; clear Ep
  end.

(** What a cycle whose claim returns does to the ledger, phase by phase. *)
Lemma claimed_harvest e b f ccs ev :
  feeBalanceSOL_of e = Some f ->
  js_ge f (BotConfig.minFeeThreshold (LiquidBot.config b)) = true ->
  claim_returns e ccs ev ->
  let pct := BotConfig.buybackPercentage (LiquidBot.config b) in
  let x := buybackAmount_of f pct in
  let h := holdAmount_of f pct in
  let b' := after (runCycle e) b in
  totalFeesCollected b' = (totalFeesCollected b + f)%float /\
  (exists evs1 evs2,
     LiquidBot.emitted b' =
       LiquidBot.emitted b ++ evs1 ++
       [EvLog info (MsgBuybackAmount x pct);
        EvLog info (MsgHoldAmount h (100 - pct)%float)] ++ evs2) /\
  match phase_result e b with
  | bonding_curve =>
    match curve_buy_thrown e x with
    | None =>
      totalBuybacks b' = (totalBuybacks b + x)%float /\
      totalSolHeld b' = (totalSolHeld b + h)%float
    | Some _ =>
      totalBuybacks b' = totalBuybacks b /\ totalSolHeld b' = totalSolHeld b
    end
  | pumpswap =>
    totalBuybacks b' = (totalBuybacks b + x)%float /\
    match pool_after_phase e b with
    | None => totalSolHeld b' = (totalSolHeld b + h)%float
    | Some _ =>
      totalSolHeld b' = 0%float /\
      (deposit_confirmed e (totalSolHeld b + h)%float ->
       In (CallDeposit (totalSolHeld b + h)%float) (LiquidBot.calls b'))
    end
  | unknown =>
    totalBuybacks b' = totalBuybacks b /\
    totalSolHeld b' = totalSolHeld b /\
    exists cs,
      LiquidBot.calls b' = LiquidBot.calls b ++ cs /\
      forallb not_buy_or_deposit cs = true
  end.
Proof.
  intros Hf Hge Hclaim pct x h b'.
  destruct (cycle_reaches_settle e b f Hf)
    as (b4 & E & _ & (L1 & L2 & L3) & Hpool & _ & (cs & evs & Hcs & Hevs & Hmon & _)).
  pose proof (settle_claimed e (phase_result e b) f _ pct b4 ccs ev Hge Hclaim) as Es.
  pose proof (harvested_fields f (BotConfig.minFeeThreshold (LiquidBot.config b)) pct
                ccs ev b4) as (_ & H1 & H2 & H3 & H4 & H5 & H6).
  pose proof (claim_returns_calls e ccs ev Hclaim) as Hccs.
  cbn zeta in *.
  set (b7 := harvested f (BotConfig.minFeeThreshold (LiquidBot.config b)) pct ccs ev b4)
    in *.
  subst b'. unfold after.
  pose proof E as Erun. fold pct in Erun. unfold try_catch, bind at 1 in Erun.
  rewrite Es in Erun. clear Es E. clearbody b7. fold x in Erun. fold h in Erun.
  fold x in H6. fold h in H6.
  unfold totalFeesCollected, totalBuybacks, totalSolHeld in *.
  destruct (phase_result e b).
  - (* bonding curve *)
    unfold curve_buy_thrown.
    destruct (lamports_of x) as [lamports|err] eqn:Elam;
      [destruct (sendBondingCurveBuy e) as [tx|err] eqn:Ebuy|].
    + rewrite (bind_run _ _ _ _ _
                 (buybackOnBondingCurve_confirmed e b7 x lamports tx Elam Ebuy)) in Erun.
      step_ledger_in Erun.
      published Erun. rewrite Erun. cbn.
      rewrite H1, H2, H3, H6, L1, L2, L3, Hevs.
      split; [reflexivity|]. split; [|split; reflexivity].
      split_announced evs ev.
    + rewrite (bind_run_throw _ _ _ _ _
                 (buybackOnBondingCurve_fails e b7 x lamports err Elam Ebuy)) in Erun.
      step_ledger_in Erun. rewrite Erun. cbn.
      rewrite H1, H2, H3, H6, L1, L2, L3, Hevs.
      split; [reflexivity|]. split; [|split; reflexivity].
      split_announced evs ev.
    + rewrite (bind_run_throw _ _ _ _ _
                 (buybackOnBondingCurve_no_lamports e b7 x err Elam)) in Erun.
      step_ledger_in Erun. rewrite Erun. cbn.
      rewrite H1, H2, H3, H6, L1, L2, L3, Hevs.
      split; [reflexivity|]. split; [|split; reflexivity].
      split_announced evs ev.
  - (* pumpswap *)
    rewrite <- Hpool, <- H4.
    destruct (LiquidBot.pumpSwapPool b7) as [pool|] eqn:Epool.
    + destruct (handlePumpSwapPhase_pool e x h b7 pool Epool)
        as (b8 & E8 & _ & F1 & F2 & F3 & (cs8 & evs8 & _ & Hevs8 & _) & Hdep).
      rewrite E8 in Erun.
      published Erun. rewrite Erun.
      unfold totalFeesCollected, totalBuybacks, totalSolHeld in *. cbn.
      rewrite F1, F2, F3, H1, H2, Hevs8, H6, L1, L2, Hevs.
      split; [reflexivity|]. split; [|split; [reflexivity|split; [reflexivity|]]].
      * split_announced evs ev.
      * intro Hd. apply in_or_app. left. rewrite <- L3, <- H3 in Hd |- *. now apply Hdep.
    + destruct (handlePumpSwapPhase_no_pool e x h b7 Epool)
        as (b8 & E8 & _ & F1 & F2 & F3 & (cs8 & evs8 & _ & Hevs8 & _)).
      rewrite E8 in Erun.
      published Erun. rewrite Erun.
      unfold totalFeesCollected, totalBuybacks, totalSolHeld in *. cbn.
      rewrite F1, F2, F3, H1, H2, H3, Hevs8, H6, L1, L2, L3, Hevs.
      split; [reflexivity|]. split; [|split; reflexivity].
      split_announced evs ev.
  - (* unknown *)
    step_ledger_in Erun. published Erun. rewrite Erun. cbn.
    rewrite H1, H2, H3, H5, H6, L1, L2, L3, Hevs, Hcs.
    split; [reflexivity|]. split; [|split; [reflexivity|split; [reflexivity|]]].
    + split_announced evs ev.
    + eexists. rewrite <- !app_assoc. split; [reflexivity|].
      rewrite !forallb_app, (not_monetary_not_buy_or_deposit _ Hmon),
        (claim_call_not_buy_or_deposit _ Hccs). reflexivity.
Qed.

(** ** Phase and pool after a cycle *)

(** The cycle from the conversion of the fee balance on: it leaves phase,
    pool and control fields alone. *)
Lemma cycle_tail_fixed e phase z :
  respects (fun b b' => same_control b b' /\ same_pool b b' /\ same_phase b b')
    (try_catch
       (feeBalanceNumber <- lift (BN_toNumber z) ;;
        log info (MsgCreatorFeeBalance (feeBalanceNumber / 1e9)) ;;
        current <- get ;;
        settle e phase (feeBalanceNumber / 1e9)
          (BotConfig.minFeeThreshold (LiquidBot.config current))
          (BotConfig.buybackPercentage (LiquidBot.config current)) ;;
        publish e)
       cycle_handler).
Proof.
  assert (Hr : forall b, same_control b b /\ same_pool b b /\ same_phase b b)
    by (repeat split).
  assert (Ht : forall b1 b2 b3 : LiquidBot.t,
             same_control b1 b2 /\ same_pool b1 b2 /\ same_phase b1 b2 ->
             same_control b2 b3 /\ same_pool b2 b3 /\ same_phase b2 b3 ->
             same_control b1 b3 /\ same_pool b1 b3 /\ same_phase b1 b3).
  { unfold same_control, same_pool, same_phase. intuition congruence. }
  unfold_methods. repeat method_step; intros b0; repeat split.
Qed.

(** A cycle ends in the phase its detector reported and with the pool its
    detector cached, whatever happens afterwards. *)
Lemma runCycle_phase_pool e b :
  currentPhase (after (runCycle e) b) = phase_result e b /\
  LiquidBot.pumpSwapPool (after (runCycle e) b) = pool_after_phase e b.
Proof.
  destruct (cycle_reaches_conversion e b) as (b3 & E & _ & _ & P & F & _).
  unfold after. rewrite E.
  destruct (cycle_tail_fixed e (phase_result e b) (fee_lamports e) b3) as (_ & Hp & Hf).
  unfold same_pool, same_phase in *. now rewrite Hp, Hf.
Qed.

Lemma run_cycles_keep_pool es : forall b, pool_cached b -> pool_cached (run_cycles es b).
Proof.
  induction es as [|e es IH]; intros b Hb; cbn.
  - exact Hb.
  - apply IH. now apply (runCycle_keeps_pool e b).
Qed.

Lemma below_threshold_ledger e b f :
  feeBalanceSOL_of e = Some f ->
  js_ge f (BotConfig.minFeeThreshold (LiquidBot.config b)) = false ->
  same_ledger b (after (runCycle e) b).
Proof.
  intros Hf Hlt.
  destruct (cycle_reaches_settle e b f Hf) as (b4 & E & _ & (L1 & L2 & L3) & _).
  unfold after. rewrite E. unfold try_catch.
  rewrite (bind_run _ _ _ _ _ (settle_below e _ f _ _ b4 Hlt)).
  match goal with
  | |- context [publish ?e ?s] => destruct (publish_result e s) as (tokens & ->)
  end.
  repeat split; assumption.
Qed.

Lemma failed_claim_ledger e b f err :
  feeBalanceSOL_of e = Some f ->
  js_ge f (BotConfig.minFeeThreshold (LiquidBot.config b)) = true ->
  claim_fails e err ->
  same_ledger b (after (runCycle e) b).
Proof.
  intros Hf Hge Hclaim.
  destruct (cycle_reaches_settle e b f Hf) as (b4 & E & _ & (L1 & L2 & L3) & _).
  destruct (settle_claim_fails e (phase_result e b) f
              (BotConfig.minFeeThreshold (LiquidBot.config b))
              (BotConfig.buybackPercentage (LiquidBot.config b)) b4 err Hge Hclaim)
    as (ccs & Es & _).
  pose proof (fold_push_fixed ccs
                (emit (EvLog success (MsgFeesAboveThreshold
                         (BotConfig.minFeeThreshold (LiquidBot.config b)))) b4))
    as (_ & Fs & _).
  cbn zeta in Fs.
  unfold after. rewrite E. unfold try_catch.
  rewrite (bind_run_throw _ _ _ _ _ Es). step.
  unfold same_ledger, totalFeesCollected, totalBuybacks, totalSolHeld in *.
  cbn. rewrite Fs. cbn. auto.
Qed.


(** In a cycle that starts from finite totals, with a buyback percentage that
    is finite and at least zero and a vault balance that is not negative,
    neither [totalFeesCollected] nor [totalBuybacks] decreases. *)
Lemma accumulators_do_not_decrease e b :
  js_isFinite (totalFeesCollected b) = true ->
  js_isFinite (totalBuybacks b) = true ->
  js_isFinite (BotConfig.buybackPercentage (LiquidBot.config b)) = true ->
  PrimFloat.leb 0 (BotConfig.buybackPercentage (LiquidBot.config b)) = true ->
  0 <= fee_lamports e ->
  let b' := after (runCycle e) b in
  PrimFloat.leb (totalFeesCollected b) (totalFeesCollected b') = true /\
  PrimFloat.leb (totalBuybacks b) (totalBuybacks b') = true.
Proof.
  intros Ff Fb Fp Hp Hz b'. subst b'.
  assert (Hsame : same_ledger b (after (runCycle e) b) ->
                  PrimFloat.leb (totalFeesCollected b)
                    (totalFeesCollected (after (runCycle e) b)) = true /\
                  PrimFloat.leb (totalBuybacks b)
                    (totalBuybacks (after (runCycle e) b)) = true).
  { intros (-> & -> & _). split; now apply leb_refl_finite. }
  destruct (feeBalanceSOL_of e) as [A|] eqn:Hf.
  2:{ now apply Hsame, cycle_conversion_throws. }
  destruct (fee_read_finite_nonneg e A Hf Hz) as [FA HA].
  destruct (js_ge A (BotConfig.minFeeThreshold (LiquidBot.config b))) eqn:Hge.
  2:{ now apply Hsame, (below_threshold_ledger e b A). }
  destruct (claim_outcome e) as [(err & Hc)|(cs & ev & Hc)].
  { now apply Hsame, (failed_claim_ledger e b A err). }
  pose proof (claimed_harvest e b A cs ev Hf Hge Hc) as (Hfees & _ & H).
  cbn zeta in H.
  pose proof (buybackAmount_nonneg A _ FA Fp HA Hp) as Hx.
  split.
  - rewrite Hfees. now apply add_nonneg_mono.
  - destruct (phase_result e b).
    + destruct (curve_buy_thrown e _); destruct H as [-> _].
      * now apply leb_refl_finite.
      * now apply add_nonneg_mono.
    + destruct H as [-> _]. now apply add_nonneg_mono.
    + destruct H as [-> _]. now apply leb_refl_finite.
Qed.

(** * The claims *)

(** ** C1: the held reserve and the deposit *)

(** C1 (the code departs from it).  A bot gathers a reserve of 0.05 SOL on
    the curve; in the next cycle the token has graduated, the deposit of
    0.05 + 0.01 SOL is sent and fails, the failure is logged, and the held
    reserve is reset to zero all the same. *)
Theorem C1_failed_deposit_resets_the_reserve :
  let e1 := fees_on_curve 100000000 in
  let e2 := fees_on_pool (Ok "swap") (Err rpc_failure) in
  let b1 := after (runCycle e1) (new_bot 50) in
  let b2 := after (runCycle e2) b1 in
  totalSolHeld b1 = 0.05%float /\
  currentPhase b2 = pumpswap /\
  sendDeposit e2 = Err rpc_failure /\
  In (CallDeposit (0.05 + 0.01)%float) (LiquidBot.calls b2) /\
  In (EvLog error (MsgAddLiquidityFailed "Transaction was not confirmed"))
     (LiquidBot.emitted b2) /\
  totalSolHeld b2 = 0%float.
Proof.
  vm_compute. repeat split; auto 30.
Qed.

(** ** C2: the ledger and the on-chain confirmations *)

(** C2 (the code departs from it).  On the pool, the buy is sent and fails,
    and [totalBuybacks] grows by the buyback amount all the same; when the
    token has graduated but no pool is cached, no buy is even sent and
    [totalBuybacks] grows as well. *)
Theorem C2_unconfirmed_buy_is_booked :
  let e := fees_on_pool (Err rpc_failure) (Ok "deposit") in
  let b' := after (runCycle e) (new_bot 50) in
  let b'' := after (runCycle graduated_without_pool) (new_bot 50) in
  sendPumpSwapBuy e = Err rpc_failure /\
  In (CallBuyOnPumpSwap 0.01) (LiquidBot.calls b') /\
  In (EvLog error (MsgPumpSwapBuybackFailed "Transaction was not confirmed"))
     (LiquidBot.emitted b') /\
  totalBuybacks (new_bot 50) = 0%float /\
  totalBuybacks b' = 0.01%float /\
  filter buy_call (LiquidBot.calls b'') = [] /\
  totalBuybacks b'' = 0.01%float.
Proof.
  vm_compute. repeat split; auto 30.
Qed.

(** ** C4: the accumulators *)

(** C4 (the code departs from it).  When the SDK generates no claim
    instruction, nothing is claimed: no claim transaction is sent and a
    warning is logged; [totalFeesCollected] grows by the fee balance all the
    same, and again in the next cycle, which reads the same unclaimed
    balance. *)
Theorem C4_fees_booked_without_a_claim :
  let e := no_claim_instructions in
  let b1 := after (runCycle e) (new_bot 50) in
  let b2 := after (runCycle e) b1 in
  feeBalanceSOL_of e = Some 0.02%float /\
  filter claim_call (LiquidBot.calls b1) = [CallCollectFeeInstructions] /\
  In (EvLog warning MsgNoClaimInstructions) (LiquidBot.emitted b1) /\
  totalFeesCollected (new_bot 50) = 0%float /\
  totalFeesCollected b1 = 0.02%float /\
  filter claim_call (LiquidBot.calls b2) =
    [CallCollectFeeInstructions; CallCollectFeeInstructions] /\
  totalFeesCollected b2 = 0.04%float.
Proof.
  vm_compute. repeat split; auto 30.
Qed.

(** ** C6: the unknown phase *)

(** C6 (the code departs from it).  In a cycle whose phase is unknown and
    whose claim is confirmed, no buy or deposit call is made and the fees are
    added to [totalFeesCollected]; the hold amount is announced, but it is
    not added to the held reserve, which stays as it was. *)
Theorem C6_unknown_phase_drops_the_hold e b f :
  feeBalanceSOL_of e = Some f ->
  js_ge f (BotConfig.minFeeThreshold (LiquidBot.config b)) = true ->
  claim_confirmed e ->
  phase_result e b = unknown ->
  let pct := BotConfig.buybackPercentage (LiquidBot.config b) in
  let b' := after (runCycle e) b in
  currentPhase b' = unknown /\
  totalFeesCollected b' = (totalFeesCollected b + f)%float /\
  In (EvLog info (MsgHoldAmount (holdAmount_of f pct) (100 - pct)%float))
     (LiquidBot.emitted b') /\
  totalSolHeld b' = totalSolHeld b /\
  totalBuybacks b' = totalBuybacks b /\
  exists cs,
    LiquidBot.calls b' = LiquidBot.calls b ++ cs /\
    forallb not_buy_or_deposit cs = true.
Proof.
  intros Hf Hge Hclaim Hphase pct b'.
  destruct (claim_confirmed_returns e Hclaim) as (signature & Hret).
  pose proof (claimed_harvest e b f _ _ Hf Hge Hret) as (Hfees & (evs1 & evs2 & Hev) & H).
  cbn zeta in *. rewrite Hphase in H. destruct H as (Hb & Hh & Hcs).
  split; [|split; [|split; [|split; [|split]]]]; trivial.
  - rewrite <- Hphase. apply runCycle_phase_pool.
  - subst b'. rewrite Hev. apply in_or_app. right. apply in_or_app. right.
    cbn. auto.
Qed.

Lemma C6_witness :
  let e := probe_fails in
  let b := new_bot 50 in
  phase_result e b = unknown /\
  totalFeesCollected (after (runCycle e) b) = 0.02%float /\
  totalSolHeld (after (runCycle e) b) = 0%float.
Proof.
  intros e b.
  assert (Hf : feeBalanceSOL_of e = Some 0.02%float) by reflexivity.
  assert (Hge : js_ge 0.02 (BotConfig.minFeeThreshold (LiquidBot.config b)) = true)
    by reflexivity.
  assert (Hclaim : claim_confirmed e) by (exists 0%nat, "claim"; split; reflexivity).
  assert (Hphase : phase_result e b = unknown) by reflexivity.
  pose proof (C6_unknown_phase_drops_the_hold e b _ Hf Hge Hclaim Hphase)
    as (_ & Hfees & _ & Hheld & _).
  split; [exact Hphase|]. split; [exact Hfees|exact Hheld].
Defined.

(** ** C3: the phase over the cycles *)

(** C3, as stated, fails: the pool is confirmed and the phase is pumpswap;
    in the next cycle the curve probe answers "not complete" and the phase
    is bonding_curve again. *)
Lemma C3_counterexample :
  let b1 := after (runCycle (fees_on_pool (Ok "swap") (Ok "deposit"))) (new_bot 50) in
  let b2 := after (runCycle stale_curve_probe) b1 in
  currentPhase b1 = pumpswap /\
  LiquidBot.pumpSwapPool b1 = Some "pool" /\
  LiquidBot.pumpSwapPool b2 = Some "pool" /\
  currentPhase b2 = bonding_curve.
Proof. vm_compute. repeat split. Qed.

(** C3, amended.  Once a pool is cached it stays cached over any sequence of
    cycles, and a later cycle never reports the unknown phase: it reports
    bonding_curve exactly when its own curve probe succeeds and answers
    "not complete", and pumpswap in every other case. *)
Theorem C3_phase_with_a_cached_pool b es e :
  pool_cached b ->
  let b1 := run_cycles es b in
  let b2 := after (runCycle e) b1 in
  pool_cached b1 /\ pool_cached b2 /\
  currentPhase b2 <> unknown /\
  (currentPhase b2 = bonding_curve <-> fetchBondingCurve e = Ok false) /\
  (currentPhase b2 = pumpswap <-> fetchBondingCurve e <> Ok false).
Proof.
  intros Hb b1 b2.
  assert (H1 : pool_cached b1) by now apply run_cycles_keep_pool.
  assert (H2 : pool_cached b2) by now apply (runCycle_keeps_pool e b1).
  destruct (runCycle_phase_pool e b1) as [Hphase _]. fold b2 in Hphase.
  split; [exact H1|]. split; [exact H2|].
  rewrite Hphase. unfold phase_result, pool_after_detect.
  unfold pool_cached in H1.
  destruct (fetchBondingCurve e) as [[|]|err].
  - repeat split; intros; congruence.
  - repeat split; intros; congruence.
  - destruct (canonicalPumpPoolPda e) as [p|], (getAccountInfo e) as [[|]|];
      try destruct (LiquidBot.pumpSwapPool b1);
      repeat split; intros; congruence.
Qed.

Lemma C3_witness :
  let b := after (runCycle (fees_on_pool (Ok "swap") (Ok "deposit"))) (new_bot 50) in
  pool_cached b /\
  currentPhase (after (runCycle probe_fails) (run_cycles [stale_curve_probe] b)) = pumpswap.
Proof.
  intro b.
  assert (Hb : pool_cached b) by (vm_compute; discriminate).
  pose proof (C3_phase_with_a_cached_pool b [stale_curve_probe] probe_fails Hb)
    as (_ & _ & _ & _ & Hswap).
  split; [exact Hb|]. apply Hswap. discriminate.
Defined.

(** ** C7: a completed curve without a pool account *)

(** C7, as stated, fails: the curve is complete, the derived pool account
    does not exist, and the detector returns pumpswap, not unknown. *)
Lemma C7_counterexample :
  let e := graduated_without_pool in
  fetchBondingCurve e = Ok true /\
  getAccountInfo e = Ok false /\
  fst (checkTokenPhase e (new_bot 50)) = Ret pumpswap /\
  LiquidBot.pumpSwapPool (snd (checkTokenPhase e (new_bot 50))) = None.
Proof. vm_compute. repeat split. Qed.

(** C7, amended.  When the curve probe succeeds and reports the curve
    complete but the account at the derived pool address does not exist, the
    detector returns pumpswap and leaves the pool cache as it was (unset if
    no pool was detected before); the cycle ends in the pumpswap phase.  The
    detector returns unknown, and the cycle ends in the unknown phase,
    exactly when the probe itself fails and no pool is cached or found: no
    pool was cached before, and the lookup does not find the account at the
    derived address. *)
Theorem C7_completed_curve_is_pumpswap e b :
  (fetchBondingCurve e = Ok true ->
   getAccountInfo e = Ok false ->
   fst (checkTokenPhase e b) = Ret pumpswap /\
   LiquidBot.pumpSwapPool (snd (checkTokenPhase e b)) = LiquidBot.pumpSwapPool b /\
   currentPhase (after (runCycle e) b) = pumpswap /\
   LiquidBot.pumpSwapPool (after (runCycle e) b) = LiquidBot.pumpSwapPool b) /\
  (fst (checkTokenPhase e b) = Ret unknown <->
   (exists err, fetchBondingCurve e = Err err) /\
   LiquidBot.pumpSwapPool b = None /\
   ~ (exists pool, canonicalPumpPoolPda e = Ok pool /\ getAccountInfo e = Ok true)) /\
  (currentPhase (after (runCycle e) b) = unknown <->
   fst (checkTokenPhase e b) = Ret unknown).
Proof.
  destruct (checkTokenPhase_result e b) as (b1 & E & P).
  destruct (runCycle_phase_pool e b) as [Hp Hq].
  rewrite E. cbn [fst snd]. rewrite P, Hp, Hq.
  split; [|split].
  - intros Hcurve Hacct.
    assert (Hphase : phase_result e b = pumpswap).
    { unfold phase_result. now rewrite Hcurve. }
    assert (Hpool : pool_after_phase e b = LiquidBot.pumpSwapPool b).
    { unfold pool_after_phase, pool_after_detect. rewrite Hcurve, Hacct.
      now destruct (canonicalPumpPoolPda e). }
    rewrite Hphase, Hpool. repeat split.
  - unfold phase_result, pool_after_detect.
    destruct (fetchBondingCurve e) as [[|]|err].
    + split; [discriminate|]. intros ((err & H) & _). discriminate.
    + split; [discriminate|]. intros ((err & H) & _). discriminate.
    + destruct (canonicalPumpPoolPda e) as [pool|err1];
        [destruct (getAccountInfo e) as [[|]|err2]|].
      * split; [discriminate|]. intros (_ & _ & H). elim H. now exists pool.
      * destruct (LiquidBot.pumpSwapPool b).
        -- split; [discriminate|]. intros (_ & H & _). discriminate.
        -- split; [|reflexivity].
           intros _. split; [now exists err|]. split; [reflexivity|].
           intros (pool' & _ & H). discriminate.
      * destruct (LiquidBot.pumpSwapPool b).
        -- split; [discriminate|]. intros (_ & H & _). discriminate.
        -- split; [|reflexivity].
           intros _. split; [now exists err|]. split; [reflexivity|].
           intros (pool' & _ & H). discriminate.
      * destruct (LiquidBot.pumpSwapPool b).
        -- split; [discriminate|]. intros (_ & H & _). discriminate.
        -- split; [|reflexivity].
           intros _. split; [now exists err|]. split; [reflexivity|].
           intros (pool' & H & _). discriminate.
  - split; intro H; [now rewrite H|now injection H].
Qed.

Lemma C7_witness :
  let e := graduated_without_pool in
  currentPhase (after (runCycle e) (new_bot 50)) = pumpswap /\
  LiquidBot.pumpSwapPool (after (runCycle e) (new_bot 50)) = None /\
  currentPhase (after (runCycle probe_fails) (new_bot 50)) = unknown.
Proof.
  intro e.
  assert (Hcurve : fetchBondingCurve e = Ok true) by reflexivity.
  assert (Hacct : getAccountInfo e = Ok false) by reflexivity.
  pose proof (C7_completed_curve_is_pumpswap e (new_bot 50)) as (H & _).
  destruct (H Hcurve Hacct) as (_ & _ & Hphase & Hpool).
  pose proof (C7_completed_curve_is_pumpswap probe_fails (new_bot 50))
    as (_ & Hunknown & Hcycle).
  split; [exact Hphase|]. split; [exact Hpool|].
  apply Hcycle, Hunknown. split; [now exists rpc_failure|]. split; [reflexivity|].
  intros (pool & _ & Hfound). discriminate.
Defined.

(** ** C5: the harvest split *)




(** ** C10: the buyback percentage is not validated *)




(** ** A cycle from its first call to its closing event *)

Lemma probe_exact e b :
  LiquidBot.calls (snd (probe e b)) =
    LiquidBot.calls b ++ phase_calls e ++ [CallGetCreatorVaultBalance] /\
  LiquidBot.pumpSwapPool (snd (probe e b)) = pool_after_phase e b /\
  currentPhase (snd (probe e b)) = phase_result e b /\
  lastCheck (snd (probe e b)) = Some (now e).
Proof.
  unfold probe, checkTokenPhase, detectPumpSwapPool, getCreatorFeeBalance,
    phase_calls, detect_calls, pool_after_phase, phase_result, pool_after_detect,
    currentPhase, lastCheck, try_catch, bind, await, lift, log, modify, get, ret.
  destruct b as [cfg running timer st pool evs cs].
  destruct (fetchBondingCurve e) as [[|]|?]; cbn;
    try (destruct (canonicalPumpPoolPda e) as [p|?]; cbn);
    try (destruct (getAccountInfo e) as [[|]|?]; cbn);
    try (destruct pool; cbn);
    destruct (getCreatorVaultBalanceBothPrograms e); cbn;
    rewrite <- ?app_assoc; repeat split.
Qed.

Lemma runCycle_probe e b :
  runCycle e b =
  try_catch
    (feeBalanceNumber <- lift (BN_toNumber (fee_lamports e)) ;;
     log info (MsgCreatorFeeBalance (feeBalanceNumber / 1e9)) ;;
     current <- get ;;
     settle e (phase_result e b) (feeBalanceNumber / 1e9)
       (BotConfig.minFeeThreshold (LiquidBot.config current))
       (BotConfig.buybackPercentage (LiquidBot.config current)) ;;
     publish e)
    cycle_handler (snd (probe e b)).
Proof.
  rewrite runCycle_blocks. unfold probe, try_catch. step.
  set (b0 := with_status _ _).
  destruct (checkTokenPhase_result e b0) as (b1 & E1 & _).
  rewrite !(bind_run _ _ _ _ _ E1). step.
  match goal with |- context [getCreatorFeeBalance e ?s] =>
    destruct (getCreatorFeeBalance_result e s) as (b3 & E3) end.
  rewrite (bind_run _ _ _ _ _ E3), E3. reflexivity.
Qed.

Lemma settle_run e phase f threshold pct b :
  fst (settle e phase f threshold pct b) =
    match settle_thrown e phase f threshold pct with
    | Some err => Throw err
    | None => Ret tt
    end /\
  LiquidBot.calls (snd (settle e phase f threshold pct b)) =
    LiquidBot.calls b ++
    settle_calls e phase (LiquidBot.pumpSwapPool b) (totalSolHeld b) f threshold pct.
Proof.
  unfold settle, settle_thrown, settle_calls, claim_thrown, claim_calls, trade_thrown,
    curve_buy_thrown, trade_calls, pool_buy_calls, deposit_calls, totalSolHeld.
  destruct (js_ge f threshold); [|cbn; now rewrite app_nil_r].
  unfold claimFees, buybackOnBondingCurve, handlePumpSwapPhase, buybackOnPumpSwap,
    addLiquidityToPumpSwap, add_totalFeesCollected, add_totalBuybacks, add_totalSolHeld,
    try_catch, bind, await, lift, log, modify, get, ret, throw.
  destruct b as [cfg running timer st pool evs cs].
  destruct (collectCoinCreatorFeeInstructions e) as [[|n]|?]; cbn;
    try (destruct (sendClaim e); cbn);
    try (split; [reflexivity|now rewrite <- ?app_assoc]);
    destruct phase; cbn;
    try (destruct pool; cbn);
    repeat (match goal with
            | |- context [lamports_of ?x] => destruct (lamports_of x)
            end; cbn);
    try (destruct (sendBondingCurveBuy e); cbn);
    try (destruct (swapSolanaState e); cbn);
    try (destruct (sendPumpSwapBuy e); cbn);
    try (destruct (liquiditySolanaState e); cbn);
    try (destruct (depositAutocompleteBaseAndLpTokenFromQuote e); cbn);
    try (destruct (sendDeposit e); cbn);
    rewrite <- ?app_assoc; cbn; rewrite ?app_nil_r; split; reflexivity.
Qed.


Lemma unpublished_refl b : unpublished b b.
Proof. repeat split. apply grows_refl. Qed.

Lemma unpublished_trans b1 b2 b3 : unpublished b1 b2 -> unpublished b2 b3 -> unpublished b1 b3.
Proof.
  intros (C1 & T1 & G1) (C2 & T2 & G2). split; [|split].
  - eapply same_control_trans; eassumption.
  - congruence.
  - eapply grows_trans; eassumption.
Qed.

Ltac unpublished_leaf :=
  intros; split; [repeat split|split; [reflexivity|grows_leaf]].

Lemma probe_ledger e : respects same_ledger (probe e).
Proof.
  assert (Hr : forall b, same_ledger b b) by (repeat split).
  pose proof same_ledger_trans.
  unfold probe. unfold_methods. repeat method_step; intros b0; repeat split.
Qed.

Lemma probe_unpublished e : respects unpublished (probe e).
Proof.
  pose proof unpublished_refl. pose proof unpublished_trans.
  unfold probe. unfold_methods. repeat method_step; unpublished_leaf.
Qed.

Lemma settle_unpublished e phase f threshold pct :
  respects unpublished (settle e phase f threshold pct).
Proof.
  pose proof unpublished_refl. pose proof unpublished_trans.
  unfold_methods. repeat method_step; unpublished_leaf.
Qed.

Lemma calls_emit ev b : LiquidBot.calls (emit ev b) = LiquidBot.calls b.
Proof. reflexivity. Qed.

Lemma calls_closed e thrown b5 :
  LiquidBot.calls (closed e thrown b5) =
  LiquidBot.calls b5 ++
  match thrown with Some _ => [] | None => [CallGetTokenAccountBalance] end.
Proof. destruct thrown; cbn; [now rewrite app_nil_r|reflexivity]. Qed.

Lemma cycle_end e b :
  after (runCycle e) b = closed e (cycle_thrown e b) (reconciled e b) /\
  unpublished b (reconciled e b) /\
  LiquidBot.calls (after (runCycle e) b) = LiquidBot.calls b ++ cycle_calls e b.
Proof.
  pose proof (probe_unpublished e b) as U1.
  pose proof (probe_exact e b) as (Hcalls & Hpool & _ & _).
  unfold after, cycle_thrown, cycle_calls, reconciled.
  rewrite runCycle_probe. unfold try_catch.
  destruct (BN_toNumber (fee_lamports e)) as [n|err]; step.
  2:{ split; [reflexivity|]. split; [exact U1|]. now rewrite calls_emit, Hcalls. }
  set (f := (n / 1e9)%float).
  fold (probed e f b).
  assert (U4 : unpublished b (probed e f b)).
  { eapply unpublished_trans; [exact U1|]. unfold probed. unpublished_leaf. }
  assert (Hcfg : LiquidBot.config (probed e f b) = LiquidBot.config b) by apply U4.
  rewrite Hcfg.
  set (threshold := BotConfig.minFeeThreshold (LiquidBot.config b)).
  set (pct := BotConfig.buybackPercentage (LiquidBot.config b)).
  pose proof (settle_unpublished e (phase_result e b) f threshold pct (probed e f b)) as U5.
  pose proof (settle_run e (phase_result e b) f threshold pct (probed e f b)) as (Hfst & Hsnd).
  destruct (settle e (phase_result e b) f threshold pct (probed e f b)) as [r b5] eqn:E5.
  cbn [fst snd] in *.
  assert (Hend : snd (let (r, b') :=
                        (settle e (phase_result e b) f threshold pct;; publish e)
                          (probed e f b) in
                      match r with
                      | Ret a => (Ret a, b')
                      | Throw err => cycle_handler err b'
                      end) =
                 closed e (settle_thrown e (phase_result e b) f threshold pct) b5).
  { destruct (settle_thrown e (phase_result e b) f threshold pct); subst r; cbn [closed].
    - now rewrite (bind_run_throw _ _ _ _ _ E5).
    - now rewrite (bind_run _ _ _ _ _ E5), publish_run. }
  split; [exact Hend|split].
  - eapply unpublished_trans; eassumption.
  - rewrite Hend, calls_closed, Hsnd. unfold probed at 1.
    change (LiquidBot.pumpSwapPool (probed e f b))
      with (LiquidBot.pumpSwapPool (snd (probe e b))).
    change (totalSolHeld (probed e f b)) with (totalSolHeld (snd (probe e b))).
    rewrite calls_emit, Hcalls, Hpool, (proj2 (proj2 (probe_ledger e b))).
    now rewrite <- ?app_assoc.
Qed.

Lemma feeBalanceSOL_of_conversion e :
  feeBalanceSOL_of e =
  match BN_toNumber (fee_lamports e) with
  | Ok n => Some (n / 1e9)%float
  | Err _ => None
  end.
Proof. reflexivity. Qed.

Lemma claim_thrown_fails e err : claim_thrown e = Some err <-> claim_fails e err.
Proof.
  unfold claim_thrown, claim_fails.
  destruct (collectCoinCreatorFeeInstructions e) as [[|n]|err0].
  - split; [discriminate|]. intros [H|(n & H & _)]; discriminate.
  - destruct (sendClaim e) as [tx|err1].
    + split; [discriminate|]. intros [H|(n' & _ & H)]; discriminate.
    + split.
      * intros [= <-]. right. now exists n.
      * intros [H|(n' & _ & H)]; [discriminate|]. now injection H as <-.
  - split.
    + intros [= <-]. now left.
    + intros [H|(n & H & _)]; [now injection H as <-|discriminate].
Qed.

Lemma claim_thrown_returns e : claim_thrown e = None <-> exists cs ev, claim_returns e cs ev.
Proof.
  split.
  - intro H. destruct (claim_outcome e) as [(err & Hf)|Hr]; [|exact Hr].
    apply claim_thrown_fails in Hf. congruence.
  - intros (cs & ev & [(Hc & _)|(n & tx & Hc & Hs & _)]); unfold claim_thrown; rewrite Hc;
      [reflexivity|now rewrite Hs].
Qed.

Lemma cycle_aborts_thrown e b err : cycle_aborts e b err <-> cycle_thrown e b = Some err.
Proof.
  unfold cycle_thrown, settle_thrown, trade_thrown, curve_buy_thrown. split.
  - intros [err0 H|f err0 [Hf Hge] Hc|f cs ev err0 [Hf Hge] Hc Hp Hl
           |f cs ev lamports err0 [Hf Hge] Hc Hp Hl Hb].
    + now rewrite H.
    + rewrite feeBalanceSOL_of_conversion in Hf.
      destruct (BN_toNumber (fee_lamports e)) as [n|]; [|discriminate].
      injection Hf as <-. rewrite Hge.
      apply claim_thrown_fails in Hc. now rewrite Hc.
    + rewrite feeBalanceSOL_of_conversion in Hf.
      destruct (BN_toNumber (fee_lamports e)) as [n|]; [|discriminate].
      injection Hf as <-. rewrite Hge.
      assert (Hn : claim_thrown e = None) by (apply claim_thrown_returns; now exists cs, ev).
      now rewrite Hn, Hp, Hl.
    + rewrite feeBalanceSOL_of_conversion in Hf.
      destruct (BN_toNumber (fee_lamports e)) as [n|]; [|discriminate].
      injection Hf as <-. rewrite Hge.
      assert (Hn : claim_thrown e = None) by (apply claim_thrown_returns; now exists cs, ev).
      now rewrite Hn, Hp, Hl, Hb.
  - destruct (BN_toNumber (fee_lamports e)) as [n|err0] eqn:En.
    2:{ intros [= <-]. now apply abort_conversion. }
    assert (Hf : feeBalanceSOL_of e = Some (n / 1e9)%float)
      by (now rewrite feeBalanceSOL_of_conversion, En).
    destruct (js_ge (n / 1e9) (BotConfig.minFeeThreshold (LiquidBot.config b))) eqn:Hge;
      [|discriminate].
    destruct (claim_thrown e) as [err0|] eqn:Hc.
    + intros [= <-]. apply (abort_claim e b (n / 1e9)%float); [now split|].
      now apply claim_thrown_fails.
    + apply claim_thrown_returns in Hc. destruct Hc as (cs & ev & Hc).
      destruct (phase_result e b) eqn:Hp; try discriminate.
      destruct (lamports_of _) as [lamports|err0] eqn:Hl.
      * destruct (sendBondingCurveBuy e) as [|err0] eqn:Hb; [discriminate|].
        intros [= <-]. now apply (abort_curve_buy e b (n / 1e9)%float cs ev lamports).
      * intros [= <-]. now apply (abort_curve_amount e b (n / 1e9)%float cs ev).
Qed.

Lemma cycle_calls_sorted e b : StronglySorted Nat.lt (map stage (cycle_calls e b)).
Proof.
  unfold cycle_calls, settle_calls, settle_thrown, claim_calls, claim_thrown, trade_calls,
    trade_thrown, curve_buy_thrown, pool_buy_calls, deposit_calls, phase_calls,
    detect_calls.
  repeat match goal with
         | |- context [match ?x with _ => _ end] => destruct x
         | |- context [if ?x then _ else _] => destruct x
         end;
    cbn; repeat constructor.
Qed.

Lemma phase_calls_not_monetary e : forallb not_monetary (phase_calls e) = true.
Proof.
  unfold phase_calls, detect_calls.
  destruct (fetchBondingCurve e) as [[|]|]; destruct (canonicalPumpPoolPda e); reflexivity.
Qed.


(** ** The calls of a cycle *)

(** X1.  The external calls a cycle makes are, in order, those of
    [cycle_calls]: the curve probe, the pool lookup when the curve is not
    reported open, the fee balance read; then, when the balance fits a number
    and reaches the threshold, the calls of the claim and, once the claim has
    returned, those of the phase's trading block, where a buy or a deposit
    whose amount does not convert to lamports is not sent (and for such a
    buy on the pool the swap state is not fetched); and the token balance
    read unless the cycle came to its [catch] block.  Their places in the
    source strictly increase along the list, so that a cycle makes each kind
    of call at most once, in the order of the source. *)
Theorem cycle_calls_follow_the_source e b :
  LiquidBot.calls (after (runCycle e) b) = LiquidBot.calls b ++ cycle_calls e b /\
  StronglySorted Nat.lt (map stage (cycle_calls e b)).
Proof.
  split; [apply cycle_end|apply cycle_calls_sorted].
Qed.

(** ** The end of a cycle *)

(** X2.  A cycle emits exactly one closing event, as its last event: the
    status snapshot, which carries the status the bot ends with, or the
    "Cycle error" entry with the message of what was thrown.  It is the error
    entry in four situations and no other: the fee balance does not fit a
    number, the claim fails, and in the bonding-curve phase the buyback
    amount does not convert to lamports or the buy fails.  A failed probe,
    pool lookup, fee balance read, pool buy, deposit or token balance read
    never ends a cycle that way, nor does an amount of the pool phase that
    does not convert. *)
Theorem cycle_closes_once e b :
  let b' := after (runCycle e) b in
  (exists evs,
     LiquidBot.emitted b' =
       LiquidBot.emitted b ++ evs ++
       [match cycle_thrown e b with
        | None => EvStatusUpdate (LiquidBot.status b')
        | Some err => EvLog error (MsgCycleError (error_message err))
        end] /\
     forallb not_closing evs = true) /\
  (forall err, cycle_thrown e b = Some err <-> cycle_aborts e b err).
Proof.
  intro b'. split; [|intro err; symmetry; apply cycle_aborts_thrown].
  destruct (cycle_end e b) as (E & (_ & _ & (cs & evs & _ & Hevs & _ & Hq)) & _).
  exists evs. split; [|exact Hq].
  subst b'. rewrite E.
  destruct (cycle_thrown e b); cbn; now rewrite Hevs, <- app_assoc.
Qed.

Lemma settle_lastCheck e phase f threshold pct :
  respects (fun b b' => lastCheck b' = lastCheck b) (settle e phase f threshold pct).
Proof.
  assert (Hr : forall b : LiquidBot.t, lastCheck b = lastCheck b) by reflexivity.
  assert (Ht : forall b1 b2 b3 : LiquidBot.t,
             lastCheck b2 = lastCheck b1 -> lastCheck b3 = lastCheck b2 ->
             lastCheck b3 = lastCheck b1) by (intros; congruence).
  unfold_methods. repeat method_step; intros b0; reflexivity.
Qed.

Lemma js_or_zero_not_NaN x : js_isNaN (js_or_zero x) = false.
Proof.
  unfold js_isNaN, js_or_zero. destruct x as [v|]; [|reflexivity].
  destruct (PrimFloat.eqb v 0) eqn:E0; cbn; [reflexivity|].
  destruct (PrimFloat.eqb v v) eqn:Ev; cbn; [now rewrite Ev|reflexivity].
Qed.

(** X3.  The token balance of the status after a cycle: a cycle that comes
    to its end without a throw stores what the balance read returned, with
    0 in place of null, of NaN and of a failed read, so that the stored
    balance is never NaN; a cycle that came to its [catch] block leaves the
    balance of the cycle before.  Either way the status carries the time of
    this cycle as its last check. *)
Theorem token_balance_after_a_cycle e b :
  let b' := after (runCycle e) b in
  tokensHeld b' =
    match cycle_thrown e b with
    | None => tokens_read e
    | Some _ => tokensHeld b
    end /\
  js_isNaN (tokens_read e) = false /\
  lastCheck b' = Some (now e).
Proof.
  intro b'. destruct (cycle_end e b) as (E & (_ & Ht & _) & _).
  subst b'. rewrite E. split; [|split].
  - destruct (cycle_thrown e b); cbn; [exact Ht|reflexivity].
  - unfold tokens_read. destruct (getTokenAccountBalance e); [apply js_or_zero_not_NaN|reflexivity].
  - assert (H : lastCheck (reconciled e b) = Some (now e)).
    { unfold reconciled.
      destruct (BN_toNumber (fee_lamports e)) as [n|err]; [|apply probe_exact].
      rewrite settle_lastCheck. unfold probed.
      change (lastCheck (emit ?ev ?s)) with (lastCheck s). apply probe_exact. }
    destruct (cycle_thrown e b); cbn; exact H.
Qed.

(** ** A buy on the bonding curve that fails *)

Lemma harvest_due_conversion e b f :
  harvest_due e b f ->
  exists n, BN_toNumber (fee_lamports e) = Ok n /\ f = (n / 1e9)%float /\
    js_ge (n / 1e9) (BotConfig.minFeeThreshold (LiquidBot.config b)) = true.
Proof.
  intros [Hf Hge]. rewrite feeBalanceSOL_of_conversion in Hf.
  destruct (BN_toNumber (fee_lamports e)) as [n|]; [|discriminate].
  injection Hf as <-. now exists n.
Qed.

Lemma claim_returns_thrown e cs ev :
  claim_returns e cs ev -> claim_thrown e = None /\ claim_calls e = cs /\ not_closing ev = true.
Proof.
  unfold claim_thrown, claim_calls.
  intros [(Hc & -> & ->)|(n & tx & Hc & Hs & -> & ->)]; rewrite Hc; [|rewrite Hs];
    repeat split.
Qed.

(** X4.  When the claim has returned in the bonding-curve phase and the buy
    on the curve fails (the buy itself, or before it the conversion of its
    amount to lamports), the cycle comes to its [catch] block after the fees
    were booked: [totalFeesCollected] has grown by the fee balance while
    [totalBuybacks] and [totalSolHeld] are as before, so that the claimed
    amount is in neither of them.  The token balance is not refreshed and no
    status snapshot is published; the buy, when its amount converted, is
    the last call of the cycle, and the two last events are the entries of
    the failed buyback and of the cycle error. *)
Theorem failed_curve_buy_leaves_the_fees_booked e b f cs ev err :
  harvest_due e b f ->
  claim_returns e cs ev ->
  phase_result e b = bonding_curve ->
  curve_buy_thrown e
    (buybackAmount_of f (BotConfig.buybackPercentage (LiquidBot.config b))) = Some err ->
  let x := buybackAmount_of f (BotConfig.buybackPercentage (LiquidBot.config b)) in
  let b' := after (runCycle e) b in
  totalFeesCollected b' = (totalFeesCollected b + f)%float /\
  totalBuybacks b' = totalBuybacks b /\
  totalSolHeld b' = totalSolHeld b /\
  tokensHeld b' = tokensHeld b /\
  (exists cs0,
     LiquidBot.calls b' =
       LiquidBot.calls b ++ cs0 ++
       match lamports_of x with
       | Ok _ => [CallBuyOnBondingCurve x]
       | Err _ => []
       end /\
     forallb not_buy_or_deposit cs0 = true) /\
  (exists evs,
     LiquidBot.emitted b' =
       LiquidBot.emitted b ++ evs ++
       [EvLog error (MsgBuybackFailed (error_message err));
        EvLog error (MsgCycleError (error_message err))] /\
     forallb not_closing evs = true).
Proof.
  intros Hdue Hclaim Hphase Hbuy x b'.
  pose proof (claimed_harvest e b f cs ev (proj1 Hdue) (proj2 Hdue) Hclaim) as (Hfees & _ & H).
  cbn zeta in H. rewrite Hphase, Hbuy in H. destruct H as [Hb Hh].
  destruct (claim_returns_thrown e cs ev Hclaim) as (Hnone & Hcs & Hev).
  destruct (harvest_due_conversion e b f Hdue) as (n & Hn & -> & Hge).
  assert (Hthrown : cycle_thrown e b = Some err).
  { unfold cycle_thrown, settle_thrown, trade_thrown.
    now rewrite Hn, Hge, Hnone, Hphase. }
  destruct (cycle_end e b) as (E & _ & Hcalls).
  split; [exact Hfees|]. split; [exact Hb|]. split; [exact Hh|].
  split; [|split].
  - destruct (cycle_end e b) as (_ & (_ & Ht & _) & _).
    subst b'. rewrite E, Hthrown. exact Ht.
  - exists (phase_calls e ++ [CallGetCreatorVaultBalance] ++ cs). split.
    + subst b'. rewrite Hcalls.
      unfold cycle_calls, settle_calls, settle_thrown, trade_calls, trade_thrown.
      rewrite Hn, Hge, Hnone, Hphase, Hbuy, Hcs, <- !app_assoc. fold x.
      now rewrite app_nil_r.
    + rewrite !forallb_app.
      rewrite (not_monetary_not_buy_or_deposit _ (phase_calls_not_monetary e)).
      rewrite (claim_call_not_buy_or_deposit _ (claim_returns_calls e cs ev Hclaim)).
      reflexivity.
  - subst b'. rewrite E, Hthrown. unfold reconciled. rewrite Hn.
    rewrite (settle_claimed e _ _ _ _ _ cs ev Hge Hclaim), Hphase.
    fold x.
    assert (Hfail : exists b6,
               buybackOnBondingCurve e x
                 (harvested (n / 1e9) (BotConfig.minFeeThreshold (LiquidBot.config b))
                    (BotConfig.buybackPercentage (LiquidBot.config b)) cs ev
                    (probed e (n / 1e9) b)) =
               (Throw err, emit (EvLog error (MsgBuybackFailed (error_message err))) b6) /\
               LiquidBot.emitted b6 =
               LiquidBot.emitted
                 (harvested (n / 1e9) (BotConfig.minFeeThreshold (LiquidBot.config b))
                    (BotConfig.buybackPercentage (LiquidBot.config b)) cs ev
                    (probed e (n / 1e9) b))).
    { unfold curve_buy_thrown in Hbuy. fold x in Hbuy.
      destruct (lamports_of x) as [lamports|err0] eqn:Hl.
      - destruct (sendBondingCurveBuy e) as [|err0] eqn:Hs; [discriminate|].
        injection Hbuy as ->. eexists. split.
        * now apply (buybackOnBondingCurve_fails e _ x lamports).
        * reflexivity.
      - injection Hbuy as ->. eexists. split.
        + now apply buybackOnBondingCurve_no_lamports.
        + reflexivity. }
    destruct Hfail as (b6 & Hfail & Hb6).
    rewrite (bind_run_throw _ _ _ _ _ Hfail).
    pose proof (harvested_fields (n / 1e9)
                  (BotConfig.minFeeThreshold (LiquidBot.config b))
                  (BotConfig.buybackPercentage (LiquidBot.config b)) cs ev
                  (probed e (n / 1e9) b)) as (_ & _ & _ & _ & _ & _ & Hevs).
    cbn zeta in Hevs.
    destruct (probe_unpublished e b) as (_ & _ & (cs0 & evs0 & _ & Hevs0 & _ & Hq0)).
    cbn [closed snd].
    change (LiquidBot.emitted (emit ?a (emit ?c ?s)))
      with ((LiquidBot.emitted s ++ [c]) ++ [a]).
    rewrite Hb6, Hevs. unfold probed.
    change (LiquidBot.emitted (emit ?a ?s)) with (LiquidBot.emitted s ++ [a]).
    rewrite Hevs0.
    eexists (evs0 ++ [_; _; ev; _; _]). split.
    + rewrite <- !app_assoc. reflexivity.
    + rewrite forallb_app, Hq0. cbn. now rewrite Hev.
Qed.

Lemma failed_curve_buy_witness :
  let e := answers (Ok false) false 20000000 1 (Ok "claim") (Err rpc_failure) (Ok "swap")
             (Ok "deposit") in
  let b := new_bot 50 in
  harvest_due e b 0.02%float /\
  totalFeesCollected (after (runCycle e) b) = (totalFeesCollected b + 0.02)%float /\
  totalBuybacks (after (runCycle e) b) = totalBuybacks b /\
  totalSolHeld (after (runCycle e) b) = totalSolHeld b.
Proof.
  intros e b.
  assert (Hdue : harvest_due e b 0.02%float) by (split; reflexivity).
  assert (Hclaim : claim_returns e [CallCollectFeeInstructions; CallSendClaim]
                     (EvLog success (MsgFeesClaimed "claim"))).
  { right. exists 0%nat, "claim". repeat split. }
  pose proof (failed_curve_buy_leaves_the_fees_booked e b _ _ _ rpc_failure Hdue Hclaim
                eq_refl eq_refl) as (Hf & Hb & Hh & _).
  split; [exact Hdue|]. split; [exact Hf|]. split; [exact Hb|exact Hh].
Defined.

(** ** A harvest on the pool *)



(** ** A token balance read that fails *)

Lemma reconciled_with_token_balance answer e b :
  reconciled (with_token_balance answer e) b = reconciled e b /\
  cycle_thrown (with_token_balance answer e) b = cycle_thrown e b.
Proof. destruct e. split; reflexivity. Qed.

Lemma runCycle_with_token_balance answer e b :
  after (runCycle (with_token_balance answer e)) b =
  closed (with_token_balance answer e) (cycle_thrown e b) (reconciled e b).
Proof.
  rewrite (proj1 (cycle_end _ b)).
  now destruct (reconciled_with_token_balance answer e b) as [-> ->].
Qed.

(** X6.  A failed read of the token balance is silent: the cycle leaves the
    bot, its status, its events and its calls exactly as a read that
    returns null (no balance) or 0 does. *)
Theorem failed_token_read_is_silent e b err :
  after (runCycle (with_token_balance (Err err) e)) b =
    after (runCycle (with_token_balance (Ok None) e)) b /\
  after (runCycle (with_token_balance (Err err) e)) b =
    after (runCycle (with_token_balance (Ok (Some 0%float)) e)) b.
Proof.
  rewrite !runCycle_with_token_balance. split; reflexivity.
Qed.

(** ** A threshold that is not a number *)

Lemma SFeqb_refl_not_nan x : SFeqb x x = false -> x = S754_nan.
Proof.
  unfold SFeqb. destruct x as [s|s| |s m e]; try reflexivity; try discriminate.
  - destruct s; discriminate.
  - now rewrite SFcompare_refl_finite.
Qed.

Lemma js_ge_NaN f threshold : js_isNaN threshold = true -> js_ge f threshold = false.
Proof.
  unfold js_isNaN, js_ge. rewrite eqb_spec, leb_spec. intro H.
  apply Bool.negb_true_iff, SFeqb_refl_not_nan in H. now rewrite H.
Qed.

(** A cycle whose threshold test fails: no call that moves funds, and the
    ledger as before. *)
Lemma cycle_without_harvest e b :
  (forall f, feeBalanceSOL_of e = Some f ->
             js_ge f (BotConfig.minFeeThreshold (LiquidBot.config b)) = false) ->
  same_ledger b (after (runCycle e) b) /\
  forallb not_monetary (cycle_calls e b) = true.
Proof.
  intro Hbelow. split.
  - destruct (feeBalanceSOL_of e) as [f|] eqn:Hf.
    + apply (below_threshold_ledger e b f Hf). now apply Hbelow.
    + now apply cycle_conversion_throws.
  - unfold cycle_calls, settle_calls, settle_thrown.
    rewrite feeBalanceSOL_of_conversion in Hbelow.
    rewrite !forallb_app, phase_calls_not_monetary.
    destruct (BN_toNumber (fee_lamports e)) as [n|]; [|reflexivity].
    now rewrite (Hbelow _ eq_refl).
Qed.

(** X7.  With a threshold that is NaN (what [parseFloat] makes of a
    malformed MIN_FEE_THRESHOLD) the test [feeBalanceSOL >= minFeeThreshold]
    fails for every balance: over any number of cycles the bot makes no
    claim, buy or deposit call and its three totals stay as they were. *)
Theorem NaN_threshold_never_harvests es b :
  js_isNaN (BotConfig.minFeeThreshold (LiquidBot.config b)) = true ->
  same_ledger b (run_cycles es b) /\
  exists cs,
    LiquidBot.calls (run_cycles es b) = LiquidBot.calls b ++ cs /\
    forallb not_monetary cs = true.
Proof.
  revert b. induction es as [|e es IH]; intros b Hnan; cbn [run_cycles fold_left].
  - split; [repeat split|]. exists []. now rewrite app_nil_r.
  - destruct (cycle_without_harvest e b) as [L1 M1].
    { intros f _. now apply js_ge_NaN. }
    pose proof (runCycle_same_control e b) as (Hcfg & _).
    fold (after (runCycle e) b) in Hcfg.
    destruct (IH (after (runCycle e) b)) as (L2 & cs & Hcs & M2).
    { now rewrite Hcfg. }
    fold (run_cycles es (after (runCycle e) b)).
    split; [eapply same_ledger_trans; eassumption|].
    exists (cycle_calls e b ++ cs). split.
    + rewrite Hcs, (proj2 (proj2 (cycle_end e b))). now rewrite app_assoc.
    + now rewrite forallb_app, M1, M2.
Qed.

Lemma NaN_threshold_witness :
  let b := initial_bot "wallet"
             (BotConfig.mk "https://rpc.example" "key" "mint" PrimFloat.nan 50 60000) in
  let es := [fees_on_curve 20000000; fees_on_pool (Ok "swap") (Ok "deposit")] in
  js_isNaN (BotConfig.minFeeThreshold (LiquidBot.config b)) = true /\
  same_ledger b (run_cycles es b).
Proof.
  intros b es.
  assert (Hnan : js_isNaN (BotConfig.minFeeThreshold (LiquidBot.config b)) = true)
    by reflexivity.
  split; [exact Hnan|]. apply (NaN_threshold_never_harvests es b Hnan).
Defined.

(** ** A fee balance read that fails *)

Lemma probe_fee_read_failed e b err :
  getCreatorVaultBalanceBothPrograms e = Err err ->
  exists evs,
    LiquidBot.emitted (snd (probe e b)) =
    LiquidBot.emitted b ++ evs ++ [EvLog error MsgFailedFeeBalance].
Proof.
  intro Hread.
  unfold probe, getCreatorFeeBalance. step.
  set (b0 := with_status _ _).
  destruct (checkTokenPhase_result e b0) as (b1 & E1 & _).
  pose proof (checkTokenPhase_grows e b0) as (cs & evs & _ & Hevs & _).
  rewrite E1 in Hevs. cbn [snd] in Hevs.
  rewrite (bind_run _ _ _ _ _ E1). step. unfold try_catch, bind, await. rewrite Hread.
  cbn. rewrite Hevs. cbn.
  exists ([EvLog info MsgRunningCycle] ++ evs ++ [EvLog info (MsgTokenPhase (phase_result e b0))]).
  now rewrite <- !app_assoc.
Qed.

(** X8.  A failed read of the fee balance is logged as an error and counts
    as a balance of zero.  Against a threshold above zero the cycle is then
    a cycle below the threshold: no claim, buy or deposit call, the ledger
    as before, and it comes to its end without a throw.  Against a threshold
    of zero or below, the test of line 145 holds and the cycle goes on to
    build the claim, although no balance was read. *)
Theorem failed_fee_read_counts_as_zero e b err :
  getCreatorVaultBalanceBothPrograms e = Err err ->
  let threshold := BotConfig.minFeeThreshold (LiquidBot.config b) in
  let b' := after (runCycle e) b in
  feeBalanceSOL_of e = Some 0%float /\
  (exists evs1 evs2,
     LiquidBot.emitted b' =
       LiquidBot.emitted b ++ evs1 ++ EvLog error MsgFailedFeeBalance :: evs2) /\
  (PrimFloat.ltb 0 threshold = true ->
   cycle_thrown e b = None /\
   same_ledger b b' /\
   LiquidBot.calls b' =
     LiquidBot.calls b ++ phase_calls e ++
     [CallGetCreatorVaultBalance; CallGetTokenAccountBalance]) /\
  (PrimFloat.leb threshold 0 = true ->
   exists cs1 cs2,
     LiquidBot.calls b' = LiquidBot.calls b ++ cs1 ++ CallCollectFeeInstructions :: cs2).
Proof.
  intros Hread threshold b'.
  assert (Hf : feeBalanceSOL_of e = Some 0%float).
  { unfold feeBalanceSOL_of. now rewrite Hread. }
  assert (Hn : BN_toNumber (fee_lamports e) = Ok 0%float).
  { unfold fee_lamports. now rewrite Hread. }
  destruct (cycle_end e b) as (E & _ & Hcalls).
  split; [exact Hf|]. split; [|split].
  - destruct (probe_fee_read_failed e b err Hread) as (evs & Hevs).
    assert (Hrec : exists evs2,
               LiquidBot.emitted (reconciled e b) =
               LiquidBot.emitted (snd (probe e b)) ++ evs2).
    { unfold reconciled. rewrite Hn.
      match goal with
      | |- context [settle ?e ?p ?f ?t ?c ?s] =>
        destruct (settle_unpublished e p f t c s) as (_ & _ & (cs5 & evs5 & _ & H5 & _))
      end.
      rewrite H5. unfold probed.
      change (LiquidBot.emitted (emit ?a ?s)) with (LiquidBot.emitted s ++ [a]).
      eexists. now rewrite <- app_assoc. }
    destruct Hrec as (evs2 & Hrec).
    subst b'. rewrite E.
    exists evs.
    destruct (cycle_thrown e b); cbn [closed];
      change (LiquidBot.emitted (emit ?a ?s)) with (LiquidBot.emitted s ++ [a]);
      cbn [with_status push_call LiquidBot.emitted];
      eexists (evs2 ++ [_]);
      rewrite Hrec, Hevs, <- !app_assoc; reflexivity.
  - intro Hlt. apply ltb_not_ge in Hlt. fold threshold in Hlt.
    assert (Hthrown : cycle_thrown e b = None).
    { unfold cycle_thrown, settle_thrown. rewrite Hn.
      change (0 / 1e9)%float with 0%float. fold threshold. now rewrite Hlt. }
    split; [exact Hthrown|]. split.
    + now apply (below_threshold_ledger e b 0%float Hf).
    + subst b'. rewrite Hcalls. unfold cycle_calls, settle_calls, settle_thrown.
      rewrite Hn. change (0 / 1e9)%float with 0%float. fold threshold. now rewrite Hlt.
  - intro Hle. subst b'. rewrite Hcalls.
    unfold cycle_calls, settle_calls, claim_calls. rewrite Hn.
    change (0 / 1e9)%float with 0%float. fold threshold.
    unfold js_ge. rewrite Hle.
    exists (phase_calls e ++ [CallGetCreatorVaultBalance]). eexists.
    rewrite <- !app_assoc. cbn [app]. reflexivity.
Qed.

Lemma failed_fee_read_witness :
  let e := {| now := 1700000000000;
              fetchBondingCurve := Ok false;
              canonicalPumpPoolPda := Ok "pool";
              getAccountInfo := Ok false;
              getCreatorVaultBalanceBothPrograms := Err rpc_failure;
              collectCoinCreatorFeeInstructions := Ok 1%nat;
              sendClaim := Ok "claim";
              sendBondingCurveBuy := Ok "buy";
              swapSolanaState := Ok tt;
              sendPumpSwapBuy := Ok "swap";
              liquiditySolanaState := Ok tt;
              depositAutocompleteBaseAndLpTokenFromQuote := Ok 1000;
              sendDeposit := Ok "deposit";
              getTokenAccountBalance := Ok (Some 0%float) |} in
  let b := new_bot 50 in
  feeBalanceSOL_of e = Some 0%float /\
  LiquidBot.calls (after (runCycle e) b) =
    [CallFetchBondingCurve; CallGetCreatorVaultBalance; CallGetTokenAccountBalance].
Proof.
  intros e b.
  pose proof (failed_fee_read_counts_as_zero e b rpc_failure eq_refl) as (Hf & _ & Hlt & _).
  split; [exact Hf|]. apply Hlt. reflexivity.
Defined.

(** ** The life of a bot: [start], [stop] and the timer *)

(** What a cycle leaves alone in the status: the running flag and the mint. *)
Lemma runCycle_status_frame e :
  respects (fun b b' =>
              BotStatus.isRunning (LiquidBot.status b') =
                BotStatus.isRunning (LiquidBot.status b) /\
              BotStatus.tokenMint (LiquidBot.status b') =
                BotStatus.tokenMint (LiquidBot.status b))
    (runCycle e).
Proof.
  match goal with |- respects ?R _ =>
    assert (Hr : forall b, R b b) by (intro; split; reflexivity);
    assert (Ht : forall b1 b2 b3, R b1 b2 -> R b2 b3 -> R b1 b3)
      by (cbv beta; intros b1 b2 b3 [] []; split; congruence)
  end.
  unfold_methods. repeat method_step; intros b0; split; reflexivity.
Qed.

Lemma detectPumpSwapPool_mirrors e : respects (keeps pool_mirrored) (detectPumpSwapPool e).
Proof.
  intros b Hb. unfold detectPumpSwapPool, try_catch, bind, lift, await, log, modify, ret.
  destruct (canonicalPumpPoolPda e) as [p|]; [|exact Hb].
  destruct (getAccountInfo e) as [[|]|]; try exact Hb. reflexivity.
Qed.

Lemma runCycle_mirrors e : respects (keeps pool_mirrored) (runCycle e).
Proof.
  pose proof (keeps_refl pool_mirrored). pose proof (keeps_trans pool_mirrored).
  unfold runCycle, settle, publish, cycle_handler, checkTokenPhase,
    getCreatorFeeBalance, claimFees, buybackOnBondingCurve, handlePumpSwapPhase,
    buybackOnPumpSwap, addLiquidityToPumpSwap, updateTokenBalance,
    add_totalFeesCollected, add_totalBuybacks, add_totalSolHeld.
  repeat first [apply detectPumpSwapPool_mirrors | method_step];
    intros b0 Hb; exact Hb.
Qed.

(** A cycle run from [b]: where it ends, it has not thrown, and the fields of
    [settled] and [pool_mirrored] are kept. *)
Lemma runCycle_kept e b :
  exists b',
    runCycle e b = (Ret tt, b') /\
    same_control b b' /\
    BotStatus.isRunning (LiquidBot.status b') = BotStatus.isRunning (LiquidBot.status b) /\
    BotStatus.tokenMint (LiquidBot.status b') = BotStatus.tokenMint (LiquidBot.status b) /\
    (pool_mirrored b -> pool_mirrored b').
Proof.
  destruct (runCycle_returns e b) as [[] Hret].
  pose proof (runCycle_same_control e b) as Hc.
  pose proof (runCycle_status_frame e b) as [Hr Hm].
  pose proof (runCycle_mirrors e b) as Hp.
  destruct (runCycle e b) as [r b']. cbn [fst snd] in *. subst r.
  exists b'. repeat split; try assumption; apply Hc.
Qed.

Ltac kept_settled := match goal with H : settled _ |- _ => apply H end.

(** What the invariant of a life speaks of. *)
Lemma perform_kept a b :
  let b' := after (perform a) b in
  fst (perform a b) = Ret tt /\
  LiquidBot.config b' = LiquidBot.config b /\
  BotStatus.tokenMint (LiquidBot.status b') = BotStatus.tokenMint (LiquidBot.status b) /\
  (settled b -> settled b') /\
  (pool_mirrored b -> pool_mirrored b').
Proof.
  destruct a as [e| |e]; unfold perform, after.
  - unfold start. step. destruct (LiquidBot.isRunning b) eqn:Hrun; step.
    + repeat split; trivial; kept_settled.
    + set (b1 := emit (EvLog success MsgStarted)
                   (with_status (status_set_isRunning true) (set_isRunning true b))).
      destruct (runCycle_kept e b1) as (b2 & E & (Hc & Hr & Hi) & Hs & Hm & Hp).
      rewrite (bind_run _ _ _ _ _ E). step. cbn.
      split; [reflexivity|]. split; [exact Hc|]. split; [exact Hm|]. split; [|exact Hp].
      intros _. unfold settled. cbn. split; [now rewrite Hs, Hr|now rewrite Hr, Hc].
  - unfold stop. step. destruct (LiquidBot.isRunning b) eqn:Hrun; cbn [negb]; step.
    + destruct (LiquidBot.intervalId b) eqn:Htimer; step; repeat split; trivial.
    + repeat split; trivial; kept_settled.
  - unfold tick. step. destruct (LiquidBot.intervalId b) eqn:Htimer; step.
    + destruct (runCycle_kept e b) as (b2 & E & (Hc & Hr & Hi) & Hs & Hm & Hp).
      rewrite E. cbn [fst snd].
      split; [reflexivity|]. split; [exact Hc|]. split; [exact Hm|]. split; [|exact Hp].
      intros [Hs0 Hi0]. unfold settled. split; [now rewrite Hs, Hr|now rewrite Hr, Hc, Hi].
    + repeat split; trivial; kept_settled.
Qed.



(** X10.  [start] and [stop] are idempotent: whatever the bot, a second
    [start] right after a first one only logs the warning "Bot is already
    running" (it runs no cycle and installs no second timer), and a second
    [stop] right after a first one only logs the warning "Bot is not
    running". *)
Theorem start_and_stop_are_idempotent e1 e2 b :
  start e2 (after (start e1) b) =
    (Ret tt, emit (EvLog warning MsgAlreadyRunning) (after (start e1) b)) /\
  stop (after stop b) =
    (Ret tt, emit (EvLog warning MsgNotRunning) (after stop b)).
Proof.
  split.
  - assert (Hrun : LiquidBot.isRunning (after (start e1) b) = true).
    { destruct (LiquidBot.isRunning b) eqn:Hb.
      - unfold after, start. step. now rewrite Hb.
      - now apply start_schedules. }
    unfold start at 1. step. now rewrite Hrun.
  - assert (Hrun : LiquidBot.isRunning (after stop b) = false).
    { unfold after, stop. step.
      destruct (LiquidBot.isRunning b) eqn:Hb; cbn [negb]; step; [|exact Hb].
      now destruct (LiquidBot.intervalId b). }
    unfold stop at 1. step. now rewrite Hrun.
Qed.

(** X11.  [stop] halts a settled bot and touches nothing else: afterwards
    the bot is not running and has no timer, so that no firing runs a cycle
    any more; the ledger, the phase, the pool, the token balance and the
    calls made so far are as they were. *)
Theorem stop_halts_the_bot b :
  settled b ->
  let b' := after stop b in
  LiquidBot.isRunning b' = false /\
  LiquidBot.intervalId b' = None /\
  settled b' /\
  same_ledger b b' /\ same_phase b b' /\ same_pool b b' /\
  tokensHeld b' = tokensHeld b /\
  LiquidBot.calls b' = LiquidBot.calls b /\
  (forall es, lifetime (map Firing es) b' = b').
Proof.
  intros [Hs Hi] b'.
  assert (Hb' : LiquidBot.isRunning b' = false /\ LiquidBot.intervalId b' = None /\
                settled b' /\
                same_ledger b b' /\ same_phase b b' /\ same_pool b b' /\
                tokensHeld b' = tokensHeld b /\ LiquidBot.calls b' = LiquidBot.calls b).
  { subst b'. unfold after, stop. step.
    destruct (LiquidBot.isRunning b) eqn:Hrun; cbn [negb]; step.
    - destruct (LiquidBot.intervalId b); step; repeat split; discriminate.
    - repeat split; trivial; cbn; rewrite Hrun; assumption. }
  destruct Hb' as (H1 & H2 & H3 & H4 & H5 & H6 & H7 & H8).
  repeat (split; [assumption|]).
  induction es as [|e es IH]; [reflexivity|].
  cbn [map lifetime fold_left]. unfold perform, after at 2, tick. step.
  rewrite H2. exact IH.
Qed.

Lemma stop_halts_witness :
  let b := after (start (fees_on_curve 20000000)) (new_bot 50) in
  settled b /\
  LiquidBot.isRunning b = true /\
  totalFeesCollected (after stop b) = 0.02%float /\
  lifetime [Firing (fees_on_curve 20000000)] (after stop b) = after stop b.
Proof.
  intro b.
  assert (Hs : settled b) by (split; reflexivity).
  pose proof (stop_halts_the_bot b Hs) as (_ & _ & _ & _ & _ & _ & _ & _ & Hinert).
  split; [exact Hs|]. split; [reflexivity|]. split; [reflexivity|].
  apply (Hinert [fees_on_curve 20000000]).
Defined.

(** ** A [stop] that arrives during the initial cycle *)

Lemma runCycle_meanwhile_nothing e b : runCycle_meanwhile (ret tt) e b = runCycle e b.
Proof. reflexivity. Qed.

Lemma start_meanwhile_nothing e b : start_meanwhile (ret tt) e b = start e b.
Proof. reflexivity. Qed.

(** The cycle up to the handler that runs in it, and from there on. *)
Lemma runCycle_meanwhile_split hook e b :
  runCycle_meanwhile hook e b =
  match hook (with_status (status_set_lastCheck (Some (now e)))
                (emit (EvLog info MsgRunningCycle) b)) with
  | (Ret _, b3) => runCycle_resumed e b3
  | (Throw err, b3) => cycle_handler err b3
  end.
Proof.
  unfold runCycle_meanwhile, runCycle_resumed, try_catch. step. unfold bind at 1.
  match goal with |- context [hook ?s] => destruct (hook s) as [[[]|err] b3] end;
    reflexivity.
Qed.

Lemma runCycle_resumed_returns e : returns (runCycle_resumed e).
Proof. unfold runCycle_resumed, cycle_handler. repeat method_step. Qed.

(** A cycle leaves the running flags and the timer as they are. *)
Lemma runCycle_resumed_control e :
  respects (fun b b' =>
              same_control b b' /\
              BotStatus.isRunning (LiquidBot.status b') =
                BotStatus.isRunning (LiquidBot.status b))
    (runCycle_resumed e).
Proof.
  match goal with |- respects ?R _ =>
    assert (Hr : forall b, R b b) by (intro; repeat split);
    assert (Ht : forall b1 b2 b3, R b1 b2 -> R b2 b3 -> R b1 b3)
      by (cbv beta; intros b1 b2 b3 [C1 S1] [C2 S2]; split;
          [eapply same_control_trans; eassumption|congruence])
  end.
  unfold runCycle_resumed. unfold_methods. repeat method_step; intros b0; repeat split.
Qed.

Lemma stop_before_the_timer b :
  LiquidBot.isRunning b = true ->
  LiquidBot.intervalId b = None ->
  stop b =
  (Ret tt,
   emit (EvLog info MsgStopped)
     (with_status (status_set_isRunning false) (set_isRunning false b))).
Proof. intros Hrun Htimer. unfold stop. step. now rewrite Hrun, Htimer. Qed.

(** X12.  [start] sets the timer only after its initial cycle, so a [stop]
    that arrives while that cycle waits for its first answer finds no timer
    to clear: it lowers the running flags, and when the cycle is over
    [start] installs the timer all the same.  The bot then says it is not
    running, in its status too, while its timer fires and runs cycles, and
    a further [stop] only logs "Bot is not running" and leaves the timer
    installed.  (With no handler in the cycle, [start_meanwhile] is
    [start].) *)
Theorem stop_during_the_initial_cycle_leaves_the_timer e b :
  LiquidBot.isRunning b = false ->
  LiquidBot.intervalId b = None ->
  let b' := after (start_meanwhile stop e) b in
  start_meanwhile (ret tt) e b = start e b /\
  fst (start_meanwhile stop e b) = Ret tt /\
  LiquidBot.isRunning b' = false /\
  BotStatus.isRunning (LiquidBot.status b') = false /\
  LiquidBot.intervalId b' =
    Some (setInterval (BotConfig.checkInterval (LiquidBot.config b))) /\
  (forall e2, tick e2 b' = runCycle e2 b') /\
  stop b' = (Ret tt, emit (EvLog warning MsgNotRunning) b').
Proof.
  intros Hrun Htimer b'.
  assert (H : exists b5,
             start_meanwhile stop e b =
               (Ret tt,
                set_intervalId
                  (Some (setInterval (BotConfig.checkInterval (LiquidBot.config b)))) b5) /\
             LiquidBot.isRunning b5 = false /\
             BotStatus.isRunning (LiquidBot.status b5) = false).
  { unfold start_meanwhile. step. rewrite Hrun. step.
    set (b1 := emit (EvLog success MsgStarted)
                 (with_status (status_set_isRunning true) (set_isRunning true b))).
    set (b2 := with_status (status_set_lastCheck (Some (now e)))
                 (emit (EvLog info MsgRunningCycle) b1)).
    assert (E : runCycle_meanwhile stop e b1 =
                runCycle_resumed e
                  (emit (EvLog info MsgStopped)
                     (with_status (status_set_isRunning false) (set_isRunning false b2)))).
    { rewrite runCycle_meanwhile_split. fold b2.
      now rewrite (stop_before_the_timer b2 eq_refl Htimer). }
    set (b3 := emit (EvLog info MsgStopped) _) in E.
    destruct (runCycle_resumed_returns e b3) as [[] Hret].
    pose proof (runCycle_resumed_control e b3) as ((_ & Hr & _) & Hs).
    destruct (runCycle_resumed e b3) as [r b5]. cbn [fst snd] in *. subst r.
    exists b5. rewrite (bind_run _ _ _ _ _ E). now step. }
  destruct H as (b5 & E & Hr & Hs).
  subst b'. unfold after. rewrite E. cbn [fst snd].
  split; [reflexivity|]. split; [reflexivity|]. split; [exact Hr|]. split; [exact Hs|].
  split; [reflexivity|]. split.
  - intro e2. reflexivity.
  - unfold stop. step. cbn [LiquidBot.isRunning set_intervalId]. now rewrite Hr.
Qed.

Lemma stop_during_the_initial_cycle_witness :
  let b := new_bot 50 in
  let b' := after (start_meanwhile stop (fees_on_curve 20000000)) b in
  LiquidBot.isRunning b = false /\
  LiquidBot.isRunning b' = false /\
  LiquidBot.intervalId b' = Some {| period := 60000 |}.
Proof.
  intros b b'.
  pose proof (stop_during_the_initial_cycle_leaves_the_timer (fees_on_curve 20000000) b
                eq_refl eq_refl) as (_ & _ & Hr & _ & Hi & _).
  split; [reflexivity|]. split; [exact Hr|exact Hi].
Defined.

(** * The server *)

(** ** The last elements of a list *)

Lemma lastn_short {A} n (l : list A) : (List.length l <= n)%nat -> lastn n l = l.
Proof.
  intro H. unfold lastn. now replace (List.length l - n)%nat with 0%nat by lia.
Qed.

Lemma lastn_length {A} n (l : list A) : List.length (lastn n l) = Nat.min n (List.length l).
Proof. unfold lastn. rewrite length_skipn. lia. Qed.

(** Pushing onto the last [n] elements and shifting once when that makes
    more than [n] gives the last [n] elements again. *)
Lemma lastn_push_shift {A} n (l : list A) x :
  (if (n <? List.length (lastn n l ++ [x]))%nat
   then tl (lastn n l ++ [x])
   else lastn n l ++ [x]) =
  lastn n (l ++ [x]).
Proof.
  destruct n as [|n].
  { unfold lastn. rewrite !Nat.sub_0_r, !skipn_all. reflexivity. }
  rewrite length_app, lastn_length. cbn [List.length].
  destruct (Nat.ltb_spec (S n) (Nat.min (S n) (List.length l) + 1)) as [Hfull|Hroom].
  - assert (Hn : (S n <= List.length l)%nat) by lia.
    unfold lastn. rewrite length_app. cbn [List.length].
    replace (List.length l + 1 - S n)%nat with (1 + (List.length l - S n))%nat by lia.
    rewrite skipn_app.
    replace (1 + (List.length l - S n) - List.length l)%nat with 0%nat by lia.
    cbn [skipn].
    rewrite <- skipn_skipn.
    destruct (skipn (List.length l - S n) l) as [|a r] eqn:E; [|reflexivity].
    apply (f_equal (@List.length A)) in E. rewrite length_skipn in E. cbn in E. lia.
  - assert (Hn : (List.length l < S n)%nat) by lia.
    rewrite !lastn_short; [reflexivity| |]; rewrite ?length_app; cbn [List.length]; lia.
Qed.

(** ** What the listeners hear *)

Lemma grows_control P Q b b' :
  LiquidBot.calls b' = LiquidBot.calls b -> LiquidBot.emitted b' = LiquidBot.emitted b ->
  grows P Q b b'.
Proof. intros Hc He. exists [], []. now rewrite !app_nil_r. Qed.

(** [start], [stop] and a firing only add to the events and to the calls. *)
Lemma perform_grows a : respects (grows any_call any_event) (perform a).
Proof.
  pose proof (grows_refl any_call any_event). pose proof (grows_trans any_call any_event).
  destruct a; unfold perform, start, stop, tick; unfold_methods;
    repeat method_step;
    first [grows_leaf | intros; now apply grows_control].
Qed.

Lemma hear_all evs : forall s,
  Server.bot (fold_left (fun s ev => Server.hear ev s) evs s) = Server.bot s /\
  Server.botConfig (fold_left (fun s ev => Server.hear ev s) evs s) = Server.botConfig s /\
  Server.console (fold_left (fun s ev => Server.hear ev s) evs s) = Server.console s /\
  Server.io (fold_left (fun s ev => Server.hear ev s) evs s) =
    Server.io s ++ map Server.broadcast_of evs /\
  (buffered s -> buffered (fold_left (fun s ev => Server.hear ev s) evs s)).
Proof.
  induction evs as [|ev evs IH]; intro s; cbn [fold_left map].
  - rewrite app_nil_r. auto.
  - destruct (IH (Server.hear ev s)) as (Hb & Hc & Ho & Hio & Hbuf).
    rewrite Hb, Hc, Ho, Hio.
    destruct ev as [level message|status]; cbn; rewrite <- app_assoc;
      repeat (split; [reflexivity|]); intro H; apply Hbuf; unfold buffered in *; cbn.
    + unfold Server.logs_of. rewrite flat_map_app. cbn [flat_map app].
      fold (Server.logs_of (Server.io s)). rewrite H. apply lastn_push_shift.
    + unfold Server.logs_of. rewrite flat_map_app. cbn [flat_map]. rewrite app_nil_r.
      exact H.
Qed.

(** A method of the bot called by the server, seen from the bot. *)
Lemma call_run {A} (m : M A) o s r b' evs :
  m (Server.this o) = (r, b') ->
  LiquidBot.emitted b' = LiquidBot.emitted (Server.this o) ++ evs ->
  let s' := snd (Server.call m o s) in
  fst (Server.call m o s) = r /\
  Server.bot s' = Some {| Server.this := b'; Server.walletAddress := Server.walletAddress o |} /\
  Server.botConfig s' = Server.botConfig s /\
  Server.console s' = Server.console s /\
  Server.io s' = Server.io s ++ map Server.broadcast_of evs /\
  (buffered s -> buffered s').
Proof.
  intros E Hevs. unfold Server.call. rewrite E, Hevs. cbn [fst snd].
  rewrite skipn_app, skipn_all, Nat.sub_diag. cbn [app skipn].
  match goal with
  | |- context [fold_left _ evs ?s0] =>
    destruct (hear_all evs s0) as (Hb & Hc & Ho & Hio & Hbuf)
  end.
  rewrite Hb, Hc, Ho, Hio. repeat split. exact Hbuf.
Qed.

(** One activity of the bot, run by the server.  It does not throw, the
    listeners hear all it emits, and a ready server stays ready. *)
Lemma call_perform a o s :
  let s' := snd (Server.call (perform a) o s) in
  fst (Server.call (perform a) o s) = Ret tt /\
  Server.bot s' =
    Some {| Server.this := after (perform a) (Server.this o);
            Server.walletAddress := Server.walletAddress o |} /\
  Server.console s' = Server.console s /\
  (exists evs,
     LiquidBot.emitted (after (perform a) (Server.this o)) =
       LiquidBot.emitted (Server.this o) ++ evs /\
     Server.io s' = Server.io s ++ map Server.broadcast_of evs) /\
  (forall config wallet,
     Server.bot s = Some o -> ready config wallet s -> ready config wallet s').
Proof.
  destruct (perform_kept a (Server.this o)) as (Hret & Hcfg & _ & Hs & Hp).
  destruct (perform_grows a (Server.this o)) as (cs & evs & _ & Hevs & _).
  destruct (perform a (Server.this o)) as [r b'] eqn:E.
  unfold after in *. rewrite E in *. cbn [fst snd] in *.
  destruct (call_run (perform a) o s r b' evs E Hevs) as (H1 & H2 & H3 & H4 & H5 & H6).
  cbv zeta.
  split; [now rewrite H1|]. split; [exact H2|]. split; [exact H4|].
  split; [now exists evs|].
  intros config wallet Ho (b & Hb & Hc & Hconf & Hset & Hmir & Hlen & Hio & Hbuf).
  rewrite Ho in Hb. injection Hb as Hb. subst o.
  cbn [Server.this Server.walletAddress] in *.
  exists b'. rewrite H2, H3, H5, Hevs, length_app, skipn_app, map_app.
  replace (4 - List.length (LiquidBot.emitted b))%nat with 0%nat by lia.
  cbn [skipn]. rewrite Hio.
  split; [reflexivity|]. split; [exact Hc|]. split; [congruence|].
  split; [now apply Hs|]. split; [now apply Hp|]. split; [lia|].
  split; [reflexivity|now apply H6].
Qed.

Lemma serve_ready r config wallet s : ready config wallet s -> ready config wallet (Server.serve r s).
Proof.
  intro Hs. pose proof Hs as (b & Hb & _).
  set (o := {| Server.this := b; Server.walletAddress := wallet |}) in *.
  destruct r as [| |e| |e|]; cbn [Server.serve]; try exact Hs.
  - unfold Server.api_start. rewrite Hb.
    pose proof (call_perform (Start e) o s) as (_ & _ & _ & _ & H). cbn [perform] in H.
    destruct (Server.call (start e) o s) as [r s']. cbn [snd] in *. now apply H.
  - unfold Server.api_stop. rewrite Hb.
    pose proof (call_perform Stop o s) as (_ & _ & _ & _ & H). cbn [perform] in H.
    destruct (Server.call stop o s) as [r s']. cbn [snd] in *. now apply H.
  - unfold Server.firing. rewrite Hb.
    pose proof (call_perform (Firing e) o s) as (_ & _ & _ & _ & H). cbn [perform] in H.
    now apply H.
Qed.

Lemma serving_ready rs config wallet : forall s,
  ready config wallet s -> ready config wallet (Server.serving rs s).
Proof.
  induction rs as [|r rs IH]; intros s Hs; cbn [Server.serving fold_left]; [exact Hs|].
  apply IH. now apply serve_ready.
Qed.

(** ** The initialisation from the environment *)

Section InitBotFromEnv.
Variables parseFloat parseInt : string -> float.
Variable newConnection : string -> outcome unit.
Variable keypairFromSecretKey : string -> outcome PublicKey.
Variable newPublicKey : string -> outcome PublicKey.


(** X14.  When [initBotFromEnv] has returned true on a server just
    started, the server holds a bot built from the configuration it shows,
    whose three numbers are what [parseFloat] and [parseInt] make of the
    variables, or of "0.015", "50" and "60000" where a variable is unset or
    empty, with no check of their range.  The bot is not running and has
    emitted the four entries of its constructor, but the listeners were
    attached after the construction: the log buffer is empty and nothing
    was broadcast. *)
Theorem initBotFromEnv_makes_the_server_ready env :
  let r := Server.initBotFromEnv parseFloat parseInt newConnection keypairFromSecretKey
             newPublicKey env Server.initial in
  fst r = true ->
  exists b wallet,
    let config := LiquidBot.config b in
    let s := snd r in
    ready config wallet s /\
    Server.bot s = Some {| Server.this := b; Server.walletAddress := wallet |} /\
    BotConfig.minFeeThreshold config =
      parseFloat (Server.or_else (Server.MIN_FEE_THRESHOLD env) "0.015") /\
    BotConfig.buybackPercentage config =
      parseInt (Server.or_else (Server.BUYBACK_PERCENTAGE env) "50") /\
    BotConfig.checkInterval config =
      parseInt (Server.or_else (Server.CHECK_INTERVAL env) "60000") /\
    LiquidBot.isRunning b = false /\
    List.length (LiquidBot.emitted b) = 4%nat /\
    Server.logBuffer s = [] /\
    Server.io s = [].
Proof.
  unfold Server.initBotFromEnv, Server.newLiquidBot, constructor.
  destruct (Server.HELIUS_RPC_URL env) as [[|c1 url]|]; try discriminate.
  destruct (Server.PRIVATE_KEY env) as [[|c2 key]|]; try discriminate.
  destruct (Server.TOKEN_MINT env) as [[|c3 mint]|]; try discriminate.
  cbn.
  destruct (newConnection (String c1 url)) as [[]|err];
    [|destruct (keypairFromSecretKey (String c2 key)); discriminate].
  destruct (keypairFromSecretKey (String c2 key)) as [w|err]; [|discriminate].
  destruct (newPublicKey (String c3 mint)) as [m|err]; [|discriminate].
  cbn. intros _. eexists _, w. cbn.
  split; [|repeat split].
  eexists. cbn. repeat split; try reflexivity; cbn; lia.
Qed.

End InitBotFromEnv.

Lemma example_server_ready : ready example_config "wallet" example_server.
Proof.
  eexists. cbn. repeat split; try reflexivity; cbn; lia.
Qed.

Lemma initBotFromEnv_witness :
  fst (Server.initBotFromEnv example_parseFloat example_parseInt example_newConnection
         (fun _ => Ok "wallet") (fun mint => Ok mint) example_env Server.initial) = true /\
  Server.logBuffer example_server = [] /\
  option_map (fun o => LiquidBot.config (Server.this o)) (Server.bot example_server) =
    Some (BotConfig.mk "https://rpc.example" "key" "mint" 0.015 50 30000).
Proof.
  pose proof (initBotFromEnv_makes_the_server_ready example_parseFloat example_parseInt
                example_newConnection (fun _ => Ok "wallet") (fun mint => Ok mint)
                example_env eq_refl)
    as (b & wallet & _ & Hb & _ & _ & _ & _ & _ & Hbuf & _).
  split; [reflexivity|]. split; [exact Hbuf|reflexivity].
Defined.

(** ** The routes *)

(** X15.  Once the server holds a bot, the two POST routes answer success
    whatever happened: [/api/start] answers "Bot started" whether the bot
    was stopped (and whatever became of its initial cycle) or was already
    running, in which case the bot only logs a warning, which is broadcast;
    [/api/stop] answers "Bot stopped" whether the bot was running or not.
    After [/api/start] the bot runs; after [/api/stop] it does not. *)
Theorem post_routes_answer_success e s o :
  Server.bot s = Some o ->
  fst (Server.api_start e s) = Server.ResSuccess "Bot started" /\
  fst (Server.api_stop s) = Server.ResSuccess "Bot stopped" /\
  (exists b',
     Server.bot (snd (Server.api_start e s)) =
       Some {| Server.this := b'; Server.walletAddress := Server.walletAddress o |} /\
     LiquidBot.isRunning b' = true) /\
  (exists b',
     Server.bot (snd (Server.api_stop s)) =
       Some {| Server.this := b'; Server.walletAddress := Server.walletAddress o |} /\
     LiquidBot.isRunning b' = false) /\
  (LiquidBot.isRunning (Server.this o) = true ->
   Server.io (snd (Server.api_start e s)) =
     Server.io s ++
     [Server.IoLog {| Server.level := warning; Server.message := MsgAlreadyRunning |}] /\
   option_map (fun o' => LiquidBot.calls (Server.this o')) (Server.bot (snd (Server.api_start e s))) =
     Some (LiquidBot.calls (Server.this o))).
Proof.
  intro Ho. unfold Server.api_start, Server.api_stop. rewrite Ho.
  pose proof (call_perform (Start e) o s) as (R1 & B1 & _ & (evs1 & E1 & I1) & _).
  pose proof (call_perform Stop o s) as (R2 & B2 & _ & _).
  cbn [perform] in *.
  destruct (Server.call (start e) o s) as [r1 s1].
  destruct (Server.call stop o s) as [r2 s2].
  cbn [fst snd] in *. subst r1 r2.
  split; [reflexivity|]. split; [reflexivity|]. split; [|split].
  - eexists. split; [exact B1|].
    destruct (LiquidBot.isRunning (Server.this o)) eqn:Hrun.
    + unfold after, start. step. now rewrite Hrun.
    + now apply start_schedules.
  - eexists. split; [exact B2|].
    unfold after, stop. step.
    destruct (LiquidBot.isRunning (Server.this o)) eqn:Hrun; cbn [negb]; step; [|exact Hrun].
    now destruct (LiquidBot.intervalId (Server.this o)).
  - intro Hrun. rewrite B1, I1. cbn [option_map Server.this].
    assert (Hb : after (start e) (Server.this o) =
                 emit (EvLog warning MsgAlreadyRunning) (Server.this o)).
    { unfold after, start. step. now rewrite Hrun. }
    rewrite Hb in E1 |- *. cbn in E1. apply app_inv_head in E1. subst evs1.
    split; reflexivity.
Qed.

Lemma post_routes_witness :
  let e := fees_on_curve 20000000 in
  Server.bot example_server <> None /\
  fst (Server.api_start e example_server) = Server.ResSuccess "Bot started" /\
  fst (Server.api_start e (snd (Server.api_start e example_server))) =
    Server.ResSuccess "Bot started".
Proof.
  intro e.
  assert (H0 : exists o, Server.bot example_server = Some o) by (eexists; reflexivity).
  destruct H0 as (o & Ho).
  pose proof (post_routes_answer_success e example_server o Ho) as (H1 & _ & (b' & Hb & _) & _).
  pose proof (post_routes_answer_success e _ _ Hb) as (H2 & _).
  split; [rewrite Ho; discriminate|]. split; [exact H1|exact H2].
Defined.

(** X16.  A server that is ready keeps its bot through any requests,
    timer firings and connections, each handled to its end before the next:
    it holds the same wallet and shows the same configuration, which is the
    bot's, and the bot stays settled; the status route answers with the
    status of the bot and that configuration, and a socket that connects
    receives the buffered logs, the status, the configuration and
    [botReady], never [botError]. *)
Theorem a_ready_server_keeps_its_bot rs config wallet s :
  ready config wallet s ->
  let s' := Server.serving rs s in
  exists b',
    Server.bot s' = Some {| Server.this := b'; Server.walletAddress := wallet |} /\
    Server.botConfig s' = Some config /\
    LiquidBot.config b' = config /\
    settled b' /\
    Server.api_status s' =
      Server.ResStatus (LiquidBot.status b') (Some (Server.shown_config config)) /\
    Server.on_connection s' =
      [Server.SockLogs (Server.logBuffer s');
       Server.SockStatus (LiquidBot.status b');
       Server.SockConfig (Server.shown_config config);
       Server.SockBotReady (BotConfig.tokenMint config) wallet].
Proof.
  intros Hs s'.
  destruct (serving_ready rs config wallet s Hs) as (b' & Hb & Hc & Hconf & Hset & _).
  fold s' in Hb, Hc.
  exists b'. unfold Server.api_status, Server.on_connection. rewrite Hb, Hc.
  repeat split; try assumption; apply Hset.
Qed.

Lemma ready_server_witness :
  let rs := [Server.PostStart (fees_on_curve 20000000); Server.Connects;
             Server.TimerFires (fees_on_curve 20000000); Server.PostStop] in
  ready example_config "wallet" example_server /\
  Server.botConfig (Server.serving rs example_server) = Some example_config.
Proof.
  intro rs. split; [exact example_server_ready|].
  destruct (a_ready_server_keeps_its_bot rs example_config "wallet" example_server
              example_server_ready) as (b' & _ & Hc & _).
  exact Hc.
Defined.

(** X17.  The log buffer of a ready server holds, in order, the last 500
    of the log entries the bot has emitted since its construction, all of
    them while they are fewer: after any requests and timer firings, each
    handled to its end before the next, what was broadcast is what the bot
    has emitted after the four entries of its constructor, and the buffer
    is the last 500 log entries of that. *)
Theorem log_buffer_holds_the_last_500 rs config wallet s :
  ready config wallet s ->
  let s' := Server.serving rs s in
  exists b',
    Server.bot s' = Some {| Server.this := b'; Server.walletAddress := wallet |} /\
    Server.io s' = map Server.broadcast_of (skipn 4 (LiquidBot.emitted b')) /\
    Server.logBuffer s' = lastn 500 (Server.logs_of (Server.io s')) /\
    (List.length (Server.logBuffer s') <= 500)%nat.
Proof.
  intros Hs s'.
  destruct (serving_ready rs config wallet s Hs) as (b' & Hb & _ & _ & _ & _ & _ & Hio & Hbuf).
  fold s' in Hb, Hio, Hbuf. exists b'.
  split; [exact Hb|]. split; [exact Hio|]. split; [exact Hbuf|].
  rewrite Hbuf, lastn_length. apply Nat.le_min_l.
Qed.

Lemma log_buffer_witness :
  let rs := [Server.PostStart (fees_on_curve 20000000); Server.PostStop] in
  ready example_config "wallet" example_server /\
  (List.length (Server.logBuffer (Server.serving rs example_server)) <= 500)%nat.
Proof.
  intro rs. split; [exact example_server_ready|].
  destruct (log_buffer_holds_the_last_500 rs example_config "wallet" example_server
              example_server_ready) as (b' & _ & _ & _ & H).
  exact H.
Defined.

(** X18.  A server whose initialisation failed stays without a bot: no
    route, firing or connection initialises it, and nothing changes its
    state; [/api/status], [/api/start] and [/api/stop] answer with a failure
    and a socket that connects receives [botError]. *)
Theorem a_server_without_bot_stays_so rs s :
  Server.bot s = None ->
  Server.serving rs s = s /\
  (forall e, Server.api_start e s =
             (Server.ResFailure "Bot not initialized - check .env file", s)) /\
  Server.api_stop s = (Server.ResFailure "Bot not initialized", s) /\
  Server.api_status s = Server.ResFailure "Bot not initialized - check .env file" /\
  Server.on_connection s =
    [Server.SockLogs (Server.logBuffer s);
     Server.SockBotError "Bot not configured - check .env file"].
Proof.
  intro Hb. split.
  - induction rs as [|r rs IH]; [reflexivity|].
    cbn [Server.serving fold_left].
    replace (Server.serve r s) with s; [exact IH|].
    destruct r; cbn [Server.serve]; unfold Server.api_start, Server.api_stop, Server.firing;
      now rewrite ?Hb.
  - unfold Server.api_start, Server.api_stop, Server.api_status, Server.on_connection.
    rewrite Hb. repeat split.
Qed.

Lemma server_without_bot_witness :
  Server.bot Server.initial = None /\
  Server.serving [Server.PostStart (fees_on_curve 20000000); Server.PostStop] Server.initial =
    Server.initial.
Proof.
  split; [reflexivity|].
  apply (a_server_without_bot_stays_so _ Server.initial eq_refl).
Defined.

(** * The dashboard *)

(** ** Addresses *)

Lemma truncateAddress_long (s : Dashboard.text) :
  (10 <= List.length s)%nat ->
  Dashboard.truncateAddress (Some s) =
  Some (firstn 6 s ++ Dashboard.ellipsis ++ lastn 4 s).
Proof.
  intro H. unfold Dashboard.truncateAddress.
  destruct s as [|c s]; [cbn in H; lia|].
  destruct (Nat.ltb_spec (List.length (c :: s)) 10) as [Hlt|_]; [lia|].
  cbn [orb]. unfold Dashboard.slice, Dashboard.clamp, lastn.
  change (0 <? 0) with false. change (6 <? 0) with false. change (-4 <? 0) with true.
  cbv iota.
  replace (Nat.min (Z.to_nat 0) (List.length (c :: s))) with 0%nat by lia.
  replace (Nat.min (Z.to_nat 6) (List.length (c :: s))) with 6%nat by lia.
  replace (Z.to_nat (Z.max (Z.of_nat (List.length (c :: s)) + -4) 0))
    with (List.length (c :: s) - 4)%nat by lia.
  cbn [skipn Nat.sub].
  rewrite (firstn_all2 (skipn _ _)); [reflexivity|].
  rewrite length_skipn. lia.
Qed.

(** X19.  [truncateAddress] returns an address of fewer than ten code units
    as it is and otherwise its first six code units, three dots and its
    last four: thirteen code units whatever the length, which is longer
    than an address of ten to twelve.  Truncating twice is truncating
    once. *)
Theorem truncateAddress_keeps_both_ends (s : Dashboard.text) :
  let shown := Dashboard.truncateAddress (Some s) in
  shown =
    Some (if (List.length s <? 10)%nat then s
          else firstn 6 s ++ Dashboard.ellipsis ++ lastn 4 s) /\
  option_map (@List.length _) shown =
    Some (if (List.length s <? 10)%nat then List.length s else 13%nat) /\
  Dashboard.truncateAddress shown = shown.
Proof.
  cbv zeta. destruct (Nat.ltb_spec (List.length s) 10) as [Hshort|Hlong].
  - assert (E : Dashboard.truncateAddress (Some s) = Some s).
    { unfold Dashboard.truncateAddress.
      destruct (Nat.ltb_spec (List.length s) 10) as [_|H]; [|lia].
      now rewrite Bool.orb_true_r. }
    rewrite E. repeat split. exact E.
  - rewrite (truncateAddress_long s Hlong).
    set (t := firstn 6 s ++ Dashboard.ellipsis ++ lastn 4 s).
    assert (Hlen : List.length t = 13%nat).
    { unfold t, lastn. rewrite !length_app, length_firstn, length_skipn.
      change (List.length Dashboard.ellipsis) with 3%nat. lia. }
    split; [reflexivity|]. split; [cbn [option_map]; now rewrite Hlen|].
    rewrite truncateAddress_long by lia.
    f_equal. unfold t at 3. f_equal; [|f_equal].
    + unfold t. rewrite firstn_app, length_firstn, firstn_firstn.
      replace (6 - Nat.min 6 (List.length s))%nat with 0%nat by lia.
      rewrite firstn_O, app_nil_r. reflexivity.
    + unfold lastn at 1. rewrite Hlen. change (13 - 4)%nat with 9%nat. unfold t.
      rewrite skipn_app, length_firstn.
      rewrite (skipn_all2 (firstn 6 s)) by (rewrite length_firstn; lia).
      replace (9 - Nat.min 6 (List.length s))%nat with 3%nat by lia.
      rewrite skipn_app.
      change (skipn 3 Dashboard.ellipsis) with (@nil Ascii.ascii).
      change (3 - List.length Dashboard.ellipsis)%nat with 0%nat.
      reflexivity.
Qed.

(** ** The lines of the terminal *)

Lemma lastn_cons_full {A} n (a : A) l : (n <= List.length l)%nat -> lastn n (a :: l) = lastn n l.
Proof.
  intro H. unfold lastn. cbn [List.length].
  replace (S (List.length l) - n)%nat with (S (List.length l - n)) by lia. reflexivity.
Qed.

Lemma pinned_short {A} n (l : list A) : (List.length l <= S n)%nat -> pinned n l = l.
Proof.
  destruct l as [|a l]; [reflexivity|]. cbn [List.length pinned]. intro H.
  rewrite lastn_short by lia. reflexivity.
Qed.

Lemma pinned_remove_second {Entry} (children : list (Dashboard.Node Entry)) :
  (501 < List.length children)%nat ->
  pinned 500 (Dashboard.remove_second children) = pinned 500 children /\
  List.length (Dashboard.remove_second children) = pred (List.length children).
Proof.
  destruct children as [|a [|b rest]]; cbn [List.length]; try lia.
  intro H. cbn [Dashboard.remove_second pinned List.length pred].
  split; [|reflexivity]. rewrite lastn_cons_full by lia. reflexivity.
Qed.

(** The loop of [addLog], given turns enough: it leaves the first child and
    the last 500 of the others. *)
Lemma evict_pinned {Entry} turns : forall children : list (Dashboard.Node Entry),
  (List.length children <= 501 + turns)%nat ->
  Dashboard.evict turns children = pinned 500 children.
Proof.
  induction turns as [|turns IH]; intros children H; cbn [Dashboard.evict].
  - symmetry. apply pinned_short. lia.
  - destruct (Nat.ltb_spec 501 (List.length children)) as [Hmore|Hfew].
    + destruct (pinned_remove_second children Hmore) as [Hp Hl].
      rewrite <- Hp. apply IH. lia.
    + symmetry. apply pinned_short. lia.
Qed.

Lemma addLog_pinned {Entry} (entry : Entry) children :
  Dashboard.addLog entry children = pinned 500 (children ++ [Dashboard.Line entry]).
Proof. unfold Dashboard.addLog. apply evict_pinned. lia. Qed.

Lemma lastn_lastn_push {A} n (l : list A) x : lastn n (lastn n l ++ [x]) = lastn n (l ++ [x]).
Proof.
  rewrite <- (lastn_push_shift n l x).
  rewrite <- (lastn_push_shift n (lastn n l) x).
  rewrite (lastn_short n (lastn n l)); [reflexivity|].
  rewrite lastn_length. apply Nat.le_min_l.
Qed.

Lemma pinned_pinned_push {A} n (l : list A) x : pinned n (pinned n l ++ [x]) = pinned n (l ++ [x]).
Proof.
  destruct l as [|a l]; [reflexivity|]. cbn [pinned app]. now rewrite lastn_lastn_push.
Qed.

Lemma addLog_all {Entry} (entries : list Entry) : forall children,
  entries <> [] ->
  fold_left (fun c e => Dashboard.addLog e c) entries children =
  pinned 500 (children ++ map Dashboard.Line entries).
Proof.
  induction entries as [|e entries IH] using rev_ind; intros children Hne; [congruence|].
  rewrite fold_left_app. cbn [fold_left]. rewrite addLog_pinned, map_app, app_assoc.
  cbn [map]. destruct entries as [|e0 entries].
  - cbn [fold_left map]. now rewrite app_nil_r.
  - rewrite IH by discriminate. apply pinned_pinned_push.
Qed.

Lemma pinned_length {A} n (l : list A) : (List.length (pinned n l) <= S n)%nat.
Proof.
  destruct l as [|a l]; cbn [pinned List.length]; [lia|].
  rewrite lastn_length. lia.
Qed.

(** X20.  The terminal after one or more [addLog]: its first child as it
    was, then the last 500 of its other children and of the lines added,
    in order; [addLog] evicts from the second child on, never the first.
    So the terminal then shows at most 501 children, and when the logs are
    cleared on a terminal without welcome banner, the line "Logs cleared"
    becomes the first child and stays there whatever is logged
    afterwards. *)
Theorem the_terminal_keeps_its_first_child {Entry} (entry cleared : Entry)
    (entries : list Entry) (children : list (Dashboard.Node Entry)) :
  let add := fold_left (fun c e => Dashboard.addLog e c) in
  add (entry :: entries) children =
    pinned 500 (children ++ map Dashboard.Line (entry :: entries)) /\
  (List.length (add (entry :: entries) children) <= 501)%nat /\
  (find Dashboard.is_welcome children = None ->
   add entries (Dashboard.clearLogs cleared children) =
     Dashboard.Line cleared :: lastn 500 (map Dashboard.Line entries)).
Proof.
  cbv zeta. split; [|split].
  - apply addLog_all. discriminate.
  - rewrite addLog_all by discriminate. apply pinned_length.
  - intro Hnone. unfold Dashboard.clearLogs. rewrite Hnone, addLog_pinned.
    cbn [app pinned].
    change (lastn 500 (@nil (Dashboard.Node Entry))) with (@nil (Dashboard.Node Entry)).
    destruct entries as [|e entries]; [reflexivity|].
    rewrite addLog_all by discriminate. reflexivity.
Qed.
